(** * Scenario forecast dashboard: the main page's computation, verified

    A shallow embedding of [src/dashboard/mainpage.py] (and of the load and
    best-model block of [src/dashboard/comparison.py]): the pandas tables the
    page reads, the column operations it applies to them, the objects it
    shares and copies, and the Streamlit widgets it emits.

    Numbers are Python floats, that is IEEE-754 binary64 with round to nearest
    even: they are modelled by Rocq's primitive [float], whose operations are
    specified against [SpecFloat] by the standard library. *)

From Stdlib Require Import ZArith Lia Floats Ascii String.
From stdpp Require Import gmap strings list sorting.

Local Open Scope string_scope.
Local Open Scope list_scope.
Local Open Scope Z_scope.
#[local] Set Warnings "-inexact-float".

(** ** Python exceptions and results *)

Inductive exn :=
  | FileNotFoundError
  | KeyError (key : string)
  | TypeError (what : string)
  | ValueError (what : string)
  | OtherError (what : string).

Inductive result (A : Type) :=
  | Ok (a : A)
  | Err (e : exn).
Arguments Ok {A} a.
Arguments Err {A} e.

#[global] Instance result_ret : MRet result := fun A a => Ok a.
#[global] Instance result_bind : MBind result := fun A B f m =>
  match m with Ok a => f a | Err e => Err e end.

(** ** Tables

    A pandas [DataFrame] is kept column by column: an index of row labels and
    the columns in their order, each a list of cells as long as the index. *)

Inductive Cell :=
  | CFloat (v : float)
  | CStr (s : string)
  | CTime (t : Z).

Abbreviation Column := (list Cell).

Record DataFrame := mkDataFrame {
  index : list Cell;
  columns : list (string * Column)
}.

Definition nrows (df : DataFrame) : nat := length (index df).

(** Every column is as long as the index. *)
Definition wf_frame (df : DataFrame) : Prop :=
  Forall (fun c => length (snd c) = nrows df) (columns df).

Fixpoint assoc {A} (k : string) (l : list (string * A)) : option A :=
  match l with
  | [] => None
  | (k', a) :: r => if String.eqb k k' then Some a else assoc k r
  end.

(** [df[name] = col]: an existing column is replaced in place, a new one is
    appended after the others. *)
Fixpoint assoc_set {A} (k : string) (a : A) (l : list (string * A)) : list (string * A) :=
  match l with
  | [] => [(k, a)]
  | (k', a') :: r => if String.eqb k k' then (k', a) :: r else (k', a') :: assoc_set k a r
  end.

(** [df[name]] *)
Definition getcol (name : string) (df : DataFrame) : result Column :=
  match assoc name (columns df) with
  | Some c => Ok c
  | None => Err (KeyError name)
  end.

(** [df[name] = col] *)
Definition setcol (name : string) (col : Column) (df : DataFrame) : DataFrame :=
  {| index := index df; columns := assoc_set name col (columns df) |}.

(** [series * k] on a column: every cell must be a number. *)
Definition cell_mul (k : float) (c : Cell) : result Cell :=
  match c with
  | CFloat v => Ok (CFloat (v * k)%float)
  | CStr _ => Err (TypeError "can't multiply sequence by non-int of type 'float'")
  | CTime _ => Err (TypeError "unsupported operand type(s) for *: 'Timestamp' and 'float'")
  end.

Fixpoint col_mul (k : float) (col : Column) : result Column :=
  match col with
  | [] => Ok []
  | c :: r =>
      c' ← cell_mul k c;
      r' ← col_mul k r;
      Ok (c' :: r')
  end.

(** [series == label]: a cell that is not that string compares unequal. *)
Definition cell_eq_str (s : string) (c : Cell) : bool :=
  match c with
  | CStr s' => String.eqb s' s
  | _ => false
  end.

(** [l[mask]]: the rows whose mask bit is set. *)
Fixpoint select_rows {A} (mask : list bool) (l : list A) : list A :=
  match mask, l with
  | b :: mask', x :: l' => if b then x :: select_rows mask' l' else select_rows mask' l'
  | _, _ => []
  end.

(** [df[mask]] *)
Definition df_filter (mask : list bool) (df : DataFrame) : DataFrame :=
  {| index := select_rows mask (index df);
     columns := map (fun c => (fst c, select_rows mask (snd c))) (columns df) |}.

(** [l[-n:]] for [n > 0], nothing for [n = 0]: what [tail(n)] keeps. *)
Definition last_n {A} (n : nat) (l : list A) : list A :=
  drop (length l - n) l.

(** [df.tail(n)] *)
Definition df_tail (n : nat) (df : DataFrame) : DataFrame :=
  {| index := last_n n (index df);
     columns := map (fun c => (fst c, last_n n (snd c))) (columns df) |}.

(** [series.sum()]: pandas skips NaN (they count as zero) and adds the rest
    from left to right, starting from zero. That is the order numpy adds
    fewer than eight values in, which covers the sums over a six-month tail;
    a longer column is added pairwise. *)
Definition nan_to_zero (v : float) : float :=
  if PrimFloat.is_nan v then 0%float else v.

Definition fsum (vs : list float) : float :=
  fold_left (fun acc v => (acc + nan_to_zero v)%float) vs 0%float.

Fixpoint col_floats (col : Column) : result (list float) :=
  match col with
  | [] => Ok []
  | CFloat v :: r => r' ← col_floats r; Ok (v :: r')
  | _ :: _ => Err (TypeError "unsupported operand type(s) for +")
  end.

Definition col_sum (col : Column) : result float :=
  vs ← col_floats col; Ok (fsum vs).

(** [series.unique()]: the distinct values in order of first appearance. *)
Fixpoint unique_from (seen : list string) (l : list string) : list string :=
  match l with
  | [] => []
  | x :: r =>
      if bool_decide (x ∈ seen) then unique_from seen r
      else x :: unique_from (x :: seen) r
  end.

Definition unique (l : list string) : list string := unique_from [] l.

(** [sorted(strings)]: Python orders [str] by code point, which on UTF-8
    bytes is the order [String.leb] gives. *)
Definition str_le (a b : string) : Prop := String.leb a b = true.

#[global] Instance str_le_dec a b : Decision (str_le a b).
Proof. unfold str_le. apply _. Defined.

Definition sorted (l : list string) : list string := merge_sort str_le l.

(** The cells of a string column; the embedding takes the category column to
    hold strings, and reports any other cell as the [TypeError] that comparing
    it with a string raises in [sorted]. *)
Fixpoint col_strings (col : Column) : result (list string) :=
  match col with
  | [] => Ok []
  | CStr s :: r => r' ← col_strings r; Ok (s :: r')
  | _ :: _ => Err (TypeError "'<' not supported between instances")
  end.

(** Row labels compare like Python values of the same kind; values of
    different kinds are unequal. *)
Definition cell_eqb (a b : Cell) : bool :=
  match a, b with
  | CStr s, CStr t => String.eqb s t
  | CTime s, CTime t => Z.eqb s t
  | CFloat v, CFloat w => PrimFloat.eqb v w
  | _, _ => false
  end.

(** [series.idxmin()]: NaN entries are passed over, and among the others the
    first position holding the least value wins (the search starts at the
    first entry that is a number, and [v < best] is false for a NaN [v]). A
    column with no number in it has no minimum and pandas raises [ValueError]:
    numpy's for the empty column, its own for the column of NaN only. *)
Fixpoint argmin_from (best : nat) (best_v : float) (i : nat) (vs : list float) : nat :=
  match vs with
  | [] => best
  | v :: r =>
      if (v <? best_v)%float then argmin_from i v (S i) r
      else argmin_from best best_v (S i) r
  end.

Fixpoint argmin_skipna (i : nat) (vs : list float) : option nat :=
  match vs with
  | [] => None
  | v :: r =>
      if PrimFloat.is_nan v then argmin_skipna (S i) r
      else Some (argmin_from i v (S i) r)
  end.

Definition no_minimum (vs : list float) : exn :=
  match vs with
  | [] => ValueError "attempt to get argmin of an empty sequence"
  | _ :: _ => ValueError "Encountered all NA values"
  end.

Definition idxmin (idx : list Cell) (col : Column) : result Cell :=
  vs ← col_floats col;
  match argmin_skipna 0 vs with
  | None => Err (no_minimum vs)
  | Some i =>
      match idx !! i with
      | Some label => Ok label
      | None => Err (OtherError "index out of bounds")
      end
  end.

(** [df.loc[label, name]]: the cell of the one row carrying the label, or the
    sub-series of all rows carrying it when the label repeats. *)
Inductive LocResult :=
  | Scalar (c : Cell)
  | SubSeries (cs : list Cell).

Definition cell_text (c : Cell) : string :=
  match c with
  | CStr s => s
  | CFloat _ => "<float>"
  | CTime _ => "<Timestamp>"
  end.

Definition df_loc (df : DataFrame) (label : Cell) (name : string) : result LocResult :=
  col ← getcol name df;
  match select_rows (map (cell_eqb label) (index df)) col with
  | [] => Err (KeyError (cell_text label))
  | [c] => Ok (Scalar c)
  | cs => Ok (SubSeries cs)
  end.

(** [df.rename(columns = mapping)]: a new frame, the mapped column labels
    replaced and the others kept. *)
Definition df_rename (mapping : list (string * string)) (df : DataFrame) : DataFrame :=
  {| index := index df;
     columns := map (fun c => (default (fst c) (assoc (fst c) mapping), snd c)) (columns df) |}.

(** [df[[names]]]: the named columns in the order asked for. *)
Fixpoint select_cols (names : list string) (df : DataFrame) : result (list (string * Column)) :=
  match names with
  | [] => Ok []
  | n :: r =>
      c ← getcol n df;
      r' ← select_cols r df;
      Ok ((n, c) :: r')
  end.

Definition df_select (names : list string) (df : DataFrame) : result DataFrame :=
  cs ← select_cols names df;
  Ok {| index := index df; columns := cs |}.

(** [df.columns = names]: relabels by position, refusing a different count. *)
Definition set_column_names (names : list string) (df : DataFrame) : result DataFrame :=
  if Nat.eqb (length names) (length (columns df))
  then Ok {| index := index df; columns := zip names (map snd (columns df)) |}
  else Err (ValueError "Length mismatch").

(** ** The scenario engine

    The five operations of the main page, under the names the specification
    gives them; each is the code of the lines quoted. *)

Definition all_categories : string := "All Categories".

(** mainpage.py 74-83: the aggregate forecast, or the rows of the chosen
    category. Both branches end in [.copy()], which yields an equal table (that
    it is a new object matters to the page, below). *)
Definition selectSeries (category : string) (forecast_all category_forecast : DataFrame)
  : result DataFrame :=
  if String.eqb category all_categories then Ok forecast_all
  else
    cat ← getcol "Category" category_forecast;
    Ok (df_filter (map (cell_eq_str category) cat) category_forecast).

(** mainpage.py 86-91: the literals denote the nearest binary64 values, as
    they do in Python. *)
Definition scenario_map : list (string * float) :=
  [ ("Conservative (-10%)", (-0.10)%float);
    ("Baseline (0%)", 0.00%float);
    ("Optimistic (+10%)", 0.10%float);
    ("Aggressive (+20%)", 0.20%float) ].

(** mainpage.py 101-103: three new columns, the old ones left as they are. *)
Definition applyGrowth (forecast : DataFrame) (growth_adjustment : float) : result DataFrame :=
  yhat ← getcol "yhat" forecast;
  yhat_adj ← col_mul (1 + growth_adjustment)%float yhat;
  let forecast := setcol "yhat_adj" yhat_adj forecast in
  yhat_lower ← getcol "yhat_lower" forecast;
  yhat_lower_adj ← col_mul (1 + growth_adjustment)%float yhat_lower;
  let forecast := setcol "yhat_lower_adj" yhat_lower_adj forecast in
  yhat_upper ← getcol "yhat_upper" forecast;
  yhat_upper_adj ← col_mul (1 + growth_adjustment)%float yhat_upper;
  Ok (setcol "yhat_upper_adj" yhat_upper_adj forecast).

(** mainpage.py 106: [forecast.tail(6)]. *)
Definition tailWindow (n : nat) (series : DataFrame) : DataFrame := df_tail n series.

(** mainpage.py 107: [future_6m["yhat_adj"].sum()]. *)
Definition summarize (adjustedTail : DataFrame) : result float :=
  col ← getcol "yhat_adj" adjustedTail;
  col_sum col.

(** mainpage.py 108-109 and comparison.py 61-62. *)
Definition bestModel (errors : DataFrame) : result (Cell * LocResult) :=
  mae ← getcol "MAE" errors;
  best_model ← idxmin (index errors) mae;
  best_mae ← df_loc errors best_model "MAE";
  Ok (best_model, best_mae).

(** mainpage.py 66. *)
Definition categories (category_forecast : DataFrame) : result (list string) :=
  col ← getcol "Category" category_forecast;
  names ← col_strings col;
  Ok (all_categories :: sorted (unique names)).

(** ** Forecast series as the specification sees them

    A series is the list of its points; the base series of a table is read
    off the columns [ds], [yhat], [yhat_lower], [yhat_upper], the adjusted
    series off [ds] and the three [_adj] columns (the columns the page plots
    and tabulates). *)

Record ForecastPoint := mkPoint {
  timestamp : Cell;
  pointEstimate : float;
  lowerBound : float;
  upperBound : float
}.

Fixpoint zip_points (ds : list Cell) (est lo hi : list float) : option (list ForecastPoint) :=
  match ds, est, lo, hi with
  | [], [], [], [] => Some []
  | t :: ds, p :: est, l :: lo, u :: hi =>
      option_map (cons (mkPoint t p l u)) (zip_points ds est lo hi)
  | _, _, _, _ => None
  end.

Definition series_view (est lo hi : string) (df : DataFrame) : result (list ForecastPoint) :=
  ds ← getcol "ds" df;
  e ← getcol est df; e ← col_floats e;
  l ← getcol lo df; l ← col_floats l;
  u ← getcol hi df; u ← col_floats u;
  match zip_points ds e l u with
  | Some pts => Ok pts
  | None => Err (ValueError "columns of different lengths")
  end.

Definition forecast_series : DataFrame -> result (list ForecastPoint) :=
  series_view "yhat" "yhat_lower" "yhat_upper".

Definition adjusted_series : DataFrame -> result (list ForecastPoint) :=
  series_view "yhat_adj" "yhat_lower_adj" "yhat_upper_adj".

(** ** Objects, session state and widgets

    Tables are Python objects: a variable holds a reference, [.copy()] and the
    pandas operations that build a table make a new object, and a column
    assignment changes the object it is applied to. The page's run is a
    computation over the heap of tables, Streamlit's session state and the
    widgets put on the screen so far; it ends normally, by [st.stop()], or by
    an exception nobody caught. *)

Abbreviation loc := positive.

Inductive SVal :=
  | SNone
  | SStr (s : string)
  | SBool (b : bool).

(** An f-string: literal pieces, values printed as they are, and numbers
    under a format specification (formatting itself is left to Python). *)
Inductive Piece :=
  | Lit (s : string)
  | Val (v : SVal)
  | Label (c : Cell)
  | Num (spec : string) (v : float).

Abbreviation Text := (list Piece).

Record Trace := mkTrace {
  trace_x : Column;
  trace_y : Column;
  trace_name : option Text
}.

Abbreviation Figure := (list Trace).

Inductive Download :=
  | Csv (df : DataFrame)
  | Html (fig : Figure).

Inductive Widget :=
  | st_error (msg : Text)
  | st_set_page_config (page_title : string)
  | st_sidebar_header (s : string)
  | st_title (s : string)
  | st_subheader (s : string)
  | st_selectbox (label : string) (options : list string) (key : string)
  | st_columns (n : nat)
  | st_metric (label : string) (value : Text)
  | st_divider
  | st_plotly_chart (fig : Figure)
  | st_download_button (label : Text) (data : Download) (file_name : Text) (key : string)
  | st_toast (msg : string)
  | st_dataframe (df : DataFrame)
  | st_expander (label : string)
  | st_success (msg : Text)
  | st_info (msg : string)
  | st_warning (msg : string).

Record State := mkState {
  heap : gmap loc DataFrame;
  session : gmap string SVal;
  screen : list Widget
}.

Inductive Outcome (A : Type) :=
  | Returned (a : A) (s : State)
  | Stopped (s : State)
  | Raised (e : exn) (s : State).
Arguments Returned {A} a s.
Arguments Stopped {A} s.
Arguments Raised {A} e s.

Definition final_state {A} (o : Outcome A) : State :=
  match o with
  | Returned _ s => s
  | Stopped s => s
  | Raised _ s => s
  end.

Definition Script (A : Type) : Type := State -> Outcome A.

#[global] Instance script_ret : MRet Script := fun A a s => Returned a s.
#[global] Instance script_bind : MBind Script := fun A B f m s =>
  match m s with
  | Returned a s' => f a s'
  | Stopped s' => Stopped s'
  | Raised e s' => Raised e s'
  end.

Definition raise {A} (e : exn) : Script A := fun s => Raised e s.

(** [st.stop()] *)
Definition st_stop {A} : Script A := fun s => Stopped s.

Definition lift {A} (r : result A) : Script A :=
  match r with
  | Ok a => mret a
  | Err e => raise e
  end.

(** [try: body except Exception as e: handler(e)]; [st.stop()] is not an
    [Exception] and passes through. *)
Definition try_except {A} (body : Script A) (handler : exn -> Script A) : Script A :=
  fun s =>
    match body s with
    | Raised e s' => handler e s'
    | o => o
    end.

Definition emit (w : Widget) : Script unit := fun s =>
  Returned tt {| heap := heap s; session := session s; screen := screen s ++ [w] |}.

(** A new object, at a reference no object has yet. *)
Definition alloc (df : DataFrame) : Script loc := fun s =>
  let l := fresh (dom (heap s)) in
  Returned l {| heap := <[l := df]> (heap s); session := session s; screen := screen s |}.

Definition deref (l : loc) : Script DataFrame := fun s =>
  match heap s !! l with
  | Some df => Returned df s
  | None => Raised (OtherError "dangling reference") s
  end.

(** Changing an object in place. *)
Definition store (l : loc) (df : DataFrame) : Script unit := fun s =>
  Returned tt {| heap := <[l := df]> (heap s); session := session s; screen := screen s |}.

(** [obj.copy()], [obj[mask]], [obj.tail(n)], [obj.rename(...)], [obj[[names]]]:
    each builds a new object from the value [f] gives. *)
Definition new_from (obj : loc) (f : DataFrame -> result DataFrame) : Script loc :=
  df ← deref obj;
  df' ← lift (f df);
  alloc df'.

Definition obj_copy (obj : loc) : Script loc := new_from obj Ok.

(** [obj[name]] *)
Definition obj_getcol (obj : loc) (name : string) : Script Column :=
  df ← deref obj;
  lift (getcol name df).

(** [obj[name] = col] *)
Definition obj_setcol (obj : loc) (name : string) (col : Column) : Script unit :=
  df ← deref obj;
  store obj (setcol name col df).

(** [st.session_state.key] *)
Definition session_get (key : string) : Script SVal := fun s =>
  match session s !! key with
  | Some v => Returned v s
  | None => Raised (OtherError "st.session_state has no such attribute") s
  end.

(** [st.selectbox(label, options, index, key)]: the widget keeps the value the
    session holds for its key when that is one of its options, and falls back
    to the option at [index] otherwise (on a first run, or when the options
    changed under a stale value); the value is always an option. *)
Definition selectbox_value (options : list string) (index : nat) (current : option SVal) : SVal :=
  let fallback := default SNone (SStr <$> options !! index) in
  match current with
  | Some (SStr v) => if bool_decide (v ∈ options) then SStr v else fallback
  | _ => fallback
  end.

Definition selectbox (label : string) (options : list string) (index : nat) (key : string)
  : Script unit := fun s =>
  Returned tt
    {| heap := heap s;
       session := <[key := selectbox_value options index (session s !! key)]> (session s);
       screen := screen s ++ [st_selectbox label options key] |}.

(** [st.download_button(..., key)]: its value, kept in the session under the
    key, is whether the button was pressed to cause this run. *)
Definition button_value (current : option SVal) : SVal :=
  match current with
  | Some (SBool b) => SBool b
  | _ => SBool false
  end.

Definition download_button (label : Text) (data : Download) (file_name : Text) (key : string)
  : Script unit := fun s =>
  Returned tt
    {| heap := heap s;
       session := <[key := button_value (session s !! key)]> (session s);
       screen := screen s ++ [st_download_button label data file_name key] |}.

(** Python's truth value of a session value. *)
Definition truthy (v : SVal) : bool :=
  match v with
  | SNone => false
  | SStr s => negb (String.eqb s "")
  | SBool b => b
  end.

(** mainpage.py 14-33 *)
Definition download_button_graph (fig : Figure) (filename : Text) (key : string) : Script unit :=
  download_button [Lit "Download interactive graph (HTML)"] (Html fig)
                  (filename ++ [Lit ".html"]) key.

Definition download_button_dataframe (dataframe : DataFrame) (label : string)
    (filename_no_extension : Text) (key : string) : Script unit :=
  download_button [Lit "Download "; Lit label] (Csv dataframe)
                  (filename_no_extension ++ [Lit ".csv"]) key.

(** ** Loading the upstream artifact *)

(** What is found at [store/state_dump.pkl]: nothing, a file [pickle] fails
    on (with the message of its exception), or the items of the pickled
    dictionary of named tables (a dictionary: the keys are distinct). The
    items are tables, each an object of its own: a dictionary that holds one
    table object under two keys, which [pickle] would load as one object, is
    not among them. *)
Inductive Artifact :=
  | Absent
  | Unreadable (why : string)
  | Pickled (items : list (string * DataFrame)).

Fixpoint unpickle (items : list (string * DataFrame)) : Script (gmap string loc) :=
  match items with
  | [] => mret ∅
  | (k, df) :: r =>
      l ← alloc df;
      d ← unpickle r;
      mret (<[k := l]> d)
  end.

(** mainpage.py 9-11, comparison.py 10-12. [st.cache_data] hands every run
    its own copy of what was unpickled: the tables are new objects each
    time. *)
Definition load_state (art : Artifact) : Script (gmap string loc) :=
  match art with
  | Absent => raise FileNotFoundError
  | Unreadable why => raise (OtherError why)
  | Pickled items => unpickle items
  end.

(** [state_holder[key]] *)
Definition getitem (d : gmap string loc) (key : string) : Script loc :=
  match d !! key with
  | Some l => mret l
  | None => raise (KeyError key)
  end.

(** [str(e)] *)
Definition exn_str (e : exn) : string :=
  match e with
  | FileNotFoundError => "[Errno 2] No such file or directory"
  | KeyError k => ("'" ++ k ++ "'")%string
  | TypeError w => w
  | ValueError w => w
  | OtherError w => w
  end.

Definition setup_instruction : Text :=
  [Lit "Required files are not found. Please run the training notebook first."].

(** mainpage.py 46-51, comparison.py 53-58: the two handlers. *)
Definition load_failed {A} (e : exn) : Script A :=
  match e with
  | FileNotFoundError => emit (st_error setup_instruction);; st_stop
  | _ => emit (st_error [Lit "Errors encountered while starting project: "; Lit (exn_str e)]);; st_stop
  end.

(** ** The main page (mainpage.py) *)

(** mainpage.py 36-51 *)
Definition mainpage_load (art : Artifact) : Script (loc * loc * loc * loc) :=
  try_except
    (state_holder ← load_state art;
     monthly_sales ← getitem state_holder "monthly_sales";
     forecast_all ← getitem state_holder "forecast";
     category_forecast ← getitem state_holder "category_forecast_df";
     errors ← getitem state_holder "errors";
     mret (monthly_sales, forecast_all, category_forecast, errors))
    load_failed.

Definition page_title : string := "Sales Forecast Dashboard".

(** [series == value] for a session value. *)
Definition cell_eq_sval (v : SVal) (c : Cell) : bool :=
  match v with
  | SStr s => cell_eq_str s c
  | _ => false
  end.

Definition sval_is (v : SVal) (s : string) : bool :=
  match v with
  | SStr s' => String.eqb s' s
  | _ => false
  end.

(** mainpage.py 74-83: the table to forecast from, a new object either way,
    and the actuals when all categories are shown. *)
Definition choose_forecast (monthly_sales forecast_all category_forecast : loc)
  : Script (loc * option loc) :=
  selected_category ← session_get "selected_category";
  if sval_is selected_category all_categories then
    forecast ← obj_copy forecast_all;
    actuals ← new_from monthly_sales
      (fun df => Ok (df_rename [("Order Date", "ds"); ("Sales", "actual")] df));
    mret (forecast, Some actuals)
  else
    mask ← obj_getcol category_forecast "Category";
    filtered ← new_from category_forecast
      (fun df => Ok (df_filter (map (cell_eq_sval selected_category) mask) df));
    forecast ← obj_copy filtered;
    mret (forecast, None).

(** [scenario_map[st.session_state.selected_scenario]] *)
Definition scenario_rate (selected : SVal) : result float :=
  match selected with
  | SStr name =>
      match assoc name scenario_map with
      | Some rate => Ok rate
      | None => Err (KeyError name)
      end
  | _ => Err (KeyError "None")
  end.

(** One line of mainpage.py 101-103:
    [forecast[new] = forecast[old] * (1 + growth_adjustment)]. *)
Definition assign_scaled (forecast : loc) (new old : string) (growth_adjustment : float)
  : Script unit :=
  col ← obj_getcol forecast old;
  col' ← lift (col_mul (1 + growth_adjustment)%float col);
  obj_setcol forecast new col'.

(** [f"{value:spec}"] of what [.loc] returned. *)
Definition format_scalar (spec : string) (v : LocResult) : result Piece :=
  match v with
  | Scalar (CFloat v) => Ok (Num spec v)
  | Scalar _ => Err (ValueError "Unknown format code")
  | SubSeries _ => Err (TypeError "unsupported format string passed to Series.__format__")
  end.

(** [s.replace(' ', '_')] *)
Fixpoint replace_spaces (s : string) : string :=
  match s with
  | EmptyString => EmptyString
  | String c r =>
      String (if Ascii.eqb c " "%char then "_"%char else c) (replace_spaces r)
  end.

(** The message of mainpage.py 200-207. *)
Definition business_insight (growth_adjustment : float) : Widget :=
  if (0.15 <=? growth_adjustment)%float then
    st_success [Lit "Aggressive growth scenario selected. Plan for higher inventory and operational capacity."]
  else if (0 <? growth_adjustment)%float then
    st_info "Moderate growth expected. Gradual scaling recommended."
  else if (growth_adjustment <? 0)%float then
    st_warning "Conservative scenario selected. Focus on cost control and promotions."
  else
    st_info "Baseline scenario selected. Maintain current strategy.".

(** mainpage.py 53-71: page configuration and category selection. *)
Definition select_category (category_forecast : loc) : Script unit :=
  emit (st_set_page_config page_title);;
  emit (st_sidebar_header page_title);;
  emit (st_title page_title);;
  emit (st_subheader "Category Selection");;
  cf ← deref category_forecast;
  options ← lift (categories cf);
  selectbox "Select product category" options 0 "selected_category".

(** mainpage.py 85-103: the what-if scenario and the growth adjustment of
    [forecast]; the rate is returned. *)
Definition adjust_forecast (forecast : loc) : Script float :=
  emit (st_subheader "What-If Growth Scenario");;
  selectbox "Select expected growth scenario" (map fst scenario_map) 1 "selected_scenario";;
  selected_scenario ← session_get "selected_scenario";
  growth_adjustment ← lift (scenario_rate selected_scenario);
  assign_scaled forecast "yhat_adj" "yhat" growth_adjustment;;
  assign_scaled forecast "yhat_lower_adj" "yhat_lower" growth_adjustment;;
  assign_scaled forecast "yhat_upper_adj" "yhat_upper" growth_adjustment;;
  mret growth_adjustment.

(** mainpage.py 105-116: the KPI summary; the six-month tail is returned. *)
Definition kpi_summary (forecast errors : loc) (growth_adjustment : float) : Script loc :=
  future_6m ← new_from forecast (fun df => Ok (tailWindow 6 df));
  tail ← deref future_6m;
  forecast_6m_total ← lift (summarize tail);
  errors_table ← deref errors;
  '(best_model, best_mae) ← lift (bestModel errors_table);
  emit (st_columns 4);;
  selected_category ← session_get "selected_category";
  emit (st_metric "Category" [Val selected_category]);;
  emit (st_metric "Next 6 Months Forecast" [Num ",.0f" forecast_6m_total]);;
  emit (st_metric "Growth Assumption" [Num ".0f" (growth_adjustment * 100)%float; Lit "%"]);;
  mae ← lift (format_scalar ".2f" best_mae);
  emit (st_metric "Model Used" [Label best_model; Lit " (MAE "; mae; Lit ")"]);;
  emit st_divider;;
  mret future_6m.

(** mainpage.py 118-179: the scenario plot and its download button. *)
Definition forecast_plot (forecast : loc) (actuals : option loc) : Script unit :=
  emit (st_subheader "Scenario-Based Forecast");;
  fig ← match actuals with
        | Some actuals =>
            x ← obj_getcol actuals "ds";
            y ← obj_getcol actuals "actual";
            mret [mkTrace x y (Some [Lit "Actual Sales"])]
        | None => mret []
        end;
  ds ← obj_getcol forecast "ds";
  yhat_adj ← obj_getcol forecast "yhat_adj";
  selected_scenario ← session_get "selected_scenario";
  let fig := fig ++ [mkTrace ds yhat_adj
                       (Some [Lit "Forecast ("; Val selected_scenario; Lit ")"])] in
  ds ← obj_getcol forecast "ds";
  yhat_lower_adj ← obj_getcol forecast "yhat_lower_adj";
  let fig := fig ++ [mkTrace ds yhat_lower_adj None] in
  ds ← obj_getcol forecast "ds";
  yhat_upper_adj ← obj_getcol forecast "yhat_upper_adj";
  let fig := fig ++ [mkTrace ds yhat_upper_adj (Some [Lit "Confidence Interval"])] in
  emit (st_plotly_chart fig);;
  download_button_graph fig [Lit "scenerio_based_forecast"] "scenerio";;
  pressed ← session_get "scenerio";
  if truthy pressed then emit (st_toast "Download Started") else mret tt.

(** mainpage.py 181-196: the table of the next six months. *)
Definition forecast_table (future_6m : loc) : Script unit :=
  emit (st_subheader "Forecast Table (Next 6 Months)");;
  selection ← new_from future_6m
    (df_select ["ds"; "yhat_adj"; "yhat_lower_adj"; "yhat_upper_adj"]);
  table ← obj_copy selection;
  t ← deref table;
  t ← lift (set_column_names ["Month"; "Forecast"; "Lower Bound"; "Upper Bound"] t);
  store table t;;
  emit (st_dataframe t);;
  selected_category ← session_get "selected_category";
  name ← match selected_category with
         | SStr c => mret (replace_spaces c)
         | _ => raise (OtherError "object has no attribute 'replace'")
         end;
  download_button_dataframe t "Forecast" [Lit "forecast_"; Lit name] "forecast";;
  pressed ← session_get "forecast";
  if truthy pressed then emit (st_toast "Download Started") else mret tt.

(** mainpage.py 198-207 *)
Definition business_insights (growth_adjustment : float) : Script unit :=
  emit (st_subheader "Business Insight");;
  emit (business_insight growth_adjustment).

(** mainpage.py 53-207, in the order of the script. *)
Definition mainpage_body (monthly_sales forecast_all category_forecast errors : loc)
  : Script unit :=
  select_category category_forecast;;
  '(forecast, actuals) ← choose_forecast monthly_sales forecast_all category_forecast;
  growth_adjustment ← adjust_forecast forecast;
  future_6m ← kpi_summary forecast errors growth_adjustment;
  forecast_plot forecast actuals;;
  forecast_table future_6m;;
  business_insights growth_adjustment.

Definition mainpage (art : Artifact) : Script unit :=
  '(monthly_sales, forecast_all, category_forecast, errors) ← mainpage_load art;
  mainpage_body monthly_sales forecast_all category_forecast errors.

(** ** The model comparison page, its load block and KPI header
    (comparison.py 36-97; the tabs of charts below it are not embedded) *)

(** [series.mean()]: pandas puts zero for every NaN, has numpy add the
    values up and divides by the count of the values that are not NaN. numpy
    adds an array pairwise: eight running sums over the blocks of eight,
    joined two by two, and what is left over added one by one (fewer than
    eight values are simply added from left to right); an array of more than
    128 values is cut in two at a multiple of eight and the two sums are
    added. The reduction adds that to its own initial zero. *)
Fixpoint sum_unrolled (r0 r1 r2 r3 r4 r5 r6 r7 : float) (a : list float) : float :=
  match a with
  | a0 :: a1 :: a2 :: a3 :: a4 :: a5 :: a6 :: a7 :: rest =>
      sum_unrolled (r0 + a0) (r1 + a1) (r2 + a2) (r3 + a3)
                   (r4 + a4) (r5 + a5) (r6 + a6) (r7 + a7) rest
  | rest =>
      fold_left (fun acc v => (acc + v)%float) rest
        (((r0 + r1) + (r2 + r3)) + ((r4 + r5) + (r6 + r7)))%float
  end.

Definition sum_block (a : list float) : float :=
  match a with
  | a0 :: a1 :: a2 :: a3 :: a4 :: a5 :: a6 :: a7 :: rest =>
      sum_unrolled a0 a1 a2 a3 a4 a5 a6 a7 rest
  | _ => fold_left (fun acc v => (acc + v)%float) a (-0)%float
  end.

(** The halving goes on while more than 128 values are left; [fuel] bounds
    its depth, and the length of the array is always enough. *)
Fixpoint pairwise_sum (fuel : nat) (a : list float) : float :=
  match fuel with
  | O => sum_block a
  | S fuel' =>
      if (128 <? length a)%nat then
        let n2 := (length a / 2 - (length a / 2) mod 8)%nat in
        (pairwise_sum fuel' (take n2 a) + pairwise_sum fuel' (drop n2 a))%float
      else sum_block a
  end.

Definition np_sum (vs : list float) : float :=
  (0 + pairwise_sum (length vs) vs)%float.

Definition fmean (vs : list float) : float :=
  let count := length (filter (fun v => PrimFloat.is_nan v = false) vs) in
  (np_sum (map nan_to_zero vs) / PrimFloat.of_uint63 (Uint63.of_Z (Z.of_nat count)))%float.

Definition col_mean (col : Column) : result float :=
  vs ← col_floats col; Ok (fmean vs).

(** comparison.py 37-58 *)
Definition comparison_load (art : Artifact) : Script (loc * loc * float * float) :=
  try_except
    (state_holder ← load_state art;
     baseline_test ← getitem state_holder "baseline_forecasts";
     errors_table ← getitem state_holder "errors";
     forecast ← getitem state_holder "forecast";
     future_forecast ← new_from forecast (fun df => Ok (df_tail 6 df));
     yhat ← obj_getcol future_forecast "yhat";
     forecast_6m ← lift (col_sum yhat);
     monthly_sales ← getitem state_holder "monthly_sales";
     sales ← obj_getcol monthly_sales "Sales";
     avg_sales ← lift (col_mean sales);
     errors ← deref errors_table;
     prophet_mae ← lift (df_loc errors (CStr "Prophet") "MAE");
     prophet_mape ← lift (df_loc errors (CStr "Prophet") "MAPE");
     mret (baseline_test, errors_table, forecast_6m, avg_sales))
    load_failed.

(** comparison.py 60-97 *)
Definition comparison_header (errors_table : loc) (forecast_6m avg_sales : float)
  : Script unit :=
  errors ← deref errors_table;
  '(best_model, best_mae) ← lift (bestModel errors);
  best_mape ← lift (df_loc errors best_model "MAPE");
  emit (st_set_page_config "Model Comparison");;
  emit (st_sidebar_header "Model Comparison");;
  emit (st_title "Model Comparison");;
  emit (st_columns 4);;
  emit (st_metric "Average Monthly Sales" [Num ".0f" avg_sales]);;
  emit (st_metric "Forecast (Next 6 Months)" [Num ".0f" forecast_6m]);;
  mae ← lift (format_scalar ".2f" best_mae);
  emit (st_metric "Best MAE" [mae]);;
  mape ← lift (format_scalar ".2%" best_mape);
  emit (st_metric "Best MAPE" [mape]);;
  emit (st_expander "Errors Summary");;
  emit (st_dataframe errors);;
  download_button_dataframe errors "Errors Table" [Lit "errors"] "error_df";;
  pressed ← session_get "error_df";
  (if truthy pressed then emit (st_toast "Download Started") else mret tt);;
  emit (st_success [Lit "Selected Model: "; Label best_model]).

(** comparison.py 37-97: the page down to the line before its tabs. *)
Definition comparison (art : Artifact) : Script unit :=
  '(baseline_test, errors_table, forecast_6m, avg_sales) ← comparison_load art;
  comparison_header errors_table forecast_6m avg_sales.

(** A run of a page starts from the session the browser sends, with no
    object made and nothing on the screen. *)
Definition fresh_run (sess : gmap string SVal) : State :=
  {| heap := ∅; session := sess; screen := [] |}.

(** ** binary64 rounding, in integers

    The standard library specifies the product of two floats as
    [SpecFloat.SFmul]: the exact product of the mantissas, shifted right onto
    the grid of representable numbers and rounded to nearest, ties to even.
    The definitions below name the pieces of that computation. *)

(** [m / 2^k] rounded to nearest, ties to even. *)
Definition rne (m k : Z) : Z :=
  let q := m / 2 ^ k in
  match 2 * (m mod 2 ^ k) ?= 2 ^ k with
  | Lt => q
  | Eq => if Z.even q then q else q + 1
  | Gt => q + 1
  end.

Definition two52 : Z := 4503599627370496.
Definition two53 : Z := 9007199254740992.

(** The position of [q * 2^E] among the binary64 numbers, counted from zero:
    consecutive numbers have consecutive positions. *)
Definition rankqe (q E : Z) : Z := (E + 1074) * two52 + q.
Definition rank_inf : Z := 2047 * two52.
Definition sgn (s : bool) : Z := if s then -1 else 1.

Definition rank (x : spec_float) : Z :=
  match x with
  | S754_zero _ => 0
  | S754_nan => 0
  | S754_infinity s => sgn s * rank_inf
  | S754_finite s m e => sgn s * rankqe (Z.pos m) e
  end.

Definition frank (x : float) : Z := rank (Prim2SF x).

(** The second half of [binary_round_aux]: the rounded mantissa is
    renormalised and the exponent checked for overflow. *)
Definition finish (s : bool) (q E : Z) : spec_float :=
  let '(mrs, e) := shr_fexp prec emax q E loc_Exact in
  match shr_m mrs with
  | 0 => S754_zero s
  | Z.pos m => if e <=? emax - prec then S754_finite s m e else S754_infinity s
  | Z.neg _ => S754_nan
  end.

(** Where the product of [m * 2^e] with the constant [mc * 2^ec] lands. *)
Definition product_rank (mc : positive) (ec : Z) (m : positive) (e : Z) : Z :=
  let E := Z.max (Z.pos (digits2_pos (m * mc)) + (e + ec) - 53) (-1074) in
  Z.min (rankqe (rne (Z.pos (m * mc)) (E - (e + ec))) E) rank_inf.

(** A positive finite number: what [1 + rate] is for every scenario. *)
Definition positive_finite (c : float) : Prop :=
  exists m e, Prim2SF c = S754_finite false m e.

(** [a <= b] and [a < b] on floats, as Python's comparisons decide them. *)
Definition fle (a b : float) : Prop := (a <=? b)%float = true.
Definition flt (a b : float) : Prop := (a <? b)%float = true.

(** The invariant of a forecast point. *)
Definition bounds_ordered (p : ForecastPoint) : Prop :=
  fle (lowerBound p) (pointEstimate p) /\ fle (pointEstimate p) (upperBound p).

(** [p] scaled by [1 + rate], timestamp kept. *)
Definition scale_point (rate : float) (p : ForecastPoint) : ForecastPoint :=
  {| timestamp := timestamp p;
     pointEstimate := (pointEstimate p * (1 + rate))%float;
     lowerBound := (lowerBound p * (1 + rate))%float;
     upperBound := (upperBound p * (1 + rate))%float |}.

(** ** Sample tables

    The tables of the specification's examples: a twelve-month aggregate
    forecast whose last six point estimates are 100, a per-category forecast
    with no Furniture rows, and the error table A: 5.0, B: 3.0, C: 3.0. *)

Definition floats (vs : list float) : Column := map CFloat vs.
Definition months (first : Z) (n : nat) : Column := map CTime (seqZ first (Z.of_nat n)).

Definition sample_forecast : DataFrame :=
  {| index := months 0 12;
     columns :=
       [ ("ds", months 24 12);
         ("yhat", floats (repeat 80%float 6 ++ repeat 100%float 6));
         ("yhat_lower", floats (repeat 70%float 6 ++ repeat 90%float 6));
         ("yhat_upper", floats (repeat 95%float 6 ++ repeat 115%float 6)) ] |}.

(** Its series: months 24 to 35. *)
Definition sample_points : list ForecastPoint :=
  map (fun t => mkPoint (CTime t) 80 70 95) (seqZ 24 6) ++
  map (fun t => mkPoint (CTime t) 100 90 115) (seqZ 30 6).

Definition sample_category_forecast : DataFrame :=
  {| index := months 0 4;
     columns :=
       [ ("ds", [CTime 24; CTime 24; CTime 25; CTime 25]);
         ("Category", [CStr "Technology"; CStr "Office Supplies";
                       CStr "Technology"; CStr "Office Supplies"]);
         ("yhat", floats [40; 30; 44; 33]%float);
         ("yhat_lower", floats [35; 25; 39; 28]%float);
         ("yhat_upper", floats [45; 35; 49; 38]%float) ] |}.

Definition sample_errors : DataFrame :=
  {| index := [CStr "A"; CStr "B"; CStr "C"];
     columns :=
       [ ("MAE", floats [5; 3; 3]%float);
         ("MSE", floats [30; 12; 14]%float);
         ("MAPE", floats [0.5; 0.25; 0.25]%float);
         ("RMSE", floats [5.5; 3.5; 3.75]%float) ] |}.

Definition sample_monthly_sales : DataFrame :=
  {| index := months 0 3;
     columns :=
       [ ("Order Date", months 21 3);
         ("Sales", floats [75; 82; 78]%float) ] |}.

Definition sample_artifact : Artifact :=
  Pickled [ ("monthly_sales", sample_monthly_sales);
            ("forecast", sample_forecast);
            ("category_forecast_df", sample_category_forecast);
            ("errors", sample_errors) ].

(** A forecast with a single month, and the artifact that has it. *)
Definition short_forecast : DataFrame :=
  {| index := months 0 1;
     columns :=
       [ ("ds", months 24 1);
         ("yhat", floats [100]%float);
         ("yhat_lower", floats [90]%float);
         ("yhat_upper", floats [110]%float) ] |}.

Definition short_artifact : Artifact :=
  Pickled [ ("monthly_sales", sample_monthly_sales);
            ("forecast", short_forecast);
            ("category_forecast_df", sample_category_forecast);
            ("errors", sample_errors) ].

Definition is_warning (w : Widget) : bool :=
  match w with
  | st_warning _ => true
  | _ => false
  end.


(** ** Objects that a computation leaves alone

    [keeps h0 m post]: run from a heap that holds the objects of [h0] as
    they are, [m] ends (however it ends) in a heap that still holds them as
    they are, and a value it returns satisfies [post]. *)
Definition keeps {A} (h0 : gmap loc DataFrame) (m : Script A) (post : A -> Prop) : Prop :=
  forall s, h0 ⊆ heap s ->
    h0 ⊆ heap (final_state (m s)) /\
    (forall a s', m s = Returned a s' -> post a).

(** [m] leaves the heap as it is. *)
Definition heap_neutral {A} (m : Script A) : Prop :=
  forall s, heap (final_state (m s)) = heap s.

(** [m] only adds to the screen: what was shown stays, in its place. *)
Definition appends {A} (m : Script A) : Prop :=
  forall s, screen s `prefix_of` screen (final_state (m s)).

(** ** Sample tables of the comparison page

    An error table with a row for each of the four models, the baseline
    forecasts of the test period, and the pickled dictionary that holds them
    beside the tables of the main page. *)

Definition sample_model_errors : DataFrame :=
  {| index := [CStr "Naive"; CStr "Moving Average"; CStr "Seasonal Naive"; CStr "Prophet"];
     columns :=
       [ ("MAE", floats [5; 4; 3; 3.5]%float);
         ("MSE", floats [30; 20; 12; 14]%float);
         ("MAPE", floats [0.5; 0.25; 0.375; 0.25]%float);
         ("RMSE", floats [5.5; 4.5; 3.5; 3.75]%float) ] |}.

Definition sample_baseline_forecasts : DataFrame :=
  {| index := months 0 2;
     columns :=
       [ ("Order Date", months 22 2);
         ("Sales", floats [82; 78]%float);
         ("naive_forecast", floats [75; 75]%float);
         ("ma_forecast", floats [77; 77]%float);
         ("seasonal_naive_forecast", floats [80; 79]%float) ] |}.

Definition sample_state : list (string * DataFrame) :=
  [ ("monthly_sales", sample_monthly_sales);
    ("forecast", sample_forecast);
    ("category_forecast_df", sample_category_forecast);
    ("errors", sample_model_errors);
    ("baseline_forecasts", sample_baseline_forecasts) ].



(** * Lemmas *)

(** ** Rounding to nearest even, and the shift loop of [SpecFloat] *)

(** [SpecFloat]'s binary iteration is iteration [Pos.to_nat p] times. *)
Lemma iter_pos_nat {A} (f : A -> A) (p : positive) (x : A) :
  SpecFloat.iter_pos f p x = Nat.iter (Pos.to_nat p) f x.
Proof.
  revert x. induction p as [p IH | p IH |]; intros x; cbn [SpecFloat.iter_pos].
  - rewrite !IH, Pos2Nat.inj_xI.
    replace (S (2 * Pos.to_nat p))%nat with (S (Pos.to_nat p + Pos.to_nat p))%nat by lia.
    rewrite Nat.iter_succ, Nat.iter_add, <- !Nat.iter_swap. reflexivity.
  - rewrite !IH, Pos2Nat.inj_xO.
    replace (2 * Pos.to_nat p)%nat with (Pos.to_nat p + Pos.to_nat p)%nat by lia.
    rewrite Nat.iter_add. reflexivity.
  - reflexivity.
Qed.

(** One right shift: the mantissa is halved, the bit shifted out becomes the
    round bit, and the sticky bit remembers every bit shifted out before. *)
Lemma shr_1_nonneg m r s :
  0 <= m ->
  shr_1 (Build_shr_record m r s) = Build_shr_record (m / 2) (Z.odd m) (r || s).
Proof.
  intros Hm. destruct m as [| p | p]; try lia.
  - reflexivity.
  - destruct p as [p | p |]; simpl shr_1; f_equal.
    + rewrite Pos2Z.inj_xI.
      apply (Z.div_unique_pos _ 2 _ 1); lia.
    + rewrite Pos2Z.inj_xO.
      apply (Z.div_unique_pos _ 2 _ 0); lia.
Qed.

Lemma mod_pow2_succ m n :
  0 <= n ->
  m mod 2 ^ (n + 1) = Z.b2z (Z.testbit m n) * 2 ^ n + m mod 2 ^ n.
Proof.
  intros Hn.
  rewrite Z.testbit_spec' by lia.
  rewrite Z.pow_add_r by lia. change (2 ^ 1) with 2.
  rewrite Z.rem_mul_r by lia. lia.
Qed.

(** After [n + 1] shifts of an exact mantissa. *)
Lemma shr_iter m (n : nat) :
  0 <= m ->
  Nat.iter (S n) shr_1 (Build_shr_record m false false) =
  Build_shr_record (m / 2 ^ Z.of_nat (S n)) (Z.testbit m (Z.of_nat n))
                   (negb (m mod 2 ^ Z.of_nat n =? 0)).
Proof.
  intros Hm. induction n as [| n IH].
  - cbv [Nat.iter nat_rect]. rewrite shr_1_nonneg by lia.
    change (2 ^ Z.of_nat 1) with 2. change (2 ^ Z.of_nat 0) with 1.
    rewrite Z.mod_1_r. now rewrite Z.bit0_odd.
  - rewrite Nat.iter_succ, IH.
    assert (H2 : 0 < 2 ^ Z.of_nat (S n)) by (apply Z.pow_pos_nonneg; lia).
    rewrite shr_1_nonneg by (apply Z.div_pos; lia).
    f_equal.
    + rewrite Z.div_div by lia.
      rewrite (Nat2Z.inj_succ (S n)), Z.pow_succ_r by lia. f_equal. lia.
    + rewrite Z.testbit_odd, Z.shiftr_div_pow2 by lia. reflexivity.
    + rewrite (Nat2Z.inj_succ n). unfold Z.succ.
      rewrite mod_pow2_succ by lia.
      assert (Hr := Z.mod_pos_bound m (2 ^ Z.of_nat n) ltac:(apply Z.pow_pos_nonneg; lia)).
      destruct (Z.testbit m (Z.of_nat n)); simpl Z.b2z; simpl orb.
      * symmetry. apply negb_true_iff, Z.eqb_neq.
        assert (0 < 2 ^ Z.of_nat n) by (apply Z.pow_pos_nonneg; lia). lia.
      * rewrite Z.mul_0_l, Z.add_0_l. reflexivity.
Qed.

(** Shifting by [k] and rounding on the round and sticky bits is [rne]. *)
Lemma shr_rne m k sh e e' :
  0 <= m -> 0 <= k ->
  shr (Build_shr_record m false false) e k = (sh, e') ->
  round_nearest_even (shr_m sh) (loc_of_shr_record sh) = rne m k /\ e' = e + k.
Proof.
  intros Hm Hk Hs. unfold shr in Hs. destruct k as [| p | p]; try lia.
  - injection Hs as <- <-. simpl. unfold rne.
    change (2 ^ 0) with 1. rewrite Z.mod_1_r, Z.div_1_r. simpl. split; [reflexivity | lia].
  - injection Hs as <- <-. split; [| reflexivity].
    rewrite iter_pos_nat.
    destruct (Pos2Nat.is_succ p) as [n Hn]. rewrite Hn.
    rewrite shr_iter by lia.
    assert (Hp : Z.pos p = Z.of_nat n + 1) by lia.
    unfold rne. rewrite Hp.
    replace (Z.of_nat (S n)) with (Z.of_nat n + 1) by lia.
    rewrite mod_pow2_succ by lia.
    assert (H2 : 0 < 2 ^ Z.of_nat n) by (apply Z.pow_pos_nonneg; lia).
    assert (Hr := Z.mod_pos_bound m (2 ^ Z.of_nat n) H2).
    rewrite Z.pow_add_r by lia. change (2 ^ 1) with 2.
    destruct (Z.testbit m (Z.of_nat n));
      destruct (Z.eqb_spec (m mod 2 ^ Z.of_nat n) 0) as [E0 | E0];
      cbn [Z.b2z negb shr_m shr_r shr_s loc_of_shr_record round_nearest_even];
      match goal with |- context [?a ?= ?b] => destruct (Z.compare_spec a b) end;
      try lia; reflexivity.
Qed.

(** [digits2_pos m] is the number of binary digits of [m]. *)
Lemma digits2_pos_bounds (m : positive) :
  2 ^ (Z.pos (digits2_pos m) - 1) <= Z.pos m < 2 ^ Z.pos (digits2_pos m).
Proof.
  induction m as [m IH | m IH |]; cbn [digits2_pos].
  - rewrite Pos2Z.inj_succ, (Pos2Z.inj_xI m).
    replace (Z.succ (Z.pos (digits2_pos m)) - 1) with (Z.succ (Z.pos (digits2_pos m) - 1)) by lia.
    rewrite !Z.pow_succ_r by lia.
    generalize dependent (2 ^ (Z.pos (digits2_pos m) - 1)). generalize (2 ^ Z.pos (digits2_pos m)). lia.
  - rewrite Pos2Z.inj_succ, (Pos2Z.inj_xO m).
    replace (Z.succ (Z.pos (digits2_pos m)) - 1) with (Z.succ (Z.pos (digits2_pos m) - 1)) by lia.
    rewrite !Z.pow_succ_r by lia.
    generalize dependent (2 ^ (Z.pos (digits2_pos m) - 1)). generalize (2 ^ Z.pos (digits2_pos m)). lia.
  - cbn. lia.
Qed.

Lemma pow2_pos k : 0 <= k -> 0 < 2 ^ k.
Proof. intros. apply Z.pow_pos_nonneg; lia. Qed.

Lemma rne_bounds m k :
  0 <= k -> m / 2 ^ k <= rne m k <= m / 2 ^ k + 1.
Proof.
  intros Hk. unfold rne.
  destruct (2 * (m mod 2 ^ k) ?= 2 ^ k); [destruct (Z.even _) | |]; lia.
Qed.

(** Rounding to nearest even is monotone. *)
Lemma rne_mono m1 m2 k :
  0 <= k -> m1 <= m2 -> rne m1 k <= rne m2 k.
Proof.
  intros Hk Hm.
  assert (H2 := pow2_pos k Hk).
  assert (Hq : m1 / 2 ^ k <= m2 / 2 ^ k) by (apply Z.div_le_mono; lia).
  destruct (Z.eq_dec (m1 / 2 ^ k) (m2 / 2 ^ k)) as [Heq | Hne].
  - assert (Hr : m1 mod 2 ^ k <= m2 mod 2 ^ k).
    { rewrite !Z.mod_eq by lia. rewrite Heq. lia. }
    unfold rne. rewrite Heq.
    destruct (Z.compare_spec (2 * (m1 mod 2 ^ k)) (2 ^ k));
      destruct (Z.compare_spec (2 * (m2 mod 2 ^ k)) (2 ^ k));
      try lia; destruct (Z.even (m2 / 2 ^ k)); lia.
  - assert (H1 := rne_bounds m1 k Hk). assert (H3 := rne_bounds m2 k Hk). lia.
Qed.

(** Appending [j] zero bits and shifting [j] further rounds the same. *)
Lemma rne_scale m k j :
  0 <= k -> 0 <= j -> rne (m * 2 ^ j) (k + j) = rne m k.
Proof.
  intros Hk Hj. unfold rne.
  assert (H2 := pow2_pos k Hk). assert (H3 := pow2_pos j Hj).
  rewrite Z.pow_add_r by lia.
  rewrite Z.div_mul_cancel_r by lia.
  rewrite Z.mul_mod_distr_r by lia.
  replace (2 * (m mod 2 ^ k * 2 ^ j) ?= 2 ^ k * 2 ^ j)
    with (2 * (m mod 2 ^ k) ?= 2 ^ k); [reflexivity |].
  destruct (Z.compare_spec (2 * (m mod 2 ^ k)) (2 ^ k)); symmetry.
  - apply Z.compare_eq_iff. nia.
  - apply Z.compare_lt_iff. nia.
  - apply Z.compare_gt_iff. nia.
Qed.

Lemma rne_upper m k d :
  0 <= k -> k <= d -> 0 <= m < 2 ^ d -> rne m k <= 2 ^ (d - k).
Proof.
  intros Hk Hd Hm.
  assert (H2 := pow2_pos k Hk).
  assert (m / 2 ^ k < 2 ^ (d - k)).
  { apply Z.div_lt_upper_bound; [lia |].
    rewrite <- Z.pow_add_r by lia. replace (k + (d - k)) with d by lia. lia. }
  pose proof (rne_bounds m k Hk). lia.
Qed.

Lemma rne_lower m k d :
  0 <= k -> k <= d -> 2 ^ d <= m -> 2 ^ (d - k) <= rne m k.
Proof.
  intros Hk Hd Hm.
  assert (H2 := pow2_pos k Hk).
  assert (2 ^ (d - k) <= m / 2 ^ k).
  { apply Z.div_le_lower_bound; [lia |].
    rewrite <- Z.pow_add_r by lia. replace (k + (d - k)) with d by lia. lia. }
  pose proof (rne_bounds m k Hk). lia.
Qed.

Lemma two52_eq : 2 ^ 52 = two52. Proof. reflexivity. Qed.
Lemma two53_eq : 2 ^ 53 = two53. Proof. reflexivity. Qed.

Lemma fexp64 x : fexp prec emax x = Z.max (x - 53) (-1074).
Proof. reflexivity. Qed.

(** A binary64 mantissa and exponent: below 2^53, and at least 2^52 above
    the subnormal range. *)
Lemma bounded_inv m e :
  bounded prec emax m e = true ->
  Z.pos m < two53 /\ -1074 <= e <= 971 /\ (-1074 < e -> two52 <= Z.pos m).
Proof.
  unfold bounded, canonical_mantissa. rewrite fexp64.
  intros H. apply andb_true_iff in H as [H1 H2].
  apply Z.eqb_eq in H1. apply Z.leb_le in H2.
  change (emax - prec) with 971 in H2.
  pose proof (digits2_pos_bounds m) as Hd.
  set (d := Z.pos (digits2_pos m)) in *.
  assert (Hd53 : d <= 53) by lia.
  split; [| split; [lia |]].
  - rewrite <- two53_eq.
    apply Z.lt_le_trans with (2 ^ d); [lia |].
    apply Z.pow_le_mono_r; lia.
  - intros He. assert (d = 53) by lia. subst d.
    rewrite <- two52_eq. replace 52 with (Z.pos (digits2_pos m) - 1) by lia. lia.
Qed.

Lemma pos_compare_cont_Eq m1 m2 :
  Pos.compare_cont Eq m1 m2 = (Z.pos m1 ?= Z.pos m2).
Proof. reflexivity. Qed.

(** On binary64 numbers, [SFcompare] compares grid positions. *)
Lemma SFcompare_rank x y :
  valid_binary x = true -> valid_binary y = true ->
  x <> S754_nan -> y <> S754_nan ->
  SFcompare x y = Some (rank x ?= rank y).
Proof.
  intros Vx Vy Nx Ny.
  assert (Hc : forall a b c, (a ?= b) = c <-> c = (a ?= b)) by (intros; split; auto).
  destruct x as [sx | sx | | sx mx ex], y as [sy | sy | | sy my ey];
    try congruence; cbn [SFcompare rank valid_binary] in *;
    try (apply bounded_inv in Vx); try (apply bounded_inv in Vy);
    f_equal; unfold rankqe, rank_inf, two52, two53, sgn in *;
    try (destruct sx); try (destruct sy);
    try rewrite pos_compare_cont_Eq;
    repeat match goal with
    | |- context [?a ?= ?b] => destruct (Z.compare_spec a b)
    end; cbn [CompOpp]; try reflexivity; try lia.
Qed.

Lemma shr_nonpos r e n : n <= 0 -> shr r e n = (r, e).
Proof. destruct n; [reflexivity | lia | reflexivity]. Qed.

Lemma digits_le_53 p : Z.pos p < two53 -> Z.pos (digits2_pos p) <= 53.
Proof.
  intros Hp. pose proof (digits2_pos_bounds p) as Hd.
  rewrite <- two53_eq in Hp.
  assert (H : 2 ^ (Z.pos (digits2_pos p) - 1) < 2 ^ 53) by lia.
  apply Z.pow_lt_mono_r_iff in H; lia.
Qed.

(** What rounding keeps of m * 2^e: a mantissa between 0 and 2^53 on the
    grid 2^E, at least 2^52 above the subnormal range. *)
Lemma rne_precanonical m e :
  let E := Z.max (Z.pos (digits2_pos m) + e - 53) (-1074) in
  e <= E ->
  0 <= rne (Z.pos m) (E - e) <= two53 /\
  (-1074 < E -> two52 <= rne (Z.pos m) (E - e)).
Proof.
  intros E HE.
  pose proof (digits2_pos_bounds m) as Hd.
  set (d := Z.pos (digits2_pos m)) in *.
  assert (Hk : 0 <= E - e) by lia.
  pose proof (rne_bounds (Z.pos m) (E - e) Hk) as Hb.
  assert (H0 : 0 <= Z.pos m / 2 ^ (E - e)) by (apply Z.div_pos; [lia | now apply pow2_pos]).
  split; [split; [lia |] |].
  - destruct (Z_le_gt_dec (E - e) d) as [Hle | Hgt].
    + rewrite <- two53_eq.
      apply Z.le_trans with (2 ^ (d - (E - e))).
      * apply rne_upper; lia.
      * apply Z.pow_le_mono_r; lia.
    + assert (Z.pos m / 2 ^ (E - e) = 0).
      { apply Z.div_small. split; [lia |].
        apply Z.lt_le_trans with (2 ^ d); [lia |]. apply Z.pow_le_mono_r; lia. }
      unfold two53. lia.
  - intros HEm. assert (HEd : E = d + e - 53) by lia.
    rewrite <- two52_eq.
    replace 52 with ((d - 1) - (E - e)) by lia.
    apply rne_lower; lia.
Qed.

(** [binary_round_aux] on an exact mantissa that needs no left shift. *)
Lemma round_aux_finish s m e :
  let E := Z.max (Z.pos (digits2_pos m) + e - 53) (-1074) in
  e <= E ->
  binary_round_aux prec emax s (Z.pos m) e loc_Exact =
  finish s (rne (Z.pos m) (E - e)) E.
Proof.
  intros E HE.
  unfold binary_round_aux, finish, shr_fexp at 1.
  cbn [Zdigits2 shr_record_of_loc]. rewrite fexp64. fold E.
  destruct (shr _ e (E - e)) as [sh e'] eqn:Hs.
  apply shr_rne in Hs as [Hr He']; [| lia | lia].
  rewrite Hr. replace e' with E by lia. reflexivity.
Qed.

(** The rounded mantissa keeps its grid position, capped at infinity's. *)
Lemma finish_rank s q E :
  0 <= q <= two53 -> (-1074 < E -> two52 <= q) -> -1074 <= E ->
  finish s q E <> S754_nan /\
  rank (finish s q E) = sgn s * Z.min (rankqe q E) rank_inf.
Proof.
  intros Hq Hn HEmin.
  unfold finish, shr_fexp. cbn [shr_record_of_loc]. rewrite fexp64.
  destruct (Z.eq_dec q two53) as [H53 | H53].
  - rewrite H53. change (Zdigits2 two53) with 54.
    replace (Z.max (54 + E - 53) (-1074) - E) with 1 by lia.
    cbn [shr SpecFloat.iter_pos shr_1 shr_m two53].
    change (emax - prec) with 971.
    unfold rankqe, rank_inf, two52, two53 in *.
    destruct (Z.leb_spec (E + 1) 971); (split; [discriminate |]);
      cbn [rank]; unfold rankqe, rank_inf, two52; destruct s; cbn [sgn]; lia.
  - destruct q as [| p | p] eqn:Eq; [| | lia].
    + cbn [Zdigits2]. rewrite shr_nonpos by lia. cbn [shr_m].
      split; [discriminate |].
      cbn [rank]. unfold rankqe, rank_inf, two52, two53 in *. destruct s; cbn [sgn]; lia.
    + cbn [Zdigits2].
      assert (Hp : Z.pos p < two53) by lia.
      pose proof (digits_le_53 p Hp).
      rewrite shr_nonpos by lia. cbn [shr_m].
      change (emax - prec) with 971.
      unfold rankqe, rank_inf, two52, two53 in *.
      destruct (Z.leb_spec E 971); (split; [discriminate |]);
        cbn [rank]; unfold rankqe, rank_inf, two52; destruct s; cbn [sgn]; lia.
Qed.

Lemma round_aux_rank s m e :
  let E := Z.max (Z.pos (digits2_pos m) + e - 53) (-1074) in
  e <= E ->
  binary_round_aux prec emax s (Z.pos m) e loc_Exact <> S754_nan /\
  rank (binary_round_aux prec emax s (Z.pos m) e loc_Exact) =
    sgn s * Z.min (rankqe (rne (Z.pos m) (E - e)) E) rank_inf.
Proof.
  intros E HE. rewrite round_aux_finish by exact HE. fold E.
  destruct (rne_precanonical m e HE) as [Hq Hn].
  apply finish_rank; [exact Hq | exact Hn | lia].
Qed.

(** Rounding is monotone: a smaller product lands no higher on the grid. *)
Lemma round_mono m1 e1 m2 e2 e0 :
  let E1 := Z.max (Z.pos (digits2_pos m1) + e1 - 53) (-1074) in
  let E2 := Z.max (Z.pos (digits2_pos m2) + e2 - 53) (-1074) in
  e0 <= e1 -> e0 <= e2 -> e1 <= E1 -> e2 <= E2 ->
  Z.pos m1 * 2 ^ (e1 - e0) <= Z.pos m2 * 2 ^ (e2 - e0) ->
  rankqe (rne (Z.pos m1) (E1 - e1)) E1 <= rankqe (rne (Z.pos m2) (E2 - e2)) E2.
Proof.
  intros E1 E2 H01 H02 HE1 HE2 Hv.
  pose proof (digits2_pos_bounds m1) as Hd1.
  pose proof (digits2_pos_bounds m2) as Hd2.
  destruct (rne_precanonical m1 e1 HE1) as [Hq1 Hn1].
  destruct (rne_precanonical m2 e2 HE2) as [Hq2 Hn2].
  fold E1 in Hq1, Hn1. fold E2 in Hq2, Hn2.
  set (d1 := Z.pos (digits2_pos m1)) in *.
  set (d2 := Z.pos (digits2_pos m2)) in *.
  assert (Hd1p : 0 < d1) by (unfold d1; lia).
  assert (Hd2p : 0 < d2) by (unfold d2; lia).
  assert (Hmag : d1 + e1 <= d2 + e2).
  { destruct (Z_le_gt_dec (d1 + e1) (d2 + e2)) as [? | Hgt]; [assumption | exfalso].
    assert (Ha := pow2_pos (e1 - e0) ltac:(lia)).
    assert (Hb := pow2_pos (e2 - e0) ltac:(lia)).
    assert (H1 : 2 ^ (d1 - 1) * 2 ^ (e1 - e0) <= Z.pos m1 * 2 ^ (e1 - e0))
      by (apply Z.mul_le_mono_nonneg_r; lia).
    assert (H2 : Z.pos m2 * 2 ^ (e2 - e0) < 2 ^ d2 * 2 ^ (e2 - e0))
      by (apply Z.mul_lt_mono_pos_r; lia).
    rewrite <- Z.pow_add_r in H1, H2 by lia.
    assert (H3 : 2 ^ (d2 + (e2 - e0)) <= 2 ^ (d1 - 1 + (e1 - e0)))
      by (apply Z.pow_le_mono_r; lia).
    lia. }
  assert (HE : E1 <= E2) by (unfold E1, E2; lia).
  assert (HEmin : -1074 <= E1) by (unfold E1; lia).
  destruct (Z.eq_dec E1 E2) as [Heq | Hne].
  - assert (Hq : rne (Z.pos m1) (E1 - e1) <= rne (Z.pos m2) (E2 - e2)).
    { rewrite <- (rne_scale (Z.pos m1) (E1 - e1) (e1 - e0)) by lia.
      rewrite <- (rne_scale (Z.pos m2) (E2 - e2) (e2 - e0)) by lia.
      replace (E2 - e2 + (e2 - e0)) with (E1 - e1 + (e1 - e0)) by lia.
      apply rne_mono; lia. }
    unfold rankqe. apply Z.add_le_mono; [rewrite Heq; lia | exact Hq].
  - unfold rankqe, two52, two53 in *. lia.
Qed.

Lemma canonical_inv m e :
  bounded prec emax m e = true ->
  -1074 <= e <= 971 /\ (e = -1074 \/ Z.pos (digits2_pos m) = 53).
Proof.
  unfold bounded, canonical_mantissa. rewrite fexp64.
  intros H. apply andb_true_iff in H as [H1 H2].
  apply Z.eqb_eq in H1. apply Z.leb_le in H2.
  change (emax - prec) with 971 in H2. lia.
Qed.

Lemma digits2_pos_mul m1 m2 :
  Z.pos (digits2_pos m1) + Z.pos (digits2_pos m2) - 1 <= Z.pos (digits2_pos (m1 * m2)).
Proof.
  pose proof (digits2_pos_bounds m1) as H1.
  pose proof (digits2_pos_bounds m2) as H2.
  pose proof (digits2_pos_bounds (m1 * m2)) as H3.
  rewrite Pos2Z.inj_mul in H3.
  set (d1 := Z.pos (digits2_pos m1)) in *.
  set (d2 := Z.pos (digits2_pos m2)) in *.
  set (d := Z.pos (digits2_pos (m1 * m2))) in *.
  assert (0 < d1) by (unfold d1; lia). assert (0 < d2) by (unfold d2; lia).
  assert (0 < d) by (unfold d; lia).
  assert (Hp : 2 ^ (d1 - 1 + (d2 - 1)) < 2 ^ d).
  { rewrite Z.pow_add_r by lia.
    apply Z.le_lt_trans with (Z.pos m1 * Z.pos m2); [| lia].
    apply Z.mul_le_mono_nonneg; try lia; apply Z.lt_le_incl, pow2_pos; lia. }
  apply Z.pow_lt_mono_r_iff in Hp; lia.
Qed.

(** The product of two binary64 mantissas is never shifted left by rounding. *)
Lemma mul_exponent_le mx ex mc ec :
  bounded prec emax mx ex = true -> bounded prec emax mc ec = true ->
  ex + ec <= Z.max (Z.pos (digits2_pos (mx * mc)) + (ex + ec) - 53) (-1074).
Proof.
  intros Hx Hc.
  apply canonical_inv in Hx as [Hex Hdx]. apply canonical_inv in Hc as [Hec Hdc].
  pose proof (digits2_pos_mul mx mc).
  assert (0 < Z.pos (digits2_pos mx)) by lia.
  assert (0 < Z.pos (digits2_pos mc)) by lia.
  lia.
Qed.

(** On binary64 values the grid position orders as the value does. *)
Lemma rank_value_le m1 e1 m2 e2 :
  bounded prec emax m1 e1 = true -> bounded prec emax m2 e2 = true ->
  rankqe (Z.pos m1) e1 <= rankqe (Z.pos m2) e2 ->
  Z.pos m1 * 2 ^ (e1 - Z.min e1 e2) <= Z.pos m2 * 2 ^ (e2 - Z.min e1 e2).
Proof.
  intros H1 H2 Hr.
  apply bounded_inv in H1 as (Hm1 & He1 & Hn1).
  apply bounded_inv in H2 as (Hm2 & He2 & Hn2).
  unfold rankqe, two52, two53 in *.
  destruct (Z.lt_total e1 e2) as [Hlt | [Heq | Hgt]].
  - replace (Z.min e1 e2) with e1 by lia.
    rewrite Z.sub_diag. change (2 ^ 0) with 1.
    assert (2 ^ 1 <= 2 ^ (e2 - e1)) by (apply Z.pow_le_mono_r; lia).
    change (2 ^ 1) with 2 in *. nia.
  - subst e2. rewrite Z.min_id, Z.sub_diag. change (2 ^ 0) with 1. lia.
  - exfalso. lia.
Qed.

Section MulByPositive.
Variables (mc : positive) (ec : Z).
Hypothesis Hc : bounded prec emax mc ec = true.

Lemma product_rank_nonneg m e :
  bounded prec emax m e = true -> 0 <= product_rank mc ec m e.
Proof using Hc.
  intros Hm. unfold product_rank.
  pose proof (mul_exponent_le m e mc ec Hm Hc) as HE.
  destruct (rne_precanonical (m * mc) (e + ec) HE) as [Hq _].
  unfold rankqe, rank_inf, two52, two53 in *. lia.
Qed.

Lemma product_rank_mono m1 e1 m2 e2 :
  bounded prec emax m1 e1 = true -> bounded prec emax m2 e2 = true ->
  rankqe (Z.pos m1) e1 <= rankqe (Z.pos m2) e2 ->
  product_rank mc ec m1 e1 <= product_rank mc ec m2 e2.
Proof using Hc.
  intros H1 H2 Hr. unfold product_rank.
  apply Z.min_le_compat_r.
  apply (round_mono (m1 * mc) (e1 + ec) (m2 * mc) (e2 + ec) (Z.min e1 e2 + ec)).
  - lia.
  - lia.
  - now apply mul_exponent_le.
  - now apply mul_exponent_le.
  - pose proof (rank_value_le m1 e1 m2 e2 H1 H2 Hr) as Hv.
    replace (e1 + ec - (Z.min e1 e2 + ec)) with (e1 - Z.min e1 e2) by lia.
    replace (e2 + ec - (Z.min e1 e2 + ec)) with (e2 - Z.min e1 e2) by lia.
    rewrite !Pos2Z.inj_mul. nia.
Qed.

(** Where the product of a finite number with the constant lands. *)
Lemma SFmul_finite_rank s m e :
  bounded prec emax m e = true ->
  SF64mul (S754_finite s m e) (S754_finite false mc ec) <> S754_nan /\
  rank (SF64mul (S754_finite s m e) (S754_finite false mc ec)) =
    sgn s * product_rank mc ec m e.
Proof using Hc.
  intros Hm. unfold SF64mul. cbn [SFmul]. rewrite xorb_false_r.
  apply round_aux_rank. now apply mul_exponent_le.
Qed.

(** Multiplication by a positive finite constant keeps the order of grid
    positions, and makes no NaN from numbers. *)
Lemma SFmul_rank_mono x y :
  valid_binary x = true -> valid_binary y = true ->
  x <> S754_nan -> y <> S754_nan ->
  rank x <= rank y ->
  SF64mul x (S754_finite false mc ec) <> S754_nan /\
  SF64mul y (S754_finite false mc ec) <> S754_nan /\
  rank (SF64mul x (S754_finite false mc ec)) <=
    rank (SF64mul y (S754_finite false mc ec)).
Proof using Hc.
  intros Vx Vy Nx Ny Hr.
  assert (Hinf : 0 < rank_inf) by (unfold rank_inf, two52; lia).
  destruct x as [sx | sx | | sx mx ex]; try congruence;
    destruct y as [sy | sy | | sy my ey]; try congruence;
    cbn [valid_binary] in Vx, Vy;
    repeat match goal with
    | H : bounded prec emax ?m ?e = true |- _ =>
        lazymatch goal with
        | _ : 0 <= product_rank mc ec m e |- _ => fail
        | _ =>
          pose proof (product_rank_nonneg m e H);
          pose proof (proj1 (bounded_inv m e H));
          pose proof (proj1 (proj2 (bounded_inv m e H)));
          let H1 := fresh in let H2 := fresh in
          destruct (SFmul_finite_rank true m e H) as [H1 H2];
          let H3 := fresh in let H4 := fresh in
          destruct (SFmul_finite_rank false m e H) as [H3 H4]
        end
    end.
  all: try (pose proof (product_rank_mono _ _ _ _ Vx Vy)).
  all: try (pose proof (product_rank_mono _ _ _ _ Vy Vx)).
  all: assert (Hmin : forall m e, product_rank mc ec m e <= rank_inf)
         by (intros; unfold product_rank; lia).
  all: try (pose proof (Hmin mx ex)); try (pose proof (Hmin my ey)).
  all: destruct sx, sy; cbn [rank sgn] in *.
  all: split; [first [assumption | unfold SF64mul; cbn [SFmul]; discriminate] |].
  all: split; [first [assumption | unfold SF64mul; cbn [SFmul]; discriminate] |].
  all: repeat match goal with
       | H : rank ?t = _ |- context [rank ?t] => rewrite H
       end.
  all: try (unfold SF64mul; cbn [SFmul xorb rank sgn]).
  all: unfold rankqe, rank_inf, two52, two53 in *; lia.
Qed.
End MulByPositive.

(** ** Primitive floats: order and multiplication *)

(** [x != x] holds of NaN only. *)
Lemma is_nan_spec (x : float) : is_nan x = true <-> Prim2SF x = S754_nan.
Proof.
  unfold is_nan. rewrite FloatAxioms.eqb_spec. unfold SFeqb.
  destruct (Prim2SF x) as [s | s | | s m e] eqn:E.
  - cbn. split; discriminate.
  - cbn. destruct s; split; discriminate.
  - cbn. split; reflexivity.
  - rewrite SFcompare_rank; try discriminate; try (rewrite <- E; apply Prim2SF_valid).
    rewrite Z.compare_refl. cbn. split; discriminate.
Qed.

Lemma is_nan_false (x : float) : is_nan x = false <-> Prim2SF x <> S754_nan.
Proof.
  rewrite <- is_nan_spec. destruct (is_nan x); split; congruence.
Qed.

(** [<=] and [<] on floats compare grid positions, and fail on NaN. *)
Lemma leb_rank (x y : float) :
  (x <=? y)%float = true <->
  is_nan x = false /\ is_nan y = false /\ frank x <= frank y.
Proof.
  rewrite FloatAxioms.leb_spec, !is_nan_false. unfold SFleb, frank.
  pose proof (Prim2SF_valid x) as Vx. pose proof (Prim2SF_valid y) as Vy.
  destruct (Prim2SF x) as [sx | sx | | sx mx ex] eqn:Ex;
    try (split; [cbn; discriminate | intros (H & _ & _); congruence]);
    (destruct (Prim2SF y) as [sy | sy | | sy my ey] eqn:Ey;
     [ | | split; [cbn; discriminate | intros (_ & H & _); congruence] | ]);
    (rewrite SFcompare_rank by (assumption || discriminate));
    match goal with
    | |- context [?a ?= ?b] => destruct (Z.compare_spec a b)
    end; (split; [intros; repeat split; (discriminate || lia) | intros (_ & _ & ?); (reflexivity || lia)]).
Qed.

Lemma ltb_rank (x y : float) :
  (x <? y)%float = true <->
  is_nan x = false /\ is_nan y = false /\ frank x < frank y.
Proof.
  rewrite FloatAxioms.ltb_spec, !is_nan_false. unfold SFltb, frank.
  pose proof (Prim2SF_valid x) as Vx. pose proof (Prim2SF_valid y) as Vy.
  destruct (Prim2SF x) as [sx | sx | | sx mx ex] eqn:Ex;
    try (split; [cbn; discriminate | intros (H & _ & _); congruence]);
    (destruct (Prim2SF y) as [sy | sy | | sy my ey] eqn:Ey;
     [ | | split; [cbn; discriminate | intros (_ & H & _); congruence] | ]);
    (rewrite SFcompare_rank by (assumption || discriminate));
    match goal with
    | |- context [?a ?= ?b] => destruct (Z.compare_spec a b)
    end; (split; [intros; repeat split; (discriminate || lia) | intros (_ & _ & ?); (reflexivity || lia)]).
Qed.

(** Multiplying both sides by a positive finite constant keeps [<=]. *)
Theorem mul_pos_mono (c x y : float) :
  positive_finite c ->
  (x <=? y)%float = true -> (x * c <=? y * c)%float = true.
Proof.
  intros (mc & ec & Hc) Hle.
  apply leb_rank in Hle as (Nx & Ny & Hr).
  apply is_nan_false in Nx, Ny.
  pose proof (Prim2SF_valid c) as Vc. rewrite Hc in Vc. cbn [valid_binary] in Vc.
  destruct (SFmul_rank_mono mc ec Vc (Prim2SF x) (Prim2SF y)
              (Prim2SF_valid x) (Prim2SF_valid y) Nx Ny Hr) as (N1 & N2 & Hm).
  apply leb_rank. rewrite !is_nan_false. unfold frank.
  rewrite !FloatAxioms.mul_spec, Hc. auto.
Qed.

Lemma Prim2SF_one : Prim2SF 1%float = S754_finite false 4503599627370496 (-52).
Proof. reflexivity. Qed.

Lemma digits2_pos_shift52 m :
  Z.pos (digits2_pos (m * 4503599627370496)) = Z.pos (digits2_pos m) + 52.
Proof.
  rewrite !Pos.mul_xO_r, Pos.mul_1_r. cbn [digits2_pos].
  rewrite !Pos2Z.inj_succ. lia.
Qed.

(** Multiplying by 1.0 shifts 52 zero bits out again: nothing is rounded. *)
Lemma SFmul_one_r x :
  valid_binary x = true ->
  SF64mul x (S754_finite false 4503599627370496 (-52)) = x.
Proof.
  intros V. unfold SF64mul.
  destruct x as [s | s | | s m e]; cbn [SFmul]; rewrite ?xorb_false_r; try reflexivity.
  cbn [valid_binary] in V.
  destruct (canonical_inv m e V) as [He Hd].
  pose proof (bounded_inv m e V) as (Hm & _ & _).
  pose proof (digits_le_53 m Hm) as Hd53.
  assert (HE : Z.max (Z.pos (digits2_pos (m * 4503599627370496)) + (e + -52) - 53) (-1074) = e)
    by (rewrite digits2_pos_shift52; lia).
  rewrite round_aux_finish; rewrite HE; [| lia].
  replace (e - (e + -52)) with (0 + 52) by lia.
  rewrite Pos2Z.inj_mul. change (Z.pos 4503599627370496) with (2 ^ 52).
  rewrite rne_scale by lia.
  unfold rne. change (2 ^ 0) with 1. rewrite Z.div_1_r, Z.mod_1_r.
  change (2 * 0 ?= 1) with Lt. cbv beta iota zeta.
  unfold finish, shr_fexp. cbn [Zdigits2 shr_record_of_loc]. rewrite fexp64.
  rewrite shr_nonpos by lia. cbn [shr_m].
  change (emax - prec) with 971.
  destruct (Z.leb_spec e 971); [reflexivity | lia].
Qed.

(** [x * 1.0 = x] for every float, NaN, infinities and zeros included. *)
Theorem mul_one_r (x : float) : (x * 1)%float = x.
Proof.
  apply Prim2SF_inj. rewrite FloatAxioms.mul_spec, Prim2SF_one.
  apply SFmul_one_r, Prim2SF_valid.
Qed.

(** ** Tables: columns, rows, tails *)

Lemma bind_Ok {A B} (m : result A) (f : A -> result B) (b : B) :
  m ≫= f = Ok b <-> exists a, m = Ok a /\ f a = Ok b.
Proof.
  destruct m as [a | e]; cbn.
  - split; [eauto | intros (a' & [= <-] & H); exact H].
  - split; [discriminate | intros (a' & [=] & _)].
Qed.

Lemma assoc_set_eq {A} (k : string) (a : A) l : assoc k (assoc_set k a l) = Some a.
Proof.
  induction l as [| [k' a'] l IH]; cbn.
  - now rewrite String.eqb_refl.
  - destruct (String.eqb k k') eqn:E; cbn; rewrite E; [reflexivity | exact IH].
Qed.

Lemma assoc_set_ne {A} (k k' : string) (a : A) l :
  k <> k' -> assoc k (assoc_set k' a l) = assoc k l.
Proof.
  intros Hne. induction l as [| [k'' a''] l IH]; cbn.
  - apply String.eqb_neq in Hne. now rewrite Hne.
  - destruct (String.eqb k' k'') eqn:E; cbn.
    + apply String.eqb_eq in E. subst k''.
      apply String.eqb_neq in Hne. now rewrite Hne.
    + destruct (String.eqb k k''); [reflexivity | exact IH].
Qed.

Lemma getcol_setcol_eq name col df : getcol name (setcol name col df) = Ok col.
Proof. unfold getcol, setcol; cbn. now rewrite assoc_set_eq. Qed.

Lemma getcol_setcol_ne name name' col df :
  name <> name' -> getcol name (setcol name' col df) = getcol name df.
Proof. intros H. unfold getcol, setcol; cbn. now rewrite assoc_set_ne. Qed.

Lemma getcol_Ok name df col : getcol name df = Ok col <-> assoc name (columns df) = Some col.
Proof.
  unfold getcol. destruct (assoc name (columns df)); split; congruence.
Qed.

Lemma assoc_In {A} (k : string) (a : A) l : assoc k l = Some a -> In (k, a) l.
Proof.
  induction l as [| [k' a'] l IH]; cbn; [discriminate |].
  destruct (String.eqb k k') eqn:E.
  - apply String.eqb_eq in E. intros [= ->]. left. now subst.
  - intros H. right. auto.
Qed.

Lemma wf_frame_getcol df name col :
  wf_frame df -> getcol name df = Ok col -> length col = nrows df.
Proof.
  intros Hwf H. apply getcol_Ok, assoc_In in H.
  unfold wf_frame in Hwf. rewrite List.Forall_forall in Hwf.
  exact (Hwf _ H).
Qed.

Lemma col_floats_floats vs : col_floats (map CFloat vs) = Ok vs.
Proof. induction vs as [| v vs IH]; cbn; [reflexivity | now rewrite IH]. Qed.

Lemma col_floats_Ok col vs : col_floats col = Ok vs -> col = map CFloat vs.
Proof.
  revert vs. induction col as [| c col IH]; cbn; intros vs H.
  - now injection H as <-.
  - destruct c as [v | |]; try discriminate.
    apply bind_Ok in H as (r & Hr & [= <-]). cbn. f_equal. auto.
Qed.

Lemma col_mul_floats k vs :
  col_mul k (map CFloat vs) = Ok (map CFloat (map (fun v => (v * k)%float) vs)).
Proof. induction vs as [| v vs IH]; cbn; [reflexivity | now rewrite IH]. Qed.

Lemma last_n_map {A B} (f : A -> B) n l : last_n n (map f l) = map f (last_n n l).
Proof. unfold last_n. now rewrite List.length_map, List.skipn_map. Qed.

Lemma last_n_all {A} n (l : list A) : (length l <= n)%nat -> last_n n l = l.
Proof. intros H. unfold last_n. now replace (length l - n)%nat with 0%nat by lia. Qed.

Lemma last_n_length {A} n (l : list A) : length (last_n n l) = Nat.min n (length l).
Proof. unfold last_n. rewrite List.length_skipn. lia. Qed.

Lemma assoc_map_snd {A B} (f : A -> B) k (l : list (string * A)) :
  assoc k (map (fun c => (fst c, f (snd c))) l) = option_map f (assoc k l).
Proof.
  induction l as [| [k' a] l IH]; cbn; [reflexivity |].
  destruct (String.eqb k k'); [reflexivity | exact IH].
Qed.

Lemma getcol_df_tail name n df col :
  getcol name df = Ok col -> getcol name (df_tail n df) = Ok (last_n n col).
Proof.
  rewrite !getcol_Ok. unfold df_tail; cbn.
  intros H. now rewrite (assoc_map_snd (last_n n)), H.
Qed.

Lemma getcol_df_filter name mask df col :
  getcol name df = Ok col -> getcol name (df_filter mask df) = Ok (select_rows mask col).
Proof.
  rewrite !getcol_Ok. unfold df_filter; cbn.
  intros H. now rewrite (assoc_map_snd (select_rows mask)), H.
Qed.

Lemma df_tail_all n df : wf_frame df -> (nrows df <= n)%nat -> df_tail n df = df.
Proof.
  destruct df as [idx cols]. unfold wf_frame, df_tail, nrows; cbn.
  intros Hwf Hn. f_equal; [now apply last_n_all |].
  induction Hwf as [| [k c] cols Hc _ IH]; cbn [map]; [reflexivity |].
  cbn in Hc. rewrite IH. cbn [fst snd]. rewrite last_n_all by lia. reflexivity.
Qed.

(** ** Series views *)

Lemma zip_points_map r ds e l u pts :
  zip_points ds e l u = Some pts ->
  zip_points ds (map (fun v => (v * (1 + r))%float) e)
                (map (fun v => (v * (1 + r))%float) l)
                (map (fun v => (v * (1 + r))%float) u) = Some (map (scale_point r) pts).
Proof.
  revert e l u pts. induction ds as [| t ds IH]; intros [| p e] [| lo l] [| hi u] pts; cbn;
    try discriminate.
  - now intros [= <-].
  - destruct (zip_points ds e l u) as [pts' |] eqn:E; cbn; [| discriminate].
    intros [= <-]. rewrite (IH _ _ _ _ E). reflexivity.
Qed.

Lemma zip_points_estimates ds e l u pts :
  zip_points ds e l u = Some pts -> e = map pointEstimate pts.
Proof.
  revert e l u pts. induction ds as [| t ds IH]; intros [| p e] [| lo l] [| hi u] pts; cbn;
    try discriminate.
  - now intros [= <-].
  - destruct (zip_points ds e l u) as [pts' |] eqn:E; cbn; [| discriminate].
    intros [= <-]. cbn. f_equal. eauto.
Qed.

(** What it takes for a table to have a series under given column names. *)
Lemma series_view_Ok est lo hi df pts :
  series_view est lo hi df = Ok pts <->
  exists ds e l u,
    getcol "ds" df = Ok ds /\
    getcol est df = Ok (map CFloat e) /\
    getcol lo df = Ok (map CFloat l) /\
    getcol hi df = Ok (map CFloat u) /\
    zip_points ds e l u = Some pts.
Proof.
  unfold series_view. split.
  - intros H.
    apply bind_Ok in H as (ds & Hds & H).
    apply bind_Ok in H as (ce & Hce & H). apply bind_Ok in H as (e & He & H).
    apply bind_Ok in H as (cl & Hcl & H). apply bind_Ok in H as (l & Hl & H).
    apply bind_Ok in H as (cu & Hcu & H). apply bind_Ok in H as (u & Hu & H).
    apply col_floats_Ok in He, Hl, Hu. subst ce cl cu.
    exists ds, e, l, u. repeat split; try assumption.
    destruct (zip_points ds e l u); [now injection H as -> | discriminate].
  - intros (ds & e & l & u & Hds & He & Hl & Hu & Hz).
    rewrite Hds; cbn. rewrite He; cbn. rewrite col_floats_floats; cbn.
    rewrite Hl; cbn. rewrite col_floats_floats; cbn.
    rewrite Hu; cbn. rewrite col_floats_floats; cbn.
    now rewrite Hz.
Qed.

(** ** The growth adjustment *)

Ltac distinct_names := apply String.eqb_neq; reflexivity.

(** Reads a column back through the assignments made after it. *)
Ltac read_column :=
  repeat first [ rewrite getcol_setcol_eq
               | rewrite getcol_setcol_ne by distinct_names ].

Lemma applyGrowth_columns S r e l u :
  getcol "yhat" S = Ok (map CFloat e) ->
  getcol "yhat_lower" S = Ok (map CFloat l) ->
  getcol "yhat_upper" S = Ok (map CFloat u) ->
  let scaled vs := map CFloat (map (fun v => (v * (1 + r))%float) vs) in
  applyGrowth S r =
    Ok (setcol "yhat_upper_adj" (scaled u)
         (setcol "yhat_lower_adj" (scaled l)
           (setcol "yhat_adj" (scaled e) S))).
Proof.
  intros He Hl Hu scaled. unfold applyGrowth.
  rewrite He; cbn. rewrite col_mul_floats; cbn.
  read_column. rewrite Hl; cbn. rewrite col_mul_floats; cbn.
  read_column. rewrite Hu; cbn. rewrite col_mul_floats; cbn. reflexivity.
Qed.

(** The adjusted table: every point scaled by [1 + rate], in the order of the
    base series, which the table still holds. *)
Lemma applyGrowth_spec S r pts :
  forecast_series S = Ok pts ->
  exists S',
    applyGrowth S r = Ok S' /\
    adjusted_series S' = Ok (map (scale_point r) pts) /\
    forecast_series S' = Ok pts /\
    index S' = index S /\
    getcol "yhat_adj" S' =
      Ok (map CFloat (map (fun v => (v * (1 + r))%float) (map pointEstimate pts))).
Proof.
  intros H. apply series_view_Ok in H as (ds & e & l & u & Hds & He & Hl & Hu & Hz).
  eexists. split; [apply (applyGrowth_columns S r e l u He Hl Hu) |].
  split; [| split; [| split]].
  - apply series_view_Ok.
    exists ds, (map (fun v => (v * (1 + r))%float) e),
           (map (fun v => (v * (1 + r))%float) l),
           (map (fun v => (v * (1 + r))%float) u).
    repeat split; read_column; try reflexivity; try assumption.
    now apply zip_points_map.
  - apply series_view_Ok. exists ds, e, l, u.
    repeat split; read_column; assumption.
  - reflexivity.
  - read_column. now rewrite (zip_points_estimates _ _ _ _ _ Hz).
Qed.

(** Every scenario multiplies by a positive finite number. *)
Lemma scenario_rate_positive name rate :
  assoc name scenario_map = Some rate -> positive_finite (1 + rate)%float.
Proof.
  unfold scenario_map; cbn [assoc].
  repeat (destruct (String.eqb name _);
          [intros [= <-]; eexists _, _; vm_compute; reflexivity |]).
  discriminate.
Qed.

Lemma scale_point_ordered r p :
  positive_finite (1 + r)%float -> bounds_ordered p -> bounds_ordered (scale_point r p).
Proof.
  intros Hc [Hlo Hhi]. unfold bounds_ordered, fle in *; cbn.
  split; now apply mul_pos_mono.
Qed.

(** ** Theorems of the scenario engine *)

(** C8: for every aggregate series and per-category table,
    selectSeries("All Categories", agg, cat) is the aggregate series itself,
    unfiltered and unchanged. *)
Theorem selectSeries_all_categories (agg cat : DataFrame) :
  selectSeries "All Categories" agg cat = Ok agg.
Proof. reflexivity. Qed.

(** C3: for every rate of the scenario map and every table with a forecast
    series, applyGrowth succeeds with as many rows; the adjusted series has
    the points of the base series, each scaled by 1 + rate, in the same
    order with the same timestamps, and a point whose bounds are ordered,
    lower <= estimate <= upper, stays so after the adjustment. *)
Theorem applyGrowth_preserves_order_and_bounds
    (S : DataFrame) (name : string) (rate : float) (pts : list ForecastPoint) :
  assoc name scenario_map = Some rate ->
  forecast_series S = Ok pts ->
  exists S' pts',
    applyGrowth S rate = Ok S' /\
    adjusted_series S' = Ok pts' /\
    pts' = map (scale_point rate) pts /\
    nrows S' = nrows S /\
    length pts' = length pts /\
    Forall2 (fun p p' =>
               timestamp p' = timestamp p /\
               (bounds_ordered p -> bounds_ordered p')) pts pts'.
Proof.
  intros Hrate HS.
  destruct (applyGrowth_spec S rate pts HS) as (S' & Happ & Hadj & _ & Hidx & _).
  exists S', (map (scale_point rate) pts).
  repeat split; try assumption.
  - unfold nrows. now rewrite Hidx.
  - apply List.length_map.
  - pose proof (scenario_rate_positive name rate Hrate) as Hpos.
    clear -Hpos. induction pts as [| p pts IH]; cbn; constructor; [| exact IH].
    split; [reflexivity | now apply scale_point_ordered].
Qed.

Lemma applyGrowth_preserves_order_and_bounds_witness :
  assoc "Aggressive (+20%)" scenario_map = Some 0.2%float /\
  forecast_series sample_forecast = Ok sample_points /\
  Forall bounds_ordered sample_points /\
  exists S' pts',
    applyGrowth sample_forecast 0.2%float = Ok S' /\
    adjusted_series S' = Ok pts' /\
    nrows S' = 12%nat /\
    length pts' = 12%nat /\
    Forall bounds_ordered pts'.
Proof.
  assert (H1 : assoc "Aggressive (+20%)" scenario_map = Some 0.2%float) by reflexivity.
  assert (H2 : forecast_series sample_forecast = Ok sample_points) by (vm_compute; reflexivity).
  assert (H3 : Forall bounds_ordered sample_points) by (repeat constructor).
  refine (conj H1 (conj H2 (conj H3 _))).
  destruct (applyGrowth_preserves_order_and_bounds sample_forecast _ _ _ H1 H2)
    as (S' & pts' & Happ & Hadj & _ & Hrows & Hlen & Hall).
  exists S', pts'. repeat split; try assumption.
  clear -H3 Hall. induction Hall as [| p p' ps ps' [_ Hp] _ IH]; [constructor |].
  inversion H3; subst. constructor; auto.
Defined.

Lemma one_plus_zero : (1 + 0)%float = 1%float.
Proof. reflexivity. Qed.

Lemma scale_point_baseline p : scale_point 0 p = p.
Proof.
  destruct p as [t e l u]. unfold scale_point; cbn [timestamp pointEstimate lowerBound upperBound].
  now rewrite one_plus_zero, !mul_one_r.
Qed.

(** C6: under the Baseline scenario (rate 0.00) applyGrowth is the identity
    on the series: the adjusted series of the result is the base series of
    the input, point for point, with estimate and both bounds unchanged, and
    the base columns are still there. *)
Theorem applyGrowth_baseline_identity
    (S : DataFrame) (rate : float) (pts : list ForecastPoint) :
  assoc "Baseline (0%)" scenario_map = Some rate ->
  forecast_series S = Ok pts ->
  exists S',
    applyGrowth S rate = Ok S' /\
    adjusted_series S' = Ok pts /\
    forecast_series S' = Ok pts /\
    index S' = index S.
Proof.
  intros [= <-] HS.
  destruct (applyGrowth_spec S 0 pts HS) as (S' & Happ & Hadj & Hbase & Hidx & _).
  exists S'. repeat split; try assumption.
  rewrite Hadj. f_equal.
  clear. induction pts as [| p pts IH]; cbn; [reflexivity |].
  now rewrite scale_point_baseline, IH.
Qed.

Lemma applyGrowth_baseline_identity_witness :
  assoc "Baseline (0%)" scenario_map = Some 0%float /\
  forecast_series sample_forecast = Ok sample_points /\
  exists S',
    applyGrowth sample_forecast 0 = Ok S' /\
    adjusted_series S' = Ok sample_points /\
    forecast_series S' = Ok sample_points /\
    index S' = index sample_forecast.
Proof.
  assert (H1 : assoc "Baseline (0%)" scenario_map = Some 0%float) by reflexivity.
  assert (H2 : forecast_series sample_forecast = Ok sample_points) by (vm_compute; reflexivity).
  exact (conj H1 (conj H2 (applyGrowth_baseline_identity sample_forecast _ _ H1 H2))).
Defined.

Lemma col_sum_floats vs : col_sum (map CFloat vs) = Ok (fsum vs).
Proof. unfold col_sum. now rewrite col_floats_floats. Qed.

Lemma fsum_six_of_120 (vs : list float) :
  length vs = 6%nat -> Forall (fun v => v = 120%float) vs -> fsum vs = 720%float.
Proof.
  intros Hlen Hall.
  do 7 (destruct vs as [| ? vs]; try discriminate).
  repeat match goal with
         | H : Forall _ (_ :: _) |- _ => inversion H; subst; clear H
         end.
  reflexivity.
Qed.

(** C4: for every table with a forecast series and every rate, the KPI
    summarize(tailWindow(applyGrowth(S, r), 6)) is exactly the sum of the
    adjusted point estimates of the last six points of S; and when S has
    twelve points, the last six with point estimate 100, the Aggressive
    (+20%) scenario gives exactly 720. *)
Theorem kpi_total_is_adjusted_tail_sum
    (S : DataFrame) (r : float) (pts : list ForecastPoint) :
  forecast_series S = Ok pts ->
  exists S',
    applyGrowth S r = Ok S' /\
    summarize (tailWindow 6 S') =
      Ok (fsum (map (fun p => (pointEstimate p * (1 + r))%float) (last_n 6 pts))) /\
    (assoc "Aggressive (+20%)" scenario_map = Some r ->
     length pts = 12%nat ->
     Forall (fun p => pointEstimate p = 100%float) (last_n 6 pts) ->
     summarize (tailWindow 6 S') = Ok 720%float).
Proof.
  intros HS.
  destruct (applyGrowth_spec S r pts HS) as (S' & Happ & _ & _ & _ & Hcol).
  exists S'. split; [exact Happ |].
  assert (Hsum : summarize (tailWindow 6 S') =
                 Ok (fsum (map (fun p => (pointEstimate p * (1 + r))%float) (last_n 6 pts)))).
  { unfold summarize, tailWindow.
    rewrite (getcol_df_tail _ _ _ _ Hcol); cbn.
    rewrite !last_n_map, col_sum_floats, List.map_map. reflexivity. }
  split; [exact Hsum |].
  intros [= <-] Hlen Hall. rewrite Hsum. f_equal.
  apply fsum_six_of_120.
  - rewrite List.length_map, last_n_length, Hlen. reflexivity.
  - rewrite List.Forall_map. eapply List.Forall_impl; [| exact Hall].
    intros p ->. reflexivity.
Qed.

Lemma kpi_total_is_adjusted_tail_sum_witness :
  forecast_series sample_forecast = Ok sample_points /\
  length sample_points = 12%nat /\
  Forall (fun p => pointEstimate p = 100%float) (last_n 6 sample_points) /\
  exists S',
    applyGrowth sample_forecast 0.2 = Ok S' /\
    summarize (tailWindow 6 S') = Ok 720%float.
Proof.
  assert (H1 : forecast_series sample_forecast = Ok sample_points) by (vm_compute; reflexivity).
  assert (H2 : length sample_points = 12%nat) by reflexivity.
  assert (H3 : Forall (fun p => pointEstimate p = 100%float) (last_n 6 sample_points))
    by (repeat constructor).
  refine (conj H1 (conj H2 (conj H3 _))).
  destruct (kpi_total_is_adjusted_tail_sum sample_forecast 0.2 sample_points H1)
    as (S' & Happ & _ & H720).
  exists S'. split; [exact Happ |]. exact (H720 eq_refl H2 H3).
Defined.

(** ** Selecting a category *)

Lemma cell_eq_str_true c s : cell_eq_str s c = true <-> c = CStr s.
Proof.
  destruct c as [v | s' | t]; cbn; try (split; [discriminate | intros [=]]).
  rewrite String.eqb_eq. split; [now intros -> | now intros [= ->]].
Qed.

Lemma select_rows_none {A} (mask : list bool) (l : list A) :
  Forall (fun b => b = false) mask -> select_rows mask l = [].
Proof.
  intros H. revert l. induction H as [| b mask -> _ IH]; intros [| x l]; cbn; auto.
Qed.

Lemma mask_without_label category (col : Column) :
  CStr category ∉ col -> Forall (fun b => b = false) (map (cell_eq_str category) col).
Proof.
  intros Hnot. apply List.Forall_map, List.Forall_forall. intros c Hc.
  destruct (cell_eq_str category c) eqn:E; [| reflexivity].
  apply cell_eq_str_true in E. subst c. exfalso. apply Hnot.
  now apply list_elem_of_In.
Qed.

(** C1, as the code has it: for every category label other than "All
    Categories", selectSeries signals no error; it returns the rows of the
    per-category table whose Category is the label, and when no row
    carries the label, the table with all its columns and no rows. *)
Theorem selectSeries_category_filters
    (category : string) (agg cat : DataFrame) (col : Column) :
  category <> all_categories ->
  getcol "Category" cat = Ok col ->
  let S := df_filter (map (cell_eq_str category) col) cat in
  selectSeries category agg cat = Ok S /\
  (CStr category ∉ col ->
   nrows S = 0%nat /\
   map fst (columns S) = map fst (columns cat) /\
   Forall (fun c => snd c = []) (columns S)).
Proof.
  intros Hne Hcol S. split.
  - unfold selectSeries. apply String.eqb_neq in Hne. rewrite Hne, Hcol. reflexivity.
  - intros Hnot. pose proof (mask_without_label category col Hnot) as Hmask.
    unfold S, df_filter, nrows; cbn. split; [| split].
    + now rewrite select_rows_none.
    + rewrite List.map_map. reflexivity.
    + apply List.Forall_map, List.Forall_forall. intros c _. cbn.
      now apply select_rows_none.
Qed.

Lemma selectSeries_category_filters_witness :
  "Furniture" <> all_categories /\
  getcol "Category" sample_category_forecast =
    Ok [CStr "Technology"; CStr "Office Supplies"; CStr "Technology"; CStr "Office Supplies"] /\
  selectSeries "Furniture" sample_forecast sample_category_forecast =
    Ok {| index := [];
          columns := [("ds", []); ("Category", []); ("yhat", []);
                      ("yhat_lower", []); ("yhat_upper", [])] |}.
Proof.
  assert (H1 : "Furniture" <> all_categories) by distinct_names.
  assert (H2 : getcol "Category" sample_category_forecast =
               Ok [CStr "Technology"; CStr "Office Supplies";
                   CStr "Technology"; CStr "Office Supplies"]) by reflexivity.
  exact (conj H1 (conj H2
    (proj1 (selectSeries_category_filters "Furniture" sample_forecast
              sample_category_forecast _ H1 H2)))).
Defined.

(** C1 as stated fails: the sample per-category table has no Furniture row,
    and selecting Furniture returns an empty table, not an error; the KPI
    computed from it is 0. *)
Lemma selectSeries_missing_category_is_not_an_error :
  (CStr "Furniture" ∉ [CStr "Technology"; CStr "Office Supplies";
                       CStr "Technology"; CStr "Office Supplies"]) /\
  getcol "Category" sample_category_forecast =
    Ok [CStr "Technology"; CStr "Office Supplies"; CStr "Technology"; CStr "Office Supplies"] /\
  (forall e, selectSeries "Furniture" sample_forecast sample_category_forecast <> Err e) /\
  (S ← selectSeries "Furniture" sample_forecast sample_category_forecast;
   S' ← applyGrowth S 0.2;
   summarize (tailWindow 6 S')) = Ok 0%float.
Proof.
  split; [| split; [reflexivity | split; [intros e; discriminate | reflexivity]]].
  intros H. apply list_elem_of_In in H. cbn in H.
  repeat destruct H as [H | H]; try discriminate; exact H.
Qed.

(** ** The tail window *)

(** C2, as the code has it: on a series with fewer than n points,
    tailWindow(series, n) does not fail and returns the series itself, all
    points in their order (none if there is none); nothing else is returned
    with it. *)
Theorem tailWindow_short_returns_all (n : nat) (S : DataFrame) :
  wf_frame S -> (nrows S < n)%nat ->
  tailWindow n S = S /\ nrows (tailWindow n S) = nrows S.
Proof.
  intros Hwf Hn. assert (H : tailWindow n S = S) by (apply df_tail_all; [assumption | lia]).
  now rewrite H.
Qed.

Lemma tailWindow_short_returns_all_witness :
  wf_frame short_forecast /\ (nrows short_forecast < 6)%nat /\
  tailWindow 6 short_forecast = short_forecast /\
  nrows (tailWindow 6 short_forecast) = nrows short_forecast.
Proof.
  assert (H1 : wf_frame short_forecast) by (repeat constructor).
  assert (H2 : (nrows short_forecast < 6)%nat) by (vm_compute; lia).
  exact (conj H1 (conj H2 (tailWindow_short_returns_all 6 short_forecast H1 H2))).
Defined.

(** C2 as stated fails: what tailWindow returns cannot tell a shortfall. On
    the one-month forecast the window of six (a shortfall) and the window of
    one (none) return the same table, so no flag read off the result
    indicates the shortfall; and the page run on that forecast puts the
    one-month total on the screen and no warning. *)
Lemma tailWindow_carries_no_flag :
  (~ exists flag : DataFrame -> bool,
       forall (n : nat) (S : DataFrame),
         flag (tailWindow n S) = true <-> (nrows S < n)%nat) /\
  (let shown := screen (final_state (mainpage short_artifact (fresh_run ∅))) in
   st_metric "Next 6 Months Forecast" [Num ",.0f" 100] ∈ shown /\
   filter (fun w => is_warning w = true) shown = []).
Proof.
  split.
  - intros (flag & Hflag).
    pose proof (Hflag 6%nat short_forecast) as H6.
    pose proof (Hflag 1%nat short_forecast) as H1.
    change (tailWindow 6 short_forecast) with (tailWindow 1 short_forecast) in H6.
    change (nrows short_forecast) with 1%nat in H6, H1.
    apply proj2 in H6. apply proj1 in H1.
    assert (Hlt : (1 < 6)%nat) by lia.
    specialize (H1 (H6 Hlt)). lia.
  - split.
    + apply list_elem_of_In. vm_compute. tauto.
    + vm_compute. reflexivity.
Qed.

(** ** The best model *)





(** A column without a number has no minimum. *)
Lemma argmin_skipna_none (vs : list float) (i : nat) :
  Forall (fun v => is_nan v = true) vs -> argmin_skipna i vs = None.
Proof.
  intros H. revert i. induction H as [| v vs Hv _ IH]; intros i; cbn; [reflexivity |].
  now rewrite Hv.
Qed.







(** ** The categories on offer *)

Lemma unique_from_elem (seen l : list string) (x : string) :
  x ∈ unique_from seen l <-> x ∈ l /\ x ∉ seen.
Proof.
  revert seen. induction l as [| y l IH]; intros seen; cbn.
  - rewrite elem_of_nil. tauto.
  - destruct (bool_decide_reflect (y ∈ seen)) as [Hy | Hy].
    + rewrite IH, elem_of_cons. split; [tauto |].
      intros [[-> | Hx] Hn]; [contradiction | tauto].
    + rewrite !elem_of_cons, IH, elem_of_cons.
      destruct (decide (x = y)) as [-> | Hne]; [tauto |]. tauto.
Qed.

Lemma unique_elem (l : list string) (x : string) : x ∈ unique l <-> x ∈ l.
Proof. unfold unique. rewrite unique_from_elem, elem_of_nil. tauto. Qed.

Lemma sorted_elem (l : list string) (x : string) : x ∈ sorted l <-> x ∈ l.
Proof. unfold sorted. now rewrite merge_sort_Permutation. Qed.

Lemma col_strings_Ok col names : col_strings col = Ok names -> col = map CStr names.
Proof.
  revert names. induction col as [| c col IH]; cbn; intros names H.
  - now injection H as <-.
  - destruct c as [| s |]; try discriminate.
    apply bind_Ok in H as (r & Hr & [= <-]). cbn. f_equal. auto.
Qed.

Lemma elem_of_map {A B} (f : A -> B) (l : list A) (y : B) :
  y ∈ map f l <-> exists x, y = f x /\ x ∈ l.
Proof.
  rewrite list_elem_of_In, List.in_map_iff. split.
  - intros (x & <- & Hx). exists x. split; [reflexivity | now apply list_elem_of_In].
  - intros (x & -> & Hx). exists x. split; [reflexivity | now apply list_elem_of_In].
Qed.

Lemma select_rows_some {A} (mask : list bool) (l : list A) :
  length l = length mask -> true ∈ mask -> (0 < length (select_rows mask l))%nat.
Proof.
  revert l. induction mask as [| b mask IH]; intros l Hlen Hin.
  - now apply elem_of_nil in Hin.
  - destruct l as [| x l]; [discriminate |]. cbn.
    destruct b; cbn; [lia |].
    apply elem_of_cons in Hin as [[=] | Hin]. apply IH; [cbn in Hlen; lia | exact Hin].
Qed.

Lemma selectbox_value_is_option (options : list string) (first : string) rest index current :
  options = first :: rest -> index = 0%nat ->
  exists c, selectbox_value options index current = SStr c /\ c ∈ options.
Proof.
  intros -> ->. unfold selectbox_value. cbn.
  destruct current as [[| v |] |]; try (exists first; split; [reflexivity | left]).
  destruct (bool_decide_reflect (v ∈ first :: rest)) as [Hv | Hv].
  - exists v. auto.
  - exists first. split; [reflexivity | left].
Qed.

(** C9: every category on offer other than "All Categories" is a value of
    the Category column of the per-category table, so its filtered series has
    at least one row; and the selection box always holds one of the
    categories on offer, whatever the session held before. The case of a
    category without rows does not arise from the page. *)
Theorem selectable_category_has_rows
    (agg cat : DataFrame) (col : Column) (options : list string) (current : option SVal) :
  wf_frame cat ->
  getcol "Category" cat = Ok col ->
  categories cat = Ok options ->
  (forall c, c ∈ options -> c <> all_categories ->
     CStr c ∈ col /\
     exists S, selectSeries c agg cat = Ok S /\ (0 < nrows S)%nat) /\
  (exists c, selectbox_value options 0 current = SStr c /\ c ∈ options).
Proof.
  intros Hwf Hcol Hcats.
  unfold categories in Hcats. rewrite Hcol in Hcats; cbn in Hcats.
  apply bind_Ok in Hcats as (names & Hnames & [= <-]).
  apply col_strings_Ok in Hnames. split.
  - intros c Hc Hne. apply elem_of_cons in Hc as [-> | Hc]; [congruence |].
    apply (proj1 (sorted_elem _ _)), (proj1 (unique_elem _ _)) in Hc.
    assert (Hin : CStr c ∈ col) by (subst col; apply elem_of_map; exists c; split; [reflexivity | exact Hc]).
    split; [exact Hin |].
    eexists. split.
    + unfold selectSeries. apply String.eqb_neq in Hne. rewrite Hne, Hcol. reflexivity.
    + unfold nrows, df_filter; cbn. apply select_rows_some.
      * rewrite List.length_map. symmetry. exact (wf_frame_getcol _ _ _ Hwf Hcol).
      * apply elem_of_map. exists (CStr c). split; [| exact Hin].
        symmetry. now apply cell_eq_str_true.
  - eapply selectbox_value_is_option; reflexivity.
Qed.

Lemma selectable_category_has_rows_witness :
  wf_frame sample_category_forecast /\
  categories sample_category_forecast = Ok ["All Categories"; "Office Supplies"; "Technology"] /\
  (forall c, c ∈ ["All Categories"; "Office Supplies"; "Technology"] ->
     c <> all_categories ->
     CStr c ∈ [CStr "Technology"; CStr "Office Supplies"; CStr "Technology"; CStr "Office Supplies"] /\
     exists S, selectSeries c sample_forecast sample_category_forecast = Ok S /\ (0 < nrows S)%nat) /\
  (exists c, selectbox_value ["All Categories"; "Office Supplies"; "Technology"] 0
               (Some (SStr "Furniture")) = SStr c /\
             c ∈ ["All Categories"; "Office Supplies"; "Technology"]).
Proof.
  assert (H1 : wf_frame sample_category_forecast) by (repeat constructor).
  assert (H2 : categories sample_category_forecast =
               Ok ["All Categories"; "Office Supplies"; "Technology"]) by (vm_compute; reflexivity).
  exact (conj H1 (conj H2
    (selectable_category_has_rows sample_forecast sample_category_forecast _ _
       (Some (SStr "Furniture")) H1 eq_refl H2))).
Defined.

(** ** A missing or unreadable artifact *)

(** C7, as the code has it: when the artifact is absent or unreadable both
    pages stop at once, having made no table and put a single error message
    on the screen and nothing else: the setup instruction when the file is
    absent, the text of the exception after "Errors encountered while
    starting project: " when it is unreadable. *)
Theorem load_failure_stops_the_page (s : State) (why : string) :
  let shows msg :=
    Stopped {| heap := heap s; session := session s;
               screen := screen s ++ [st_error msg] |} in
  mainpage Absent s = shows setup_instruction /\
  comparison Absent s = shows setup_instruction /\
  mainpage (Unreadable why) s =
    shows [Lit "Errors encountered while starting project: "; Lit why] /\
  comparison (Unreadable why) s =
    shows [Lit "Errors encountered while starting project: "; Lit why].
Proof. repeat split. Qed.

(** C7 as stated fails for an unreadable file: the one message on the screen
    is the exception's text, not the setup instruction. *)
Lemma unreadable_artifact_shows_no_setup_instruction :
  screen (final_state (mainpage (Unreadable "pickle data was truncated") (fresh_run ∅))) =
    [st_error [Lit "Errors encountered while starting project: ";
               Lit "pickle data was truncated"]] /\
  st_error setup_instruction ∉
    screen (final_state (mainpage (Unreadable "pickle data was truncated") (fresh_run ∅))).
Proof.
  split; [reflexivity |].
  intros H. apply list_elem_of_In in H. cbn in H. destruct H as [H | []]. discriminate.
Qed.

(** ** What the page leaves alone *)

Section Keeps.
Variable h0 : gmap loc DataFrame.

Lemma keeps_bind {A B} (m : Script A) (f : A -> Script B) (mid : A -> Prop) (post : B -> Prop) :
  keeps h0 m mid -> (forall a, mid a -> keeps h0 (f a) post) -> keeps h0 (m ≫= f) post.
Proof.
  intros Hm Hf s Hs. destruct (Hm s Hs) as [Hh Hret].
  unfold mbind, script_bind. destruct (m s) as [a s1 | s1 | e s1] eqn:E; cbn in Hh.
  - exact (Hf a (Hret a s1 eq_refl) s1 Hh).
  - split; [exact Hh | discriminate].
  - split; [exact Hh | discriminate].
Qed.

Lemma keeps_weaken {A} (m : Script A) (post post' : A -> Prop) :
  keeps h0 m post -> (forall a, post a -> post' a) -> keeps h0 m post'.
Proof.
  intros Hm Himp s Hs. destruct (Hm s Hs) as [Hh Hret]. split; [exact Hh | eauto].
Qed.

Lemma keeps_ret {A} (a : A) (post : A -> Prop) : post a -> keeps h0 (mret a) post.
Proof. intros Ha s Hs. split; [exact Hs | now intros a' s' [= <- _]]. Qed.

Lemma keeps_neutral {A} (m : Script A) :
  heap_neutral m -> keeps h0 m (fun _ => True).
Proof. intros Hn s Hs. rewrite Hn. auto. Qed.

Lemma keeps_alloc df : keeps h0 (alloc df) (fun l => l ∉ dom h0).
Proof.
  intros s Hs. unfold alloc. cbn.
  pose proof (is_fresh (dom (heap s))) as Hfresh.
  split.
  - apply insert_subseteq_r; [| exact Hs].
    apply not_elem_of_dom. intros Hin. apply Hfresh.
    eapply subseteq_dom; eassumption.
  - intros a s' [= <- _] Hin. apply Hfresh. eapply subseteq_dom; eassumption.
Qed.

Lemma keeps_store l df : l ∉ dom h0 -> keeps h0 (store l df) (fun _ => True).
Proof.
  intros Hl s Hs. unfold store. cbn. split; [| auto].
  apply insert_subseteq_r; [| exact Hs]. now apply not_elem_of_dom.
Qed.
End Keeps.

Lemma neutral_ret {A} (a : A) : heap_neutral (mret a : Script A).
Proof. intros s. reflexivity. Qed.

Lemma neutral_raise {A} e : heap_neutral (raise e : Script A).
Proof. intros s. reflexivity. Qed.

Lemma neutral_lift {A} (r : result A) : heap_neutral (lift r).
Proof. intros s. destruct r; reflexivity. Qed.

Lemma neutral_emit w : heap_neutral (emit w).
Proof. intros s. reflexivity. Qed.

Lemma neutral_deref l : heap_neutral (deref l).
Proof. intros s. unfold deref. destruct (heap s !! l); reflexivity. Qed.

Lemma neutral_session_get key : heap_neutral (session_get key).
Proof. intros s. unfold session_get. destruct (session s !! key); reflexivity. Qed.

Lemma neutral_selectbox label options index key :
  heap_neutral (selectbox label options index key).
Proof. intros s. reflexivity. Qed.

Lemma neutral_download_button label data file_name key :
  heap_neutral (download_button label data file_name key).
Proof. intros s. reflexivity. Qed.

Lemma neutral_obj_getcol obj name : heap_neutral (obj_getcol obj name).
Proof.
  intros s. unfold obj_getcol, mbind, script_bind, deref.
  destruct (heap s !! obj) as [df |]; [| reflexivity].
  destruct (getcol name df); reflexivity.
Qed.

Create HintDb neutral.
#[local] Hint Resolve neutral_ret neutral_raise neutral_lift neutral_emit neutral_deref
  neutral_session_get neutral_selectbox neutral_download_button neutral_obj_getcol : neutral.

Section KeepsPage.
Variable h0 : gmap loc DataFrame.

(** One step of a straight-line script: a neutral operation, an allocation,
    or a branch on a value already computed. *)
Ltac keeps_leaf :=
  first [ apply keeps_neutral; solve [auto with neutral]
        | apply keeps_alloc
        | apply keeps_store; assumption ].

Ltac keeps_branch :=
  match goal with
  | |- keeps _ (if ?b then _ else _) _ => destruct b
  | |- keeps _ (match ?x with _ => _ end) _ => destruct x
  end.

Lemma keeps_new_from obj f : keeps h0 (new_from obj f) (fun l => l ∉ dom h0).
Proof using Type.
  unfold new_from.
  eapply keeps_bind; [keeps_leaf | intros df _].
  eapply keeps_bind; [keeps_leaf | intros df' _].
  apply keeps_alloc.
Qed.

Lemma keeps_obj_copy obj : keeps h0 (obj_copy obj) (fun l => l ∉ dom h0).
Proof using Type. apply keeps_new_from. Qed.

Lemma keeps_obj_setcol obj name col :
  obj ∉ dom h0 -> keeps h0 (obj_setcol obj name col) (fun _ => True).
Proof using Type.
  intros Hobj. unfold obj_setcol.
  eapply keeps_bind; [keeps_leaf | intros df _]. keeps_leaf.
Qed.

(** The column assignments of the growth adjustment change the copy only. *)
Lemma keeps_assign_scaled forecast new old rate :
  forecast ∉ dom h0 -> keeps h0 (assign_scaled forecast new old rate) (fun _ => True).
Proof using Type.
  intros Hobj. unfold assign_scaled.
  eapply keeps_bind; [keeps_leaf | intros col _].
  eapply keeps_bind; [keeps_leaf | intros col' _].
  now apply keeps_obj_setcol.
Qed.

(** The table to forecast from is a new object in both branches. *)
Lemma keeps_choose_forecast monthly_sales forecast_all category_forecast :
  keeps h0 (choose_forecast monthly_sales forecast_all category_forecast)
        (fun '(forecast, _) => forecast ∉ dom h0).
Proof using Type.
  unfold choose_forecast.
  eapply keeps_bind; [keeps_leaf | intros selected _].
  keeps_branch.
  - eapply keeps_bind; [apply keeps_obj_copy | intros forecast Hf].
    eapply keeps_bind; [apply keeps_new_from | intros actuals _].
    apply keeps_ret. exact Hf.
  - eapply keeps_bind; [keeps_leaf | intros mask _].
    eapply keeps_bind; [apply keeps_new_from | intros filtered _].
    eapply keeps_bind; [apply keeps_obj_copy | intros forecast Hf].
    apply keeps_ret. exact Hf.
Qed.

Ltac keeps_step :=
  first [ keeps_leaf
        | apply keeps_new_from
        | apply keeps_obj_copy
        | apply keeps_assign_scaled; assumption ].

Ltac keeps_run :=
  first
    [ keeps_step
    | keeps_branch; keeps_run
    | eapply keeps_bind; [keeps_run | intros ? ?; keeps_run] ].

Lemma keeps_select_category category_forecast :
  keeps h0 (select_category category_forecast) (fun _ => True).
Proof using Type. unfold select_category. keeps_run. Qed.

Lemma keeps_adjust_forecast forecast :
  forecast ∉ dom h0 -> keeps h0 (adjust_forecast forecast) (fun _ => True).
Proof using Type. intros Hf. unfold adjust_forecast. keeps_run. Qed.

Lemma keeps_kpi_summary forecast errors growth_adjustment :
  keeps h0 (kpi_summary forecast errors growth_adjustment) (fun _ => True).
Proof using Type.
  unfold kpi_summary.
  eapply keeps_bind; [apply keeps_new_from | intros future_6m _].
  eapply keeps_bind; [keeps_leaf | intros tail _].
  eapply keeps_bind; [keeps_leaf | intros total _].
  eapply keeps_bind; [keeps_leaf | intros errors_table _].
  eapply keeps_bind; [keeps_leaf | intros [best_model best_mae] _].
  keeps_run.
Qed.

Lemma keeps_forecast_plot forecast actuals :
  keeps h0 (forecast_plot forecast actuals) (fun _ => True).
Proof using Type.
  unfold forecast_plot, download_button_graph. keeps_run.
Qed.

Lemma keeps_forecast_table future_6m :
  keeps h0 (forecast_table future_6m) (fun _ => True).
Proof using Type.
  unfold forecast_table, download_button_dataframe. keeps_run.
Qed.

Lemma keeps_business_insights growth_adjustment :
  keeps h0 (business_insights growth_adjustment) (fun _ => True).
Proof using Type. unfold business_insights. keeps_run. Qed.

Lemma keeps_mainpage_body monthly_sales forecast_all category_forecast errors :
  keeps h0 (mainpage_body monthly_sales forecast_all category_forecast errors)
        (fun _ => True).
Proof using Type.
  unfold mainpage_body.
  eapply keeps_bind; [apply keeps_select_category | intros _ _].
  eapply keeps_bind; [apply keeps_choose_forecast | intros [forecast actuals] Hf].
  eapply keeps_bind; [now apply keeps_adjust_forecast | intros growth_adjustment _].
  eapply keeps_bind; [apply keeps_kpi_summary | intros future_6m _].
  eapply keeps_bind; [apply keeps_forecast_plot | intros _ _].
  eapply keeps_bind; [apply keeps_forecast_table | intros _ _].
  apply keeps_business_insights.
Qed.
End KeepsPage.

(** C10: whatever the session selects, the page body leaves every table
    that exists when it starts exactly as it is, the loaded aggregate and
    per-category forecasts among them: it copies before it adjusts, and
    writes the adjusted values to new columns of the copy. This holds
    however the run ends. *)
Theorem scenario_leaves_loaded_tables
    (monthly_sales forecast_all category_forecast errors : loc) (s : State) :
  heap s ⊆
  heap (final_state (mainpage_body monthly_sales forecast_all category_forecast errors s)).
Proof.
  apply (keeps_mainpage_body (heap s)). reflexivity.
Qed.

(** ** The page computes with the engine

    The page does not call [selectSeries] and [applyGrowth] by name: it
    binds [forecast] to a new object and assigns its columns one by one.
    What that object holds is what the two functions return. *)

Lemma run_bind {A B} (m : Script A) (f : A -> Script B) s a s' :
  m s = Returned a s' -> (m ≫= f) s = f a s'.
Proof. intros H. unfold mbind, script_bind. now rewrite H. Qed.

Lemma run_bind_raised {A B} (m : Script A) (f : A -> Script B) s e s' :
  m s = Raised e s' -> (m ≫= f) s = Raised e s'.
Proof. intros H. unfold mbind, script_bind. now rewrite H. Qed.

Lemma run_deref l df s : heap s !! l = Some df -> deref l s = Returned df s.
Proof. intros H. unfold deref. now rewrite H. Qed.

Lemma run_obj_getcol obj name df col s :
  heap s !! obj = Some df -> getcol name df = Ok col ->
  obj_getcol obj name s = Returned col s.
Proof.
  intros Hobj Hcol. unfold obj_getcol.
  rewrite (run_bind _ _ _ _ _ (run_deref _ _ _ Hobj)), Hcol. reflexivity.
Qed.

Lemma run_new_from obj f df df' s :
  heap s !! obj = Some df -> f df = Ok df' ->
  new_from obj f s =
    Returned (fresh (dom (heap s)))
      {| heap := <[fresh (dom (heap s)) := df']> (heap s);
         session := session s; screen := screen s |}.
Proof.
  intros Hobj Hf. unfold new_from.
  rewrite (run_bind _ _ _ _ _ (run_deref _ _ _ Hobj)), Hf. reflexivity.
Qed.

Lemma fresh_lookup (h : gmap loc DataFrame) : h !! fresh (dom h) = None.
Proof. apply not_elem_of_dom, is_fresh. Qed.

(** mainpage.py 74-83 is [selectSeries] on the tables the references hold,
    its result put in a new object. *)
Lemma choose_forecast_selectSeries
    (monthly_sales forecast_all category_forecast : loc)
    (sales agg cat S : DataFrame) (c : string) (s : State) :
  heap s !! monthly_sales = Some sales ->
  heap s !! forecast_all = Some agg ->
  heap s !! category_forecast = Some cat ->
  session s !! "selected_category" = Some (SStr c) ->
  selectSeries c agg cat = Ok S ->
  exists forecast actuals s',
    choose_forecast monthly_sales forecast_all category_forecast s =
      Returned (forecast, actuals) s' /\
    heap s' !! forecast = Some S /\
    heap s !! forecast = None /\
    heap s ⊆ heap s' /\
    session s' = session s /\ screen s' = screen s.
Proof.
  intros Hms Hfa Hcf Hsel HS.
  unfold choose_forecast, session_get, mbind at 1, script_bind at 1.
  rewrite Hsel. unfold sval_is. unfold selectSeries in HS.
  destruct (String.eqb c all_categories) eqn:Hall.
  - injection HS as <-.
    unfold obj_copy.
    erewrite run_bind; [| eapply run_new_from; [exact Hfa | reflexivity]].
    set (l1 := fresh (dom (heap s))).
    assert (Hl1 : heap s !! l1 = None) by apply fresh_lookup.
    assert (Hms' : <[l1 := agg]> (heap s) !! monthly_sales = Some sales).
    { rewrite lookup_insert_ne; [exact Hms | intros <-; congruence]. }
    erewrite run_bind; [| eapply run_new_from; [exact Hms' | reflexivity]].
    cbn [heap session screen].
    set (l2 := fresh (dom (<[l1 := agg]> (heap s)))).
    assert (Hl2 : <[l1 := agg]> (heap s) !! l2 = None) by apply fresh_lookup.
    eexists l1, _, _. split; [reflexivity |]. cbn [heap session screen].
    assert (Hne : l2 <> l1) by (intros E; rewrite E, lookup_insert_eq in Hl2; discriminate).
    repeat split; try assumption.
    + now rewrite lookup_insert_ne, lookup_insert_eq.
    + rewrite lookup_insert_ne in Hl2 by congruence.
      apply insert_subseteq_r; [exact Hl2 |]. now apply insert_subseteq.
  - apply bind_Ok in HS as (col & Hcol & [= <-]).
    rewrite (run_bind _ _ _ _ _ (run_obj_getcol _ _ _ _ _ Hcf Hcol)).
    erewrite run_bind; [| eapply run_new_from; [exact Hcf | reflexivity]].
    set (l1 := fresh (dom (heap s))).
    assert (Hl1 : heap s !! l1 = None) by apply fresh_lookup.
    unfold obj_copy.
    erewrite run_bind;
      [| eapply run_new_from; [cbn [heap]; apply lookup_insert_eq | reflexivity]].
    cbn [heap session screen].
    set (F := df_filter (map (cell_eq_sval (SStr c)) col) cat).
    set (l2 := fresh (dom (<[l1 := F]> (heap s)))).
    assert (Hl2 : <[l1 := F]> (heap s) !! l2 = None) by apply fresh_lookup.
    assert (Hne : l2 <> l1) by (intros E; rewrite E, lookup_insert_eq in Hl2; discriminate).
    eexists l2, _, _. split; [reflexivity |]. cbn [heap session screen].
    rewrite lookup_insert_ne in Hl2 by congruence.
    repeat split.
    + now rewrite lookup_insert_eq.
    + exact Hl2.
    + apply insert_subseteq_r; [exact Hl2 |]. now apply insert_subseteq.
Qed.

Lemma run_assign_scaled forecast new old r S col col' s :
  heap s !! forecast = Some S ->
  getcol old S = Ok col ->
  col_mul (1 + r)%float col = Ok col' ->
  assign_scaled forecast new old r s =
    Returned tt {| heap := <[forecast := setcol new col' S]> (heap s);
                   session := session s; screen := screen s |}.
Proof.
  intros Hobj Hcol Hmul. unfold assign_scaled.
  rewrite (run_bind _ _ _ _ _ (run_obj_getcol _ _ _ _ _ Hobj Hcol)), Hmul.
  erewrite run_bind; [| reflexivity].
  unfold obj_setcol.
  rewrite (run_bind _ _ _ _ _ (run_deref _ _ _ Hobj)). reflexivity.
Qed.

(** mainpage.py 101-103 is [applyGrowth] on the table [forecast] refers to,
    which then holds the result. *)
Lemma assign_scaled_applyGrowth {A} (k : Script A)
    (forecast : loc) (r : float) (S S' : DataFrame) (s : State) :
  heap s !! forecast = Some S ->
  applyGrowth S r = Ok S' ->
  (assign_scaled forecast "yhat_adj" "yhat" r;;
   assign_scaled forecast "yhat_lower_adj" "yhat_lower" r;;
   assign_scaled forecast "yhat_upper_adj" "yhat_upper" r;;
   k) s =
  k {| heap := <[forecast := S']> (heap s); session := session s; screen := screen s |}.
Proof.
  intros Hobj Happ. unfold applyGrowth in Happ.
  apply bind_Ok in Happ as (c1 & Hc1 & Happ). apply bind_Ok in Happ as (c1' & Hm1 & Happ).
  apply bind_Ok in Happ as (c2 & Hc2 & Happ). apply bind_Ok in Happ as (c2' & Hm2 & Happ).
  apply bind_Ok in Happ as (c3 & Hc3 & Happ). apply bind_Ok in Happ as (c3' & Hm3 & [= <-]).
  erewrite run_bind; [| eapply run_assign_scaled; eassumption].
  erewrite run_bind;
    [| eapply run_assign_scaled; [cbn [heap]; apply lookup_insert_eq | eassumption | eassumption]].
  erewrite run_bind;
    [| eapply run_assign_scaled; [cbn [heap]; apply lookup_insert_eq | eassumption | eassumption]].
  cbn [heap session screen]. now rewrite !insert_insert_eq.
Qed.

Lemma run_session_get key v s :
  session s !! key = Some v -> session_get key s = Returned v s.
Proof. intros H. unfold session_get. now rewrite H. Qed.

(** mainpage.py 85-103 on a table for which [applyGrowth] succeeds. *)
Lemma run_adjust_forecast (forecast : loc) (name : string) (r : float)
    (S S' : DataFrame) (s : State) :
  heap s !! forecast = Some S ->
  selectbox_value (map fst scenario_map) 1 (session s !! "selected_scenario") = SStr name ->
  assoc name scenario_map = Some r ->
  applyGrowth S r = Ok S' ->
  adjust_forecast forecast s =
    Returned r
      {| heap := <[forecast := S']> (heap s);
         session := <["selected_scenario" := SStr name]> (session s);
         screen := screen s ++
           [ st_subheader "What-If Growth Scenario";
             st_selectbox "Select expected growth scenario" (map fst scenario_map)
                          "selected_scenario" ] |}.
Proof.
  intros Hobj Hsel Hrate Happ. unfold adjust_forecast.
  erewrite run_bind; [| reflexivity].
  erewrite run_bind; [| reflexivity].
  cbn [heap session screen]. rewrite Hsel.
  erewrite run_bind; [| apply run_session_get; cbn [session]; apply lookup_insert_eq].
  unfold scenario_rate. rewrite Hrate.
  erewrite run_bind; [| reflexivity].
  erewrite assign_scaled_applyGrowth; [| exact Hobj | exact Happ].
  cbn [heap session screen]. rewrite <- app_assoc. reflexivity.
Qed.

(** mainpage.py 105-116 on an adjusted table and an error table with a
    best model: the four metrics carry the engine's values. *)
Lemma run_kpi_summary (forecast errors : loc) (g total mae : float)
    (S' errs : DataFrame) (best_model : Cell) (selected : SVal) (s : State) :
  heap s !! forecast = Some S' ->
  heap s !! errors = Some errs ->
  session s !! "selected_category" = Some selected ->
  summarize (tailWindow 6 S') = Ok total ->
  bestModel errs = Ok (best_model, Scalar (CFloat mae)) ->
  kpi_summary forecast errors g s =
    Returned (fresh (dom (heap s)))
      {| heap := <[fresh (dom (heap s)) := tailWindow 6 S']> (heap s);
         session := session s;
         screen := screen s ++
           [ st_columns 4;
             st_metric "Category" [Val selected];
             st_metric "Next 6 Months Forecast" [Num ",.0f" total];
             st_metric "Growth Assumption" [Num ".0f" (g * 100)%float; Lit "%"];
             st_metric "Model Used" [Label best_model; Lit " (MAE "; Num ".2f" mae; Lit ")"];
             st_divider ] |}.
Proof.
  intros Hf He Hsel Hsum Hbest. unfold kpi_summary.
  erewrite run_bind; [| eapply run_new_from; [exact Hf | reflexivity]].
  set (l := fresh (dom (heap s))).
  assert (Hl : heap s !! l = None) by apply fresh_lookup.
  erewrite run_bind; [| apply run_deref; cbn [heap]; apply lookup_insert_eq].
  rewrite Hsum. erewrite run_bind; [| reflexivity].
  erewrite run_bind;
    [| apply run_deref; cbn [heap]; rewrite lookup_insert_ne; [exact He | congruence]].
  rewrite Hbest. erewrite run_bind; [| reflexivity]. cbv beta iota.
  erewrite run_bind; [| reflexivity].
  erewrite run_bind; [| apply run_session_get; exact Hsel].
  erewrite run_bind; [| reflexivity].
  erewrite run_bind; [| reflexivity].
  erewrite run_bind; [| reflexivity].
  erewrite run_bind; [| reflexivity].
  erewrite run_bind; [| reflexivity].
  erewrite run_bind; [| reflexivity].
  cbn [heap session screen]. rewrite <- !app_assoc. reflexivity.
Qed.

(** mainpage.py 53-71 on a per-category table with categories to offer. *)
Lemma run_select_category (category_forecast : loc) (cat : DataFrame)
    (options : list string) (s : State) :
  heap s !! category_forecast = Some cat ->
  categories cat = Ok options ->
  select_category category_forecast s =
    Returned tt
      {| heap := heap s;
         session := <["selected_category" :=
                       selectbox_value options 0 (session s !! "selected_category")]> (session s);
         screen := screen s ++
           [ st_set_page_config page_title; st_sidebar_header page_title;
             st_title page_title; st_subheader "Category Selection";
             st_selectbox "Select product category" options "selected_category" ] |}.
Proof.
  intros Hcf Hcats. unfold select_category.
  do 4 (erewrite run_bind; [| reflexivity]).
  erewrite run_bind; [| apply run_deref; exact Hcf].
  rewrite Hcats. erewrite run_bind; [| reflexivity].
  unfold selectbox. cbn [heap session screen]. rewrite <- !app_assoc. reflexivity.
Qed.

(** ** The screen only grows *)

Lemma appends_bind {A B} (m : Script A) (f : A -> Script B) :
  appends m -> (forall a, appends (f a)) -> appends (m ≫= f).
Proof.
  intros Hm Hf s. specialize (Hm s). unfold mbind, script_bind.
  destruct (m s) as [a s1 | s1 | e s1]; cbn in Hm |- *; try exact Hm.
  etransitivity; [exact Hm | apply Hf].
Qed.

Lemma appends_same {A} (m : Script A) :
  (forall s, screen (final_state (m s)) = screen s) -> appends m.
Proof. intros H s. now rewrite H. Qed.

Lemma appends_one {A} (m : Script A) w :
  (forall s, screen (final_state (m s)) = screen s ++ [w]) -> appends m.
Proof. intros H s. rewrite H. now apply prefix_app_r. Qed.

Lemma appends_ret {A} (a : A) : appends (mret a : Script A).
Proof. now apply appends_same. Qed.

Lemma appends_raise {A} e : appends (raise e : Script A).
Proof. now apply appends_same. Qed.

Lemma appends_lift {A} (r : result A) : appends (lift r).
Proof. apply appends_same. intros s. destruct r; reflexivity. Qed.

Lemma appends_emit w : appends (emit w).
Proof. now apply (appends_one _ w). Qed.

Lemma appends_alloc df : appends (alloc df).
Proof. now apply appends_same. Qed.

Lemma appends_store l df : appends (store l df).
Proof. now apply appends_same. Qed.

Lemma appends_deref l : appends (deref l).
Proof. apply appends_same. intros s. unfold deref. destruct (heap s !! l); reflexivity. Qed.

Lemma appends_session_get key : appends (session_get key).
Proof.
  apply appends_same. intros s. unfold session_get. destruct (session s !! key); reflexivity.
Qed.

Lemma appends_download_button label data file_name key :
  appends (download_button label data file_name key).
Proof. now eapply appends_one. Qed.

Create HintDb appends.
#[local] Hint Resolve appends_ret appends_raise appends_lift appends_emit appends_alloc
  appends_store appends_deref appends_session_get appends_download_button : appends.

Ltac appends_run :=
  repeat first
    [ solve [auto with appends]
    | apply appends_bind; [| intros ?]
    | match goal with
      | |- appends (if ?b then _ else _) => destruct b
      | |- appends (match ?x with _ => _ end) => destruct x
      end ].

Lemma appends_forecast_plot forecast actuals : appends (forecast_plot forecast actuals).
Proof.
  unfold forecast_plot, download_button_graph, obj_getcol. appends_run.
Qed.

Lemma appends_forecast_table future_6m : appends (forecast_table future_6m).
Proof.
  unfold forecast_table, download_button_dataframe, obj_copy, new_from. appends_run.
Qed.

Lemma appends_business_insights g : appends (business_insights g).
Proof. unfold business_insights. appends_run. Qed.

Lemma elem_of_prefix {A} (l1 l2 : list A) (x : A) :
  l1 `prefix_of` l2 -> x ∈ l1 -> x ∈ l2.
Proof. intros [k ->] Hx. apply elem_of_app. now left. Qed.

(** The page, end to end: with the tables loaded, the metrics it shows are
    the engine's values for the category and scenario the session selects:
    the total is summarize(tailWindow(applyGrowth(selectSeries(...), rate),
    6)) and the model is bestModel's. *)
Lemma mainpage_shows_engine_values
    (monthly_sales forecast_all category_forecast errors : loc)
    (sales agg cat errs S S' : DataFrame) (options : list string)
    (c name : string) (r total mae : float) (best_model : Cell) (s : State) :
  heap s !! monthly_sales = Some sales ->
  heap s !! forecast_all = Some agg ->
  heap s !! category_forecast = Some cat ->
  heap s !! errors = Some errs ->
  categories cat = Ok options ->
  selectbox_value options 0 (session s !! "selected_category") = SStr c ->
  selectbox_value (map fst scenario_map) 1 (session s !! "selected_scenario") = SStr name ->
  assoc name scenario_map = Some r ->
  selectSeries c agg cat = Ok S ->
  applyGrowth S r = Ok S' ->
  summarize (tailWindow 6 S') = Ok total ->
  bestModel errs = Ok (best_model, Scalar (CFloat mae)) ->
  let shown :=
    screen (final_state
              (mainpage_body monthly_sales forecast_all category_forecast errors s)) in
  st_metric "Next 6 Months Forecast" [Num ",.0f" total] ∈ shown /\
  st_metric "Model Used" [Label best_model; Lit " (MAE "; Num ".2f" mae; Lit ")"] ∈ shown.
Proof.
  intros Hms Hfa Hcf Her Hcats Hselc Hsels Hrate HS HS' Htotal Hbest shown.
  unfold shown, mainpage_body. clear shown.
  erewrite run_bind; [| eapply run_select_category; eassumption].
  rewrite Hselc. cbv beta.
  match goal with |- context [(choose_forecast _ _ _ ≫= _) ?st] => set (s1 := st) end.
  destruct (choose_forecast_selectSeries monthly_sales forecast_all category_forecast
              sales agg cat S c s1 Hms Hfa Hcf (lookup_insert_eq _ _ _) HS)
    as (forecast & actuals & s2 & Hrun & HfS & Hfnone & Hsub & Hsess & Hscr).
  erewrite run_bind; [| exact Hrun]. cbv beta iota.
  assert (Hsels2 : selectbox_value (map fst scenario_map) 1
                     (session s2 !! "selected_scenario") = SStr name).
  { rewrite Hsess. unfold s1; cbn [session].
    rewrite lookup_insert_ne by distinct_names. exact Hsels. }
  erewrite run_bind; [| eapply run_adjust_forecast; eassumption]. cbv beta.
  assert (Her2 : heap s2 !! errors = Some errs).
  { eapply lookup_weaken; [| exact Hsub]. exact Her. }
  assert (Hne : errors <> forecast).
  { intros ->. unfold s1 in Hfnone; cbn [heap] in Hfnone. congruence. }
  erewrite run_bind;
    [| eapply run_kpi_summary;
       [ cbn [heap]; apply lookup_insert_eq
       | cbn [heap]; rewrite lookup_insert_ne by congruence; exact Her2
       | cbn [session]; rewrite lookup_insert_ne by distinct_names;
         rewrite Hsess; unfold s1; cbn [session]; apply lookup_insert_eq
       | exact Htotal
       | exact Hbest ]].
  cbv beta.
  match goal with |- context [(_ ≫= _) ?st] => set (s4 := st) end.
  assert (Hgrow : screen s4 `prefix_of`
                  screen (final_state
                    ((forecast_plot forecast actuals;;
                      forecast_table (fresh (dom (<[forecast := S']> (heap s2))));;
                      business_insights r) s4))).
  { apply appends_bind; [apply appends_forecast_plot | intros _].
    apply appends_bind; [apply appends_forecast_table | intros _].
    apply appends_business_insights. }
  split; (eapply elem_of_prefix; [exact Hgrow |]);
    unfold s4; cbn [screen]; apply elem_of_app; right;
    apply list_elem_of_In; cbn; tauto.
Qed.

(** The specification's end-to-end example, run on the sample artifact: all
    categories, the Aggressive scenario, a total of 720 and model B. *)
Lemma mainpage_aggressive_example :
  let shown :=
    screen (final_state
              (mainpage sample_artifact
                 (fresh_run {["selected_scenario" := SStr "Aggressive (+20%)"]}))) in
  st_metric "Next 6 Months Forecast" [Num ",.0f" 720] ∈ shown /\
  st_metric "Model Used" [Label (CStr "B"); Lit " (MAE "; Num ".2f" 3; Lit ")"] ∈ shown.
Proof.
  split; apply list_elem_of_In; vm_compute; tauto.
Qed.

(** * Further properties of the two pages *)

(** ** The business insight *)

Lemma frank_zero : frank 0 = 0.
Proof. reflexivity. Qed.

Lemma frank_threshold : 0 < frank 0.15.
Proof. vm_compute. reflexivity. Qed.

(** X1: the insight under the forecast table is a warning exactly when the
    growth rate is negative, the success message exactly when it is at least
    0.15, and the moderate-growth note exactly when it is positive and below
    0.15; a rate that is NaN gets the baseline message. *)
Theorem business_insight_by_sign (g : float) :
  (business_insight g =
     st_warning "Conservative scenario selected. Focus on cost control and promotions."
   <-> flt g 0) /\
  (business_insight g =
     st_success [Lit "Aggressive growth scenario selected. Plan for higher inventory and operational capacity."]
   <-> fle 0.15 g) /\
  (business_insight g = st_info "Moderate growth expected. Gradual scaling recommended."
   <-> flt 0 g /\ flt g 0.15) /\
  (is_nan g = true ->
   business_insight g = st_info "Baseline scenario selected. Maintain current strategy.").
Proof.
  pose proof frank_zero as Z0. pose proof frank_threshold as T.
  unfold business_insight, fle, flt.
  destruct (0.15 <=? g)%float eqn:E1; [| destruct (0 <? g)%float eqn:E2;
    [| destruct (g <? 0)%float eqn:E3]];
  (split; [split; intros H | split; [split; intros H | split;
     [split; [intros H | intros [H H']] | intros H]]]);
  try (discriminate || reflexivity || congruence).
  all: repeat match goal with
       | H : (_ <=? _)%float = true |- _ => apply leb_rank in H as (? & ? & ?)
       | H : (_ <? _)%float = true |- _ => apply ltb_rank in H as (? & ? & ?)
       end; try lia; try congruence.
  split; [reflexivity |].
  apply ltb_rank. split; [assumption | split; [reflexivity |]].
  destruct (Z.lt_ge_cases (frank g) (frank 0.15)) as [Hlt | Hge]; [exact Hlt |].
  assert (Hle : (0.15 <=? g)%float = true)
    by (apply leb_rank; split; [reflexivity | split; [assumption | lia]]).
  congruence.
Qed.

(** ** The categories on offer, in order *)

Lemma str_le_total (a b : string) : str_le a b \/ str_le b a.
Proof. apply String.leb_total. Qed.

Lemma unique_from_NoDup (seen l : list string) : NoDup (unique_from seen l).
Proof.
  revert seen. induction l as [| x l IH]; intros seen; cbn; [constructor |].
  destruct (bool_decide (x ∈ seen)); [apply IH |].
  constructor; [| apply IH].
  rewrite unique_from_elem. intros [_ H]. apply H. left.
Qed.

Lemma sorted_NoDup (l : list string) : NoDup l -> NoDup (sorted l).
Proof.
  intros H. unfold sorted. now rewrite merge_sort_Permutation.
Qed.

(** X2: the options of the category selector are "All Categories" followed
    by the labels of the Category column, each once, in ascending order of
    their characters; a label is offered exactly when some row carries it. *)
Theorem categories_sorted_distinct
    (cat : DataFrame) (col : Column) (options : list string) :
  getcol "Category" cat = Ok col ->
  categories cat = Ok options ->
  exists rest,
    options = all_categories :: rest /\
    Sorted str_le rest /\
    NoDup rest /\
    (forall c, c ∈ rest <-> CStr c ∈ col).
Proof.
  intros Hcol H. unfold categories in H. rewrite Hcol in H. cbn in H.
  apply bind_Ok in H as (names & Hnames & [= <-]).
  apply col_strings_Ok in Hnames. subst col.
  exists (sorted (unique names)). split; [reflexivity |].
  split; [apply (@Sorted_merge_sort _ str_le _ str_le_total) |].
  split; [apply sorted_NoDup, unique_from_NoDup |].
  intros c. rewrite sorted_elem, unique_elem, elem_of_map. split.
  - intros Hc. exists c. now split.
  - intros (x & [= ->] & Hx). exact Hx.
Qed.

Lemma categories_sorted_distinct_witness :
  getcol "Category" sample_category_forecast =
    Ok [CStr "Technology"; CStr "Office Supplies"; CStr "Technology"; CStr "Office Supplies"] /\
  categories sample_category_forecast =
    Ok ["All Categories"; "Office Supplies"; "Technology"] /\
  exists rest,
    ["All Categories"; "Office Supplies"; "Technology"] = all_categories :: rest /\
    Sorted str_le rest /\
    NoDup rest /\
    (forall c, c ∈ rest <->
       CStr c ∈ [CStr "Technology"; CStr "Office Supplies";
                 CStr "Technology"; CStr "Office Supplies"]).
Proof.
  assert (H1 : getcol "Category" sample_category_forecast =
    Ok [CStr "Technology"; CStr "Office Supplies"; CStr "Technology"; CStr "Office Supplies"])
    by reflexivity.
  assert (H2 : categories sample_category_forecast =
    Ok ["All Categories"; "Office Supplies"; "Technology"]) by (vm_compute; reflexivity).
  exact (conj H1 (conj H2 (categories_sorted_distinct _ _ _ H1 H2))).
Defined.

(** ** Scenarios against each other *)

Lemma SFmul_comm x y : SF64mul x y = SF64mul y x.
Proof.
  unfold SF64mul.
  destruct x as [sx | sx | | sx mx ex], y as [sy | sy | | sy my ey]; cbn [SFmul];
    rewrite ?(xorb_comm sx sy); try reflexivity.
  now rewrite (Pos.mul_comm mx my), (Z.add_comm ex ey).
Qed.

Lemma mul_comm (x y : float) : (x * y)%float = (y * x)%float.
Proof.
  apply Prim2SF_inj. rewrite !FloatAxioms.mul_spec. apply SFmul_comm.
Qed.

(** A number that is not negative, times a larger positive factor, is not
    smaller. *)
Lemma mul_nonneg_mono (x c1 c2 : float) :
  fle 0 x -> positive_finite c1 -> positive_finite c2 -> fle c1 c2 ->
  fle (x * c1) (x * c2).
Proof.
  unfold fle. intros Hx Hc1 Hc2 Hle.
  pose proof Hx as Hx'. apply leb_rank in Hx' as (_ & Nx & Rx).
  change (frank 0) with 0 in Rx. unfold frank in Rx.
  pose proof (Prim2SF_valid x) as Vx.
  destruct (Prim2SF x) as [s | s | | s m e] eqn:Ex.
  - destruct Hc1 as (m1 & e1 & E1), Hc2 as (m2 & e2 & E2).
    apply leb_rank. rewrite !is_nan_false. unfold frank.
    rewrite !FloatAxioms.mul_spec, Ex, E1, E2. unfold SF64mul. cbn.
    repeat split; (discriminate || lia).
  - assert (s = false) as ->.
    { destruct s; [| reflexivity]. cbn in Rx. unfold rank_inf, two52 in Rx. lia. }
    destruct Hc1 as (m1 & e1 & E1), Hc2 as (m2 & e2 & E2).
    apply leb_rank. rewrite !is_nan_false. unfold frank.
    rewrite !FloatAxioms.mul_spec, Ex, E1, E2. unfold SF64mul. cbn.
    repeat split; (discriminate || lia).
  - apply is_nan_false in Nx. congruence.
  - assert (s = false) as ->.
    { destruct s; [| reflexivity]. cbn [valid_binary] in Vx.
      apply bounded_inv in Vx as (_ & He & _).
      cbn in Rx. unfold rankqe, two52 in Rx. lia. }
    rewrite (mul_comm x c1), (mul_comm x c2).
    apply mul_pos_mono; [| exact Hle]. now exists m, e.
Qed.

Lemma scenario_factor_mono n1 r1 n2 r2 :
  assoc n1 scenario_map = Some r1 -> assoc n2 scenario_map = Some r2 ->
  fle r1 r2 -> fle (1 + r1) (1 + r2).
Proof.
  unfold scenario_map, fle; cbn [assoc].
  repeat (destruct (String.eqb n1 _); [intros [= <-] |]); try discriminate;
    (repeat (destruct (String.eqb n2 _); [intros [= <-] |]); try discriminate);
    intros H; first [reflexivity | vm_compute in H; discriminate H].
Qed.

(** X3: of two scenarios of the map, the one with the larger rate never
    gives a smaller adjusted estimate for a month whose forecast is not
    negative, whatever the other months of the series are: the two adjusted
    series have the months of the forecast in its order, and in every month
    whose point estimate is at least zero the estimates are ordered as the
    rates are. *)
Theorem larger_scenario_is_not_smaller
    (S : DataFrame) (pts : list ForecastPoint) (n1 n2 : string) (r1 r2 : float) :
  forecast_series S = Ok pts ->
  assoc n1 scenario_map = Some r1 ->
  assoc n2 scenario_map = Some r2 ->
  fle r1 r2 ->
  exists S1 S2 a1 a2,
    applyGrowth S r1 = Ok S1 /\ applyGrowth S r2 = Ok S2 /\
    adjusted_series S1 = Ok a1 /\ adjusted_series S2 = Ok a2 /\
    map timestamp a1 = map timestamp pts /\
    map timestamp a2 = map timestamp pts /\
    (forall i p, pts !! i = Some p -> fle 0 (pointEstimate p) ->
       exists q1 q2,
         a1 !! i = Some q1 /\ a2 !! i = Some q2 /\
         fle (pointEstimate q1) (pointEstimate q2)).
Proof.
  intros Hpts H1 H2 Hle.
  destruct (applyGrowth_spec S r1 pts Hpts) as (S1 & HS1 & Ha1 & _).
  destruct (applyGrowth_spec S r2 pts Hpts) as (S2 & HS2 & Ha2 & _).
  exists S1, S2, (map (scale_point r1) pts), (map (scale_point r2) pts).
  repeat (split; [assumption |]).
  split; [| split].
  - rewrite map_map. reflexivity.
  - rewrite map_map. reflexivity.
  - intros i p Hi Hp.
    exists (scale_point r1 p), (scale_point r2 p).
    rewrite !list_lookup_fmap, Hi. repeat split. cbn.
    apply mul_nonneg_mono; [exact Hp | | |].
    + eapply scenario_rate_positive; eassumption.
    + eapply scenario_rate_positive; eassumption.
    + eapply scenario_factor_mono; eassumption.
Qed.

Lemma larger_scenario_is_not_smaller_witness :
  forecast_series sample_forecast = Ok sample_points /\
  fle (-0.10) 0.20 /\
  exists S1 S2 a1 a2,
    applyGrowth sample_forecast (-0.10) = Ok S1 /\
    applyGrowth sample_forecast 0.20 = Ok S2 /\
    adjusted_series S1 = Ok a1 /\ adjusted_series S2 = Ok a2 /\
    map timestamp a1 = map timestamp sample_points /\
    map timestamp a2 = map timestamp sample_points /\
    (forall i p, sample_points !! i = Some p -> fle 0 (pointEstimate p) ->
       exists q1 q2,
         a1 !! i = Some q1 /\ a2 !! i = Some q2 /\
         fle (pointEstimate q1) (pointEstimate q2)).
Proof.
  assert (H1 : forecast_series sample_forecast = Ok sample_points) by reflexivity.
  assert (H3 : fle (-0.10) 0.20) by reflexivity.
  exact (conj H1 (conj H3
    (larger_scenario_is_not_smaller sample_forecast sample_points
       "Conservative (-10%)" "Aggressive (+20%)" (-0.10) 0.20
       H1 eq_refl eq_refl H3))).
Defined.

(** ** What the adjustment touches *)

Lemma col_mul_length k col col' : col_mul k col = Ok col' -> length col' = length col.
Proof.
  revert col'. induction col as [| c col IH]; cbn; intros col' H.
  - now injection H as <-.
  - apply bind_Ok in H as (c' & _ & H). apply bind_Ok in H as (r' & Hr & [= <-]).
    cbn. f_equal. auto.
Qed.

Lemma assoc_set_Forall {A} (P : string * A -> Prop) k a (l : list (string * A)) :
  (forall k', P (k', a)) -> Forall P l -> Forall P (assoc_set k a l).
Proof.
  intros Ha. induction 1 as [| [k' a'] l Hx Hl IH]; cbn.
  - repeat constructor. apply Ha.
  - destruct (String.eqb k k'); constructor; auto.
Qed.

Lemma wf_frame_setcol name col df :
  wf_frame df -> length col = nrows df -> wf_frame (setcol name col df).
Proof.
  intros Hwf Hlen. unfold wf_frame, setcol, nrows in *; cbn.
  apply assoc_set_Forall; [intros k'; exact Hlen | exact Hwf].
Qed.

Lemma assoc_set_names {A} k (a a0 : A) (l : list (string * A)) :
  assoc k l = Some a0 -> map fst (assoc_set k a l) = map fst l.
Proof.
  induction l as [| [k' a'] l IH]; cbn; [discriminate |].
  destruct (String.eqb k k'); cbn; [reflexivity |].
  intros H. f_equal. auto.
Qed.

Lemma setcol_names name col df col0 :
  getcol name df = Ok col0 ->
  map fst (columns (setcol name col df)) = map fst (columns df).
Proof.
  intros H. apply getcol_Ok in H. unfold setcol; cbn. eapply assoc_set_names. exact H.
Qed.

(** The three assignments, one after the other. *)
Lemma applyGrowth_steps S r S' :
  applyGrowth S r = Ok S' ->
  exists e l u e' l' u',
    getcol "yhat" S = Ok e /\ col_mul (1 + r)%float e = Ok e' /\
    getcol "yhat_lower" S = Ok l /\ col_mul (1 + r)%float l = Ok l' /\
    getcol "yhat_upper" S = Ok u /\ col_mul (1 + r)%float u = Ok u' /\
    S' = setcol "yhat_upper_adj" u' (setcol "yhat_lower_adj" l' (setcol "yhat_adj" e' S)).
Proof.
  intros H. unfold applyGrowth in H.
  apply bind_Ok in H as (e & He & H). apply bind_Ok in H as (e' & He' & H).
  apply bind_Ok in H as (l & Hl & H). apply bind_Ok in H as (l' & Hl' & H).
  apply bind_Ok in H as (u & Hu & H). apply bind_Ok in H as (u' & Hu' & [= <-]).
  revert Hl Hu. read_column. intros Hl Hu.
  exists e, l, u, e', l', u'. repeat split; assumption.
Qed.

(** X4: the growth adjustment writes the three adjusted columns and nothing
    else: the row labels and every other column of the table (the dates, the
    category, the base forecast and its bounds) are as before, and a table
    whose columns all have the length of its index stays such a table. *)
Theorem applyGrowth_touches_adjusted_only (S S' : DataFrame) (r : float) :
  applyGrowth S r = Ok S' ->
  index S' = index S /\
  (forall name,
     name <> "yhat_adj" -> name <> "yhat_lower_adj" -> name <> "yhat_upper_adj" ->
     getcol name S' = getcol name S) /\
  (wf_frame S -> wf_frame S' /\ nrows S' = nrows S).
Proof.
  intros H.
  apply applyGrowth_steps in H as (e & l & u & e' & l' & u' & He & He' & Hl & Hl' & Hu & Hu' & ->).
  split; [reflexivity |]. split.
  - intros name N1 N2 N3. now rewrite !getcol_setcol_ne.
  - intros Hwf. split; [| reflexivity].
    apply col_mul_length in He', Hl', Hu'.
    pose proof (wf_frame_getcol _ _ _ Hwf He).
    pose proof (wf_frame_getcol _ _ _ Hwf Hl).
    pose proof (wf_frame_getcol _ _ _ Hwf Hu).
    repeat apply wf_frame_setcol; try assumption; unfold nrows in *; cbn; congruence.
Qed.

Lemma applyGrowth_touches_adjusted_only_witness :
  exists S',
    applyGrowth sample_category_forecast 0.10 = Ok S' /\
    index S' = index sample_category_forecast /\
    (forall name,
       name <> "yhat_adj" -> name <> "yhat_lower_adj" -> name <> "yhat_upper_adj" ->
       getcol name S' = getcol name sample_category_forecast) /\
    (wf_frame sample_category_forecast ->
     wf_frame S' /\ nrows S' = nrows sample_category_forecast).
Proof.
  eexists. split; [reflexivity |].
  apply (applyGrowth_touches_adjusted_only sample_category_forecast _ 0.10). reflexivity.
Defined.

(** X5: adjusting a table that was adjusted before does not compound: the
    adjusted columns are computed from the base columns again, so the
    adjusted series is the base series scaled by the second rate alone, and
    no column is added to those of the first adjustment. *)
Theorem applyGrowth_again_replaces
    (S : DataFrame) (pts : list ForecastPoint) (r1 r2 : float) :
  forecast_series S = Ok pts ->
  exists S1 S2,
    applyGrowth S r1 = Ok S1 /\
    applyGrowth S1 r2 = Ok S2 /\
    adjusted_series S2 = Ok (map (scale_point r2) pts) /\
    forecast_series S2 = Ok pts /\
    map fst (columns S2) = map fst (columns S1).
Proof.
  intros Hpts.
  destruct (applyGrowth_spec S r1 pts Hpts) as (S1 & HS1 & Ha1 & Hf1 & _).
  destruct (applyGrowth_spec S1 r2 pts Hf1) as (S2 & HS2 & Ha2 & Hf2 & _).
  exists S1, S2. repeat (split; [assumption |]).
  apply series_view_Ok in Ha1 as (ds & e & l & u & _ & He & Hl & Hu & _).
  apply applyGrowth_steps in HS2 as (? & ? & ? & e' & l' & u' & _ & _ & _ & _ & _ & _ & ->).
  erewrite setcol_names; [| read_column; exact Hu].
  erewrite setcol_names; [| read_column; exact Hl].
  erewrite setcol_names; [| exact He]. reflexivity.
Qed.

Lemma applyGrowth_again_replaces_witness :
  forecast_series sample_forecast = Ok sample_points /\
  exists S1 S2,
    applyGrowth sample_forecast 0.20 = Ok S1 /\
    applyGrowth S1 (-0.10) = Ok S2 /\
    adjusted_series S2 = Ok (map (scale_point (-0.10)) sample_points) /\
    forecast_series S2 = Ok sample_points /\
    map fst (columns S2) = map fst (columns S1).
Proof.
  assert (H1 : forecast_series sample_forecast = Ok sample_points) by reflexivity.
  exact (conj H1 (applyGrowth_again_replaces sample_forecast sample_points 0.20 (-0.10) H1)).
Defined.

(** ** Rows of one category *)

Lemma select_rows_filter {A} (f : A -> bool) (l : list A) :
  select_rows (map f l) l = List.filter f l.
Proof.
  induction l as [| x l IH]; cbn; [reflexivity |].
  destruct (f x); now rewrite IH.
Qed.

Lemma select_rows_length {A} (mask : list bool) (l : list A) :
  length l = length mask ->
  length (select_rows mask l) = length (List.filter (fun b => b) mask).
Proof.
  revert l. induction mask as [| b mask IH]; intros [| x l] Hlen; cbn in *;
    try reflexivity; try discriminate.
  destruct b; cbn; rewrite IH by lia; reflexivity.
Qed.

Lemma wf_frame_df_filter mask df :
  wf_frame df -> length mask = nrows df -> wf_frame (df_filter mask df).
Proof.
  unfold wf_frame, df_filter, nrows; cbn. intros Hwf Hlen.
  apply List.Forall_map. eapply Forall_impl; [exact Hwf |].
  intros [k c] Hc; cbn in *. rewrite !select_rows_length by lia. reflexivity.
Qed.

(** X6: for a category other than "All Categories", the series selected from
    a well-formed per-category table holds rows of that category only: its
    Category column is the rows of the table's Category column that carry
    the label, every cell of it is the label, and the series has as many rows
    as the table has rows with the label, each column as long. *)
Theorem selectSeries_rows_of_category
    (category : string) (agg cat : DataFrame) (col : Column) :
  category <> all_categories ->
  wf_frame cat ->
  getcol "Category" cat = Ok col ->
  exists S kept,
    selectSeries category agg cat = Ok S /\
    getcol "Category" S = Ok kept /\
    kept = List.filter (cell_eq_str category) col /\
    Forall (fun c => c = CStr category) kept /\
    nrows S = length kept /\
    wf_frame S.
Proof.
  intros Hne Hwf Hcol.
  pose proof (wf_frame_getcol _ _ _ Hwf Hcol) as Hlen.
  exists (df_filter (map (cell_eq_str category) col) cat),
         (List.filter (cell_eq_str category) col).
  split; [| split; [| split; [| split; [| split]]]].
  - unfold selectSeries. apply String.eqb_neq in Hne. now rewrite Hne, Hcol.
  - rewrite (getcol_df_filter _ _ _ _ Hcol). now rewrite select_rows_filter.
  - reflexivity.
  - apply List.Forall_forall. intros c Hc. apply List.filter_In in Hc as [_ Hc].
    now apply cell_eq_str_true.
  - unfold nrows, df_filter; cbn.
    rewrite <- select_rows_filter.
    rewrite !select_rows_length; [reflexivity | |]; rewrite List.length_map; [lia |].
    unfold nrows in Hlen. lia.
  - apply wf_frame_df_filter; [exact Hwf |]. rewrite List.length_map. exact Hlen.
Qed.

Lemma selectSeries_rows_of_category_witness :
  "Technology" <> all_categories /\
  wf_frame sample_category_forecast /\
  exists S kept,
    selectSeries "Technology" sample_forecast sample_category_forecast = Ok S /\
    getcol "Category" S = Ok kept /\
    kept = List.filter (cell_eq_str "Technology")
             [CStr "Technology"; CStr "Office Supplies";
              CStr "Technology"; CStr "Office Supplies"] /\
    Forall (fun c => c = CStr "Technology") kept /\
    nrows S = length kept /\
    wf_frame S.
Proof.
  assert (H1 : "Technology" <> all_categories) by discriminate.
  assert (H2 : wf_frame sample_category_forecast) by (repeat constructor).
  exact (conj H1 (conj H2
    (selectSeries_rows_of_category "Technology" sample_forecast sample_category_forecast
       _ H1 H2 eq_refl))).
Defined.

(** ** Unpickling *)

Lemma run_alloc df s :
  alloc df s =
    Returned (fresh (dom (heap s)))
      {| heap := <[fresh (dom (heap s)) := df]> (heap s);
         session := session s; screen := screen s |}.
Proof. reflexivity. Qed.

(** Every item of the dictionary becomes a new object of its own, filed
    under its key; nothing else changes. *)
Lemma run_unpickle (items : list (string * DataFrame)) (s : State) :
  exists d s',
    unpickle items s = Returned d s' /\
    session s' = session s /\ screen s' = screen s /\
    heap s ⊆ heap s' /\
    (forall k,
       match assoc k items with
       | Some df => exists l, d !! k = Some l /\ heap s' !! l = Some df /\ heap s !! l = None
       | None => d !! k = None
       end) /\
    (forall k1 k2 l, d !! k1 = Some l -> d !! k2 = Some l -> k1 = k2).
Proof.
  revert s. induction items as [| [k df] r IH]; intros s.
  - exists ∅, s. cbn. repeat split; try reflexivity.
    intros k1 k2 l H. rewrite lookup_empty in H. discriminate.
  - cbn [unpickle].
    set (l0 := fresh (dom (heap s))).
    set (s0 := {| heap := <[l0 := df]> (heap s); session := session s; screen := screen s |}).
    assert (Hl0 : heap s !! l0 = None) by apply fresh_lookup.
    destruct (IH s0) as (d & s' & Hrun & Hsess & Hscr & Hsub & Hkeys & Hinj).
    assert (Hsub0 : heap s ⊆ heap s0) by (now apply insert_subseteq).
    assert (Hold : forall k' l, d !! k' = Some l -> heap s0 !! l = None).
    { intros k' l Hl. specialize (Hkeys k'). destruct (assoc k' r).
      - destruct Hkeys as (l' & Hl' & _ & Hnone). congruence.
      - congruence. }
    exists (<[k := l0]> d), s'. split; [| split; [| split; [| split; [| split]]]].
    + erewrite run_bind; [| apply run_alloc]. fold l0 s0.
      erewrite run_bind; [| exact Hrun]. reflexivity.
    + exact Hsess.
    + exact Hscr.
    + etransitivity; eassumption.
    + intros k'. cbn [assoc]. destruct (String.eqb_spec k' k) as [-> | Hne].
      * exists l0. rewrite lookup_insert_eq. repeat split; [| exact Hl0].
        eapply lookup_weaken; [| exact Hsub]. apply lookup_insert_eq.
      * rewrite lookup_insert_ne by congruence.
        specialize (Hkeys k'). destruct (assoc k' r); [| exact Hkeys].
        destruct Hkeys as (l & Hl & Hdf & Hnone). exists l. repeat split; try assumption.
        destruct (heap s !! l) eqn:E; [| reflexivity].
        eapply lookup_weaken in E; [| exact Hsub0]. congruence.
    + intros k1 k2 l H1 H2.
      destruct (decide (k1 = k)) as [-> | N1], (decide (k2 = k)) as [-> | N2];
        try reflexivity.
      * rewrite lookup_insert_eq in H1. injection H1 as <-.
        rewrite lookup_insert_ne in H2 by congruence.
        apply Hold in H2. unfold s0 in H2; cbn in H2.
        rewrite lookup_insert_eq in H2. discriminate.
      * rewrite lookup_insert_eq in H2. injection H2 as <-.
        rewrite lookup_insert_ne in H1 by congruence.
        apply Hold in H1. unfold s0 in H1; cbn in H1.
        rewrite lookup_insert_eq in H1. discriminate.
      * rewrite lookup_insert_ne in H1, H2 by congruence. eauto.
Qed.

Lemma run_getitem d key l s : d !! key = Some l -> getitem d key s = Returned l s.
Proof. intros H. unfold getitem. now rewrite H. Qed.

Lemma run_getitem_missing d key s :
  d !! key = None -> getitem d key s = Raised (KeyError key) s.
Proof. intros H. unfold getitem. now rewrite H. Qed.

Lemma run_bind_stopped {A B} (m : Script A) (f : A -> Script B) s s' :
  m s = Stopped s' -> (m ≫= f) s = Stopped s'.
Proof. intros H. unfold mbind, script_bind. now rewrite H. Qed.

Lemma run_try_returned {A} (body : Script A) handler s a s' :
  body s = Returned a s' -> try_except body handler s = Returned a s'.
Proof. intros H. unfold try_except. now rewrite H. Qed.

Lemma run_try_raised {A} (body : Script A) handler s e s' :
  body s = Raised e s' -> try_except body handler s = handler e s'.
Proof. intros H. unfold try_except. now rewrite H. Qed.

(** mainpage.py 36-44 once the dictionary is unpickled: the four look-ups. *)
Lemma run_mainpage_getitems (items : list (string * DataFrame)) (d : gmap string loc)
    (l1 l2 l3 l4 : loc) (s s' : State) :
  unpickle items s = Returned d s' ->
  d !! "monthly_sales" = Some l1 ->
  d !! "forecast" = Some l2 ->
  d !! "category_forecast_df" = Some l3 ->
  d !! "errors" = Some l4 ->
  mainpage_load (Pickled items) s = Returned (l1, l2, l3, l4) s'.
Proof.
  intros Hrun D1 D2 D3 D4.
  unfold mainpage_load. apply run_try_returned. cbn [load_state].
  erewrite run_bind; [| exact Hrun].
  erewrite run_bind; [| apply run_getitem; exact D1].
  erewrite run_bind; [| apply run_getitem; exact D2].
  erewrite run_bind; [| apply run_getitem; exact D3].
  erewrite run_bind; [| apply run_getitem; exact D4].
  reflexivity.
Qed.

(** mainpage.py 36-44 on a dictionary that has the four tables. *)
Lemma run_mainpage_load (items : list (string * DataFrame))
    (sales agg cat errs : DataFrame) (s : State) :
  assoc "monthly_sales" items = Some sales ->
  assoc "forecast" items = Some agg ->
  assoc "category_forecast_df" items = Some cat ->
  assoc "errors" items = Some errs ->
  exists monthly_sales forecast_all category_forecast errors s',
    mainpage_load (Pickled items) s =
      Returned (monthly_sales, forecast_all, category_forecast, errors) s' /\
    heap s' !! monthly_sales = Some sales /\
    heap s' !! forecast_all = Some agg /\
    heap s' !! category_forecast = Some cat /\
    heap s' !! errors = Some errs /\
    session s' = session s /\ screen s' = screen s.
Proof.
  intros Hms Hfa Hcf Her.
  destruct (run_unpickle items s) as (d & s' & Hrun & Hsess & Hscr & _ & Hkeys & _).
  pose proof (Hkeys "monthly_sales") as K1. rewrite Hms in K1.
  pose proof (Hkeys "forecast") as K2. rewrite Hfa in K2.
  pose proof (Hkeys "category_forecast_df") as K3. rewrite Hcf in K3.
  pose proof (Hkeys "errors") as K4. rewrite Her in K4.
  destruct K1 as (l1 & D1 & H1 & _), K2 as (l2 & D2 & H2 & _),
           K3 as (l3 & D3 & H3 & _), K4 as (l4 & D4 & H4 & _).
  exists l1, l2, l3, l4, s'.
  split; [eapply run_mainpage_getitems; eassumption |].
  repeat split; assumption.
Qed.

(** ** Loading the four tables *)

(** X7: when the pickled dictionary has the four tables under their keys,
    whatever else it holds and in whatever order, the load block of the main
    page ends normally and hands on the tables stored under monthly_sales,
    forecast, category_forecast_df and errors, in this order; the objects
    that existed before are as they were, and nothing is shown or selected
    yet. *)
Theorem mainpage_load_returns_the_tables (items : list (string * DataFrame))
    (sales agg cat errs : DataFrame) (s : State) :
  assoc "monthly_sales" items = Some sales ->
  assoc "forecast" items = Some agg ->
  assoc "category_forecast_df" items = Some cat ->
  assoc "errors" items = Some errs ->
  exists monthly_sales forecast_all category_forecast errors s',
    mainpage_load (Pickled items) s =
      Returned (monthly_sales, forecast_all, category_forecast, errors) s' /\
    heap s' !! monthly_sales = Some sales /\
    heap s' !! forecast_all = Some agg /\
    heap s' !! category_forecast = Some cat /\
    heap s' !! errors = Some errs /\
    heap s ⊆ heap s' /\
    session s' = session s /\ screen s' = screen s.
Proof.
  intros Hms Hfa Hcf Her.
  destruct (run_unpickle items s) as (d & s' & Hrun & Hsess & Hscr & Hsub & Hkeys & _).
  pose proof (Hkeys "monthly_sales") as K1. rewrite Hms in K1.
  pose proof (Hkeys "forecast") as K2. rewrite Hfa in K2.
  pose proof (Hkeys "category_forecast_df") as K3. rewrite Hcf in K3.
  pose proof (Hkeys "errors") as K4. rewrite Her in K4.
  destruct K1 as (l1 & D1 & H1 & _), K2 as (l2 & D2 & H2 & _),
           K3 as (l3 & D3 & H3 & _), K4 as (l4 & D4 & H4 & _).
  exists l1, l2, l3, l4, s'.
  split.
  { unfold mainpage_load. apply run_try_returned. cbn [load_state].
    erewrite run_bind; [| exact Hrun].
    erewrite run_bind; [| apply run_getitem; exact D1].
    erewrite run_bind; [| apply run_getitem; exact D2].
    erewrite run_bind; [| apply run_getitem; exact D3].
    erewrite run_bind; [| apply run_getitem; exact D4].
    reflexivity. }
  repeat split; assumption.
Qed.

Lemma mainpage_load_returns_the_tables_witness :
  exists monthly_sales forecast_all category_forecast errors s',
    mainpage_load (Pickled (("test", sample_baseline_forecasts) :: sample_state))
                  (fresh_run ∅) =
      Returned (monthly_sales, forecast_all, category_forecast, errors) s' /\
    heap s' !! monthly_sales = Some sample_monthly_sales /\
    heap s' !! forecast_all = Some sample_forecast /\
    heap s' !! category_forecast = Some sample_category_forecast /\
    heap s' !! errors = Some sample_model_errors /\
    heap (fresh_run ∅) ⊆ heap s' /\
    session s' = session (fresh_run ∅) /\ screen s' = screen (fresh_run ∅).
Proof.
  apply (mainpage_load_returns_the_tables _ sample_monthly_sales sample_forecast
           sample_category_forecast sample_model_errors); reflexivity.
Defined.

Lemma run_load_failed {A} (e : exn) (s : State) :
  e <> FileNotFoundError ->
  @load_failed A e s =
    Stopped {| heap := heap s; session := session s;
               screen := screen s ++
                 [st_error [Lit "Errors encountered while starting project: ";
                            Lit (exn_str e)]] |}.
Proof. destruct e; [congruence | reflexivity ..]. Qed.

(** X8: when the pickled dictionary lacks one of the four tables the main
    page reads, the page stops with one error message, which quotes the first
    key that is missing, in the order monthly_sales, forecast,
    category_forecast_df, errors; nothing else is shown and the session is
    left alone. *)
Theorem missing_table_stops_the_page (items : list (string * DataFrame))
    (key : string) (before after : list string) (s : State) :
  ["monthly_sales"; "forecast"; "category_forecast_df"; "errors"] = before ++ key :: after ->
  Forall (fun k => assoc k items <> None) before ->
  assoc key items = None ->
  exists s',
    mainpage (Pickled items) s = Stopped s' /\
    screen s' = screen s ++
      [st_error [Lit "Errors encountered while starting project: ";
                 Lit ("'" ++ key ++ "'")%string]] /\
    session s' = session s.
Proof.
  intros Hkeys Hbefore Hmiss.
  destruct (run_unpickle items s) as (d & s' & Hrun & Hsess & Hscr & _ & Hd & _).
  assert (Hhas : forall k, k ∈ before -> exists l, d !! k = Some l).
  { intros k Hk. rewrite List.Forall_forall in Hbefore.
    apply list_elem_of_In, Hbefore in Hk. specialize (Hd k).
    destruct (assoc k items); [| congruence]. destruct Hd as (l & Hl & _). eauto. }
  assert (Hnone : d !! key = None) by (specialize (Hd key); now rewrite Hmiss in Hd).
  exists {| heap := heap s'; session := session s';
            screen := screen s' ++
              [st_error [Lit "Errors encountered while starting project: ";
                         Lit (exn_str (KeyError key))]] |}.
  split; [| cbn [screen session]; rewrite Hscr, Hsess; split; reflexivity].
  unfold mainpage. apply run_bind_stopped.
  unfold mainpage_load. cbn [load_state].
  rewrite <- (run_load_failed (A := loc * loc * loc * loc) (KeyError key) s') by discriminate.
  apply run_try_raised.
  erewrite run_bind; [| exact Hrun].
  destruct before as [| b1 [| b2 [| b3 [| b4 before]]]]; cbn in Hkeys.
  - injection Hkeys as <- _. now apply run_bind_raised, run_getitem_missing.
  - injection Hkeys as <- <- _.
    destruct (Hhas "monthly_sales") as (l1 & H1); [set_solver |].
    erewrite run_bind; [| apply run_getitem; exact H1].
    now apply run_bind_raised, run_getitem_missing.
  - injection Hkeys as <- <- <- _.
    destruct (Hhas "monthly_sales") as (l1 & H1); [set_solver |].
    destruct (Hhas "forecast") as (l2 & H2); [set_solver |].
    erewrite run_bind; [| apply run_getitem; exact H1].
    erewrite run_bind; [| apply run_getitem; exact H2].
    now apply run_bind_raised, run_getitem_missing.
  - injection Hkeys as <- <- <- <- _.
    destruct (Hhas "monthly_sales") as (l1 & H1); [set_solver |].
    destruct (Hhas "forecast") as (l2 & H2); [set_solver |].
    destruct (Hhas "category_forecast_df") as (l3 & H3); [set_solver |].
    erewrite run_bind; [| apply run_getitem; exact H1].
    erewrite run_bind; [| apply run_getitem; exact H2].
    erewrite run_bind; [| apply run_getitem; exact H3].
    now apply run_bind_raised, run_getitem_missing.
  - injection Hkeys as _ _ _ _ Hkeys. destruct before; discriminate.
Qed.

Lemma missing_table_stops_the_page_witness :
  exists s',
    mainpage (Pickled [("monthly_sales", sample_monthly_sales)]) (fresh_run ∅) = Stopped s' /\
    screen s' = screen (fresh_run ∅) ++
      [st_error [Lit "Errors encountered while starting project: ";
                 Lit ("'" ++ "forecast" ++ "'")%string]] /\
    session s' = session (fresh_run ∅).
Proof.
  apply (missing_table_stops_the_page [("monthly_sales", sample_monthly_sales)]
           "forecast" ["monthly_sales"] ["category_forecast_df"; "errors"]).
  - reflexivity.
  - repeat constructor. discriminate.
  - reflexivity.
Defined.

(** ** The top of the main page *)

(** The body of the page on loaded tables: what is on the screen down to the
    divider under the KPI row. *)
Lemma run_mainpage_top
    (monthly_sales forecast_all category_forecast errors : loc)
    (sales agg cat errs S S' : DataFrame) (options : list string)
    (c name : string) (r total mae : float) (best_model : Cell) (s : State) :
  heap s !! monthly_sales = Some sales ->
  heap s !! forecast_all = Some agg ->
  heap s !! category_forecast = Some cat ->
  heap s !! errors = Some errs ->
  categories cat = Ok options ->
  selectbox_value options 0 (session s !! "selected_category") = SStr c ->
  selectbox_value (map fst scenario_map) 1 (session s !! "selected_scenario") = SStr name ->
  assoc name scenario_map = Some r ->
  selectSeries c agg cat = Ok S ->
  applyGrowth S r = Ok S' ->
  summarize (tailWindow 6 S') = Ok total ->
  bestModel errs = Ok (best_model, Scalar (CFloat mae)) ->
  screen s ++
    [ st_set_page_config page_title; st_sidebar_header page_title;
      st_title page_title; st_subheader "Category Selection";
      st_selectbox "Select product category" options "selected_category";
      st_subheader "What-If Growth Scenario";
      st_selectbox "Select expected growth scenario" (map fst scenario_map)
                   "selected_scenario";
      st_columns 4;
      st_metric "Category" [Val (SStr c)];
      st_metric "Next 6 Months Forecast" [Num ",.0f" total];
      st_metric "Growth Assumption" [Num ".0f" (r * 100)%float; Lit "%"];
      st_metric "Model Used" [Label best_model; Lit " (MAE "; Num ".2f" mae; Lit ")"];
      st_divider ]
  `prefix_of`
  screen (final_state
            (mainpage_body monthly_sales forecast_all category_forecast errors s)).
Proof.
  intros Hms Hfa Hcf Her Hcats Hselc Hsels Hrate HS HS' Htotal Hbest.
  unfold mainpage_body.
  erewrite run_bind; [| eapply run_select_category; eassumption].
  rewrite Hselc. cbv beta.
  match goal with |- context [(choose_forecast _ _ _ ≫= _) ?st] => set (s1 := st) end.
  destruct (choose_forecast_selectSeries monthly_sales forecast_all category_forecast
              sales agg cat S c s1 Hms Hfa Hcf (lookup_insert_eq _ _ _) HS)
    as (forecast & actuals & s2 & Hrun & HfS & Hfnone & Hsub & Hsess & Hscr).
  erewrite run_bind; [| exact Hrun]. cbv beta iota.
  assert (Hsels2 : selectbox_value (map fst scenario_map) 1
                     (session s2 !! "selected_scenario") = SStr name).
  { rewrite Hsess. unfold s1; cbn [session].
    rewrite lookup_insert_ne by distinct_names. exact Hsels. }
  erewrite run_bind; [| eapply run_adjust_forecast; eassumption]. cbv beta.
  assert (Her2 : heap s2 !! errors = Some errs).
  { eapply lookup_weaken; [| exact Hsub]. exact Her. }
  assert (Hne : errors <> forecast).
  { intros ->. unfold s1 in Hfnone; cbn [heap] in Hfnone. congruence. }
  erewrite run_bind;
    [| eapply run_kpi_summary;
       [ cbn [heap]; apply lookup_insert_eq
       | cbn [heap]; rewrite lookup_insert_ne by congruence; exact Her2
       | cbn [session]; rewrite lookup_insert_ne by distinct_names;
         rewrite Hsess; unfold s1; cbn [session]; apply lookup_insert_eq
       | exact Htotal
       | exact Hbest ]].
  cbv beta.
  match goal with |- context [(_ ≫= _) ?st] => set (s4 := st) end.
  assert (Hgrow : screen s4 `prefix_of`
                  screen (final_state
                    ((forecast_plot forecast actuals;;
                      forecast_table (fresh (dom (<[forecast := S']> (heap s2))));;
                      business_insights r) s4))).
  { apply appends_bind; [apply appends_forecast_plot | intros _].
    apply appends_bind; [apply appends_forecast_table | intros _].
    apply appends_business_insights. }
  etransitivity; [| exact Hgrow].
  unfold s4; cbn [screen]. rewrite Hscr. unfold s1; cbn [screen].
  rewrite <- !app_assoc. reflexivity.
Qed.

(** The whole page on an artifact that has the four tables. *)
Lemma run_mainpage_kpis (items : list (string * DataFrame))
    (sales agg cat errs S S' : DataFrame) (options : list string)
    (c name : string) (r total mae : float) (best_model : Cell) (s : State) :
  assoc "monthly_sales" items = Some sales ->
  assoc "forecast" items = Some agg ->
  assoc "category_forecast_df" items = Some cat ->
  assoc "errors" items = Some errs ->
  categories cat = Ok options ->
  selectbox_value options 0 (session s !! "selected_category") = SStr c ->
  selectbox_value (map fst scenario_map) 1 (session s !! "selected_scenario") = SStr name ->
  assoc name scenario_map = Some r ->
  selectSeries c agg cat = Ok S ->
  applyGrowth S r = Ok S' ->
  summarize (tailWindow 6 S') = Ok total ->
  bestModel errs = Ok (best_model, Scalar (CFloat mae)) ->
  screen s ++
    [ st_set_page_config page_title; st_sidebar_header page_title;
      st_title page_title; st_subheader "Category Selection";
      st_selectbox "Select product category" options "selected_category";
      st_subheader "What-If Growth Scenario";
      st_selectbox "Select expected growth scenario" (map fst scenario_map)
                   "selected_scenario";
      st_columns 4;
      st_metric "Category" [Val (SStr c)];
      st_metric "Next 6 Months Forecast" [Num ",.0f" total];
      st_metric "Growth Assumption" [Num ".0f" (r * 100)%float; Lit "%"];
      st_metric "Model Used" [Label best_model; Lit " (MAE "; Num ".2f" mae; Lit ")"];
      st_divider ]
  `prefix_of` screen (final_state (mainpage (Pickled items) s)).
Proof.
  intros Hms Hfa Hcf Her Hcats Hselc Hsels Hrate HS HS' Htotal Hbest.
  destruct (run_mainpage_load items sales agg cat errs s Hms Hfa Hcf Her)
    as (l1 & l2 & l3 & l4 & s' & Hrun & H1 & H2 & H3 & H4 & Hsess & Hscr).
  unfold mainpage. erewrite run_bind; [| exact Hrun]. cbv beta iota.
  rewrite <- Hscr. rewrite <- Hsess in Hselc, Hsels.
  eapply run_mainpage_top; eassumption.
Qed.

(** X9: the main page, from the artifact to the KPI row. With the four tables
    in the artifact, the page shows, in this order and after whatever was on
    the screen: the page header, the category selector with the categories of
    the per-category table, the scenario selector with the four scenarios, and
    the four metrics, where the category and the scenario are the selectors'
    values, the total is summarize(tailWindow(applyGrowth(selectSeries(...),
    rate), 6)) for them and the model is bestModel's. *)
Theorem mainpage_shows_header_and_kpis (items : list (string * DataFrame))
    (sales agg cat errs S S' : DataFrame) (options : list string)
    (c name : string) (r total mae : float) (best_model : Cell) (s : State) :
  assoc "monthly_sales" items = Some sales ->
  assoc "forecast" items = Some agg ->
  assoc "category_forecast_df" items = Some cat ->
  assoc "errors" items = Some errs ->
  categories cat = Ok options ->
  selectbox_value options 0 (session s !! "selected_category") = SStr c ->
  selectbox_value (map fst scenario_map) 1 (session s !! "selected_scenario") = SStr name ->
  assoc name scenario_map = Some r ->
  selectSeries c agg cat = Ok S ->
  applyGrowth S r = Ok S' ->
  summarize (tailWindow 6 S') = Ok total ->
  bestModel errs = Ok (best_model, Scalar (CFloat mae)) ->
  screen s ++
    [ st_set_page_config page_title; st_sidebar_header page_title;
      st_title page_title; st_subheader "Category Selection";
      st_selectbox "Select product category" options "selected_category";
      st_subheader "What-If Growth Scenario";
      st_selectbox "Select expected growth scenario" (map fst scenario_map)
                   "selected_scenario";
      st_columns 4;
      st_metric "Category" [Val (SStr c)];
      st_metric "Next 6 Months Forecast" [Num ",.0f" total];
      st_metric "Growth Assumption" [Num ".0f" (r * 100)%float; Lit "%"];
      st_metric "Model Used" [Label best_model; Lit " (MAE "; Num ".2f" mae; Lit ")"];
      st_divider ]
  `prefix_of` screen (final_state (mainpage (Pickled items) s)).
Proof.
  intros Hms Hfa Hcf Her Hcats Hselc Hsels Hrate HS HS' Htotal Hbest.
  destruct (run_mainpage_load items sales agg cat errs s Hms Hfa Hcf Her)
    as (l1 & l2 & l3 & l4 & s' & Hrun & H1 & H2 & H3 & H4 & Hsess & Hscr).
  unfold mainpage. erewrite run_bind; [| exact Hrun]. cbv beta iota.
  rewrite <- Hscr. rewrite <- Hsess in Hselc, Hsels.
  eapply run_mainpage_top; eassumption.
Qed.

Lemma mainpage_shows_header_and_kpis_witness :
  screen (fresh_run {["selected_category" := SStr "Technology"]}) ++
    [ st_set_page_config page_title; st_sidebar_header page_title;
      st_title page_title; st_subheader "Category Selection";
      st_selectbox "Select product category"
                   ["All Categories"; "Office Supplies"; "Technology"] "selected_category";
      st_subheader "What-If Growth Scenario";
      st_selectbox "Select expected growth scenario" (map fst scenario_map)
                   "selected_scenario";
      st_columns 4;
      st_metric "Category" [Val (SStr "Technology")];
      st_metric "Next 6 Months Forecast" [Num ",.0f" 84];
      st_metric "Growth Assumption" [Num ".0f" (0 * 100)%float; Lit "%"];
      st_metric "Model Used" [Label (CStr "B"); Lit " (MAE "; Num ".2f" 3; Lit ")"];
      st_divider ]
  `prefix_of`
  screen (final_state
    (mainpage sample_artifact (fresh_run {["selected_category" := SStr "Technology"]}))).
Proof.
  eapply (mainpage_shows_header_and_kpis _ sample_monthly_sales sample_forecast
            sample_category_forecast sample_errors _ _ _ "Technology" "Baseline (0%)");
    try reflexivity; vm_compute; reflexivity.
Defined.

(** ** The actuals beside the forecast *)

Lemma rename_key_cases (k : string) :
  let k' := default k (assoc k [("Order Date", "ds"); ("Sales", "actual")]) in
  (k = "Order Date" /\ k' = "ds") \/ (k = "Sales" /\ k' = "actual") \/
  (k <> "Order Date" /\ k <> "Sales" /\ k' = k).
Proof.
  cbn [assoc].
  destruct (String.eqb_spec k "Order Date"); [left; split; [assumption | reflexivity] |].
  destruct (String.eqb_spec k "Sales"); [right; left; split; [assumption | reflexivity] |].
  right; right. repeat split; assumption.
Qed.

Lemma assoc_renamed_actuals (cols : list (string * Column)) (old new : string) (col : Column) :
  (old, new) ∈ [("Order Date", "ds"); ("Sales", "actual")] ->
  assoc new cols = None ->
  assoc old cols = Some col ->
  assoc new (map (fun c => (default (fst c)
                              (assoc (fst c) [("Order Date", "ds"); ("Sales", "actual")]),
                            snd c)) cols) = Some col.
Proof.
  intros Hpair. induction cols as [| [k c] cols IH]; [intros _ H; discriminate H |].
  intros Hnone Hold. cbn [map fst snd].
  pose proof (rename_key_cases k) as Hk. cbv zeta in Hk.
  set (k' := default k _) in *.
  change (assoc new ((k', c) :: ?r)) with (if String.eqb new k' then Some c else assoc new r).
  change (assoc new ((k, c) :: cols)) with
    (if String.eqb new k then Some c else assoc new cols) in Hnone.
  change (assoc old ((k, c) :: cols)) with
    (if String.eqb old k then Some c else assoc old cols) in Hold.
  clearbody k'.
  apply elem_of_cons in Hpair as [[= -> ->] | Hpair];
    [| apply elem_of_cons in Hpair as [[= -> ->] | Hpair]; [| now apply elem_of_nil in Hpair]].
  all: destruct Hk as [[-> ->] | [[-> ->] | (N1 & N2 & ->)]].
  all: repeat (match goal with
               | H : context [String.eqb ?a ?b] |- _ => destruct (String.eqb_spec a b)
               | |- context [String.eqb ?a ?b] => destruct (String.eqb_spec a b)
               end; try discriminate; try congruence).
  all: auto.
Qed.

(** X10: the table the page forecasts from is always a new object holding
    what selectSeries returns. For "All Categories" the page also makes the
    actuals, a new object of its own: the monthly sales with the columns
    Order Date and Sales renamed to ds and actual, the same values under the
    new names; for a single category it makes no actuals. *)
Theorem choose_forecast_makes_actuals
    (monthly_sales forecast_all category_forecast : loc)
    (sales agg cat S : DataFrame) (c : string) (dates values : Column) (s : State) :
  heap s !! monthly_sales = Some sales ->
  heap s !! forecast_all = Some agg ->
  heap s !! category_forecast = Some cat ->
  session s !! "selected_category" = Some (SStr c) ->
  selectSeries c agg cat = Ok S ->
  getcol "Order Date" sales = Ok dates ->
  getcol "Sales" sales = Ok values ->
  getcol "ds" sales = Err (KeyError "ds") ->
  getcol "actual" sales = Err (KeyError "actual") ->
  exists forecast actuals s',
    choose_forecast monthly_sales forecast_all category_forecast s =
      Returned (forecast, actuals) s' /\
    heap s' !! forecast = Some S /\
    heap s !! forecast = None /\
    heap s ⊆ heap s' /\
    match actuals with
    | Some a =>
        c = all_categories /\ a <> forecast /\ heap s !! a = None /\
        exists A, heap s' !! a = Some A /\
                  index A = index sales /\
                  getcol "ds" A = Ok dates /\ getcol "actual" A = Ok values
    | None => c <> all_categories
    end.
Proof.
  intros Hms Hfa Hcf Hsel HS Hd Hv Hnods Hnoact.
  unfold choose_forecast, session_get, mbind at 1, script_bind at 1.
  rewrite Hsel. unfold sval_is. unfold selectSeries in HS.
  destruct (String.eqb_spec c all_categories) as [Hall | Hall].
  - injection HS as <-.
    unfold obj_copy.
    erewrite run_bind; [| eapply run_new_from; [exact Hfa | reflexivity]].
    set (l1 := fresh (dom (heap s))).
    assert (Hl1 : heap s !! l1 = None) by apply fresh_lookup.
    assert (Hms' : <[l1 := agg]> (heap s) !! monthly_sales = Some sales).
    { rewrite lookup_insert_ne; [exact Hms | intros <-; congruence]. }
    erewrite run_bind; [| eapply run_new_from; [exact Hms' | reflexivity]].
    cbn [heap session screen].
    set (l2 := fresh (dom (<[l1 := agg]> (heap s)))).
    assert (Hl2 : <[l1 := agg]> (heap s) !! l2 = None) by apply fresh_lookup.
    assert (Hne : l2 <> l1) by (intros E; rewrite E, lookup_insert_eq in Hl2; discriminate).
    rewrite lookup_insert_ne in Hl2 by congruence.
    eexists l1, (Some l2), _. split; [reflexivity |]. cbn [heap session screen].
    split; [now rewrite lookup_insert_ne, lookup_insert_eq |].
    split; [exact Hl1 |].
    split; [apply insert_subseteq_r; [exact Hl2 |]; now apply insert_subseteq |].
    repeat (split; [assumption |]).
    eexists. split; [apply lookup_insert_eq |]. split; [reflexivity |].
    unfold getcol in Hnods, Hnoact.
    destruct (assoc "ds" (columns sales)) eqn:Nds; [discriminate |].
    destruct (assoc "actual" (columns sales)) eqn:Nact; [discriminate |].
    apply getcol_Ok in Hd, Hv.
    split; apply getcol_Ok; unfold df_rename; cbn [columns].
    + apply (assoc_renamed_actuals _ "Order Date"); [set_solver | assumption ..].
    + apply (assoc_renamed_actuals _ "Sales"); [set_solver | assumption ..].
  - apply bind_Ok in HS as (col & Hcol & [= <-]).
    rewrite (run_bind _ _ _ _ _ (run_obj_getcol _ _ _ _ _ Hcf Hcol)).
    erewrite run_bind; [| eapply run_new_from; [exact Hcf | reflexivity]].
    set (l1 := fresh (dom (heap s))).
    assert (Hl1 : heap s !! l1 = None) by apply fresh_lookup.
    unfold obj_copy.
    erewrite run_bind;
      [| eapply run_new_from; [cbn [heap]; apply lookup_insert_eq | reflexivity]].
    cbn [heap session screen].
    set (F := df_filter (map (cell_eq_sval (SStr c)) col) cat).
    set (l2 := fresh (dom (<[l1 := F]> (heap s)))).
    assert (Hl2 : <[l1 := F]> (heap s) !! l2 = None) by apply fresh_lookup.
    assert (Hne : l2 <> l1) by (intros E; rewrite E, lookup_insert_eq in Hl2; discriminate).
    eexists l2, None, _. split; [reflexivity |]. cbn [heap session screen].
    rewrite lookup_insert_ne in Hl2 by congruence.
    repeat split.
    + now rewrite lookup_insert_eq.
    + exact Hl2.
    + apply insert_subseteq_r; [exact Hl2 |]. now apply insert_subseteq.
    + exact Hall.
Qed.

Lemma choose_forecast_makes_actuals_witness :
  let s := {| heap := {[ 1%positive := sample_monthly_sales; 2%positive := sample_forecast;
                         3%positive := sample_category_forecast ]};
              session := {["selected_category" := SStr "All Categories"]};
              screen := [] |} in
  exists forecast actuals s',
    choose_forecast 1 2 3 s = Returned (forecast, actuals) s' /\
    heap s' !! forecast = Some sample_forecast /\
    heap s !! forecast = None /\
    heap s ⊆ heap s' /\
    match actuals with
    | Some a =>
        "All Categories" = all_categories /\ a <> forecast /\ heap s !! a = None /\
        exists A, heap s' !! a = Some A /\
                  index A = index sample_monthly_sales /\
                  getcol "ds" A = Ok (months 21 3) /\
                  getcol "actual" A = Ok (floats [75; 82; 78]%float)
    | None => "All Categories" <> all_categories
    end.
Proof.
  intros s.
  apply (choose_forecast_makes_actuals 1 2 3 sample_monthly_sales sample_forecast
           sample_category_forecast sample_forecast "All Categories"); reflexivity.
Defined.

(** ** The plot and the table under the KPI row *)

Lemma run_emit w s :
  emit w s = Returned tt {| heap := heap s; session := session s; screen := screen s ++ [w] |}.
Proof. reflexivity. Qed.

Lemma run_download_button label data file_name key s :
  download_button label data file_name key s =
    Returned tt
      {| heap := heap s;
         session := <[key := button_value (session s !! key)]> (session s);
         screen := screen s ++ [st_download_button label data file_name key] |}.
Proof. reflexivity. Qed.

(** X11: the scenario plot. Its figure has the adjusted estimate, named after
    the selected scenario, then the adjusted lower and upper bounds, all
    against the dates of the forecast table, preceded by the actual sales when
    there are actuals and by nothing otherwise; the download button offers
    that same figure as scenerio_based_forecast.html, and a toast follows
    exactly when the button was pressed. No table changes. *)
Theorem forecast_plot_draws_adjusted_series
    (forecast : loc) (actuals : option loc) (F : DataFrame)
    (ds e l u : Column) (scenario : SVal) (first : Figure) (s : State) :
  heap s !! forecast = Some F ->
  getcol "ds" F = Ok ds ->
  getcol "yhat_adj" F = Ok e ->
  getcol "yhat_lower_adj" F = Ok l ->
  getcol "yhat_upper_adj" F = Ok u ->
  session s !! "selected_scenario" = Some scenario ->
  match actuals with
  | Some a => exists A x y,
      heap s !! a = Some A /\ getcol "ds" A = Ok x /\ getcol "actual" A = Ok y /\
      first = [mkTrace x y (Some [Lit "Actual Sales"])]
  | None => first = []
  end ->
  let fig :=
    first ++
    [ mkTrace ds e (Some [Lit "Forecast ("; Val scenario; Lit ")"]);
      mkTrace ds l None;
      mkTrace ds u (Some [Lit "Confidence Interval"]) ] in
  let pressed := button_value (session s !! "scenerio") in
  forecast_plot forecast actuals s =
    Returned tt
      {| heap := heap s;
         session := <["scenerio" := pressed]> (session s);
         screen := screen s ++
           [ st_subheader "Scenario-Based Forecast";
             st_plotly_chart fig;
             st_download_button [Lit "Download interactive graph (HTML)"] (Html fig)
                                [Lit "scenerio_based_forecast"; Lit ".html"] "scenerio" ] ++
           (if truthy pressed then [st_toast "Download Started"] else []) |}.
Proof.
  intros HF Hds He Hl Hu Hsc Hact fig pressed. unfold forecast_plot.
  erewrite run_bind; [| apply run_emit].
  set (s1 := {| heap := heap s; session := session s;
                screen := screen s ++ [st_subheader "Scenario-Based Forecast"] |}).
  assert (Hfirst : (match actuals with
                    | Some actuals =>
                        x ← obj_getcol actuals "ds";
                        y ← obj_getcol actuals "actual";
                        mret [mkTrace x y (Some [Lit "Actual Sales"])]
                    | None => mret []
                    end : Script Figure) s1 = Returned first s1).
  { destruct actuals as [a |].
    - destruct Hact as (A & x & y & HA & Hx & Hy & ->).
      erewrite run_bind; [| eapply run_obj_getcol; [exact HA | exact Hx]].
      erewrite run_bind; [| eapply run_obj_getcol; [exact HA | exact Hy]].
      reflexivity.
    - subst first. reflexivity. }
  erewrite run_bind; [| exact Hfirst].
  erewrite run_bind; [| eapply run_obj_getcol; [exact HF | exact Hds]].
  erewrite run_bind; [| eapply run_obj_getcol; [exact HF | exact He]].
  erewrite run_bind; [| apply run_session_get; exact Hsc].
  erewrite run_bind; [| eapply run_obj_getcol; [exact HF | exact Hds]].
  erewrite run_bind; [| eapply run_obj_getcol; [exact HF | exact Hl]].
  erewrite run_bind; [| eapply run_obj_getcol; [exact HF | exact Hds]].
  erewrite run_bind; [| eapply run_obj_getcol; [exact HF | exact Hu]].
  cbv zeta.
  erewrite run_bind; [| apply run_emit].
  unfold download_button_graph.
  erewrite run_bind; [| apply run_download_button].
  erewrite run_bind; [| apply run_session_get; cbn [session]; apply lookup_insert_eq].
  unfold s1; cbn [heap session screen]. fold pressed.
  unfold fig. rewrite <- !app_assoc. cbn [app].
  destruct (truthy pressed).
  - rewrite run_emit. cbn [heap session screen]. rewrite <- app_assoc. reflexivity.
  - reflexivity.
Qed.

Lemma forecast_plot_draws_adjusted_series_witness :
  let F := {| index := [CTime 0];
              columns := [("ds", [CTime 24]); ("yhat_adj", floats [120]%float);
                          ("yhat_lower_adj", floats [108]%float);
                          ("yhat_upper_adj", floats [132]%float)] |} in
  let s := {| heap := {[ 1%positive := F ]};
              session := {[ "selected_scenario" := SStr "Aggressive (+20%)";
                            "scenerio" := SBool true ]};
              screen := [] |} in
  let fig := [ mkTrace [CTime 24] (floats [120]%float)
                 (Some [Lit "Forecast ("; Val (SStr "Aggressive (+20%)"); Lit ")"]);
               mkTrace [CTime 24] (floats [108]%float) None;
               mkTrace [CTime 24] (floats [132]%float) (Some [Lit "Confidence Interval"]) ] in
  forecast_plot 1 None s =
    Returned tt
      {| heap := heap s;
         session := <["scenerio" := SBool true]> (session s);
         screen :=
           [ st_subheader "Scenario-Based Forecast";
             st_plotly_chart fig;
             st_download_button [Lit "Download interactive graph (HTML)"] (Html fig)
                                [Lit "scenerio_based_forecast"; Lit ".html"] "scenerio";
             st_toast "Download Started" ] |}.
Proof.
  intros F s fig.
  apply (forecast_plot_draws_adjusted_series 1 None F [CTime 24] (floats [120]%float)
           (floats [108]%float) (floats [132]%float) (SStr "Aggressive (+20%)") [] s);
    reflexivity.
Defined.

Lemma replace_spaces_no_space (s : string) :
  " "%char ∉ list_ascii_of_string (replace_spaces s).
Proof.
  induction s as [| c s IH]; cbn [replace_spaces list_ascii_of_string].
  - apply not_elem_of_nil.
  - apply not_elem_of_cons. split; [| exact IH].
    destruct (Ascii.eqb_spec c " "%char) as [-> | Hc]; [discriminate | congruence].
Qed.

Lemma replace_spaces_length (s : string) :
  String.length (replace_spaces s) = String.length s.
Proof. induction s as [| c s IH]; cbn; [reflexivity | now rewrite IH]. Qed.

(** X12: the forecast table. From the six-month tail the page makes a new
    table with the four columns Month, Forecast, Lower Bound and Upper Bound,
    holding the dates and the adjusted estimate and bounds of the tail; it
    shows this table and offers the same table for download as
    forecast_<category>.csv, the category with every space replaced by an
    underscore. The tail itself is left as it is, so the Forecast column adds
    up to the total of the KPI row. *)
Theorem forecast_table_shows_adjusted_tail
    (future_6m : loc) (T : DataFrame) (ds e l u : Column) (c : string) (s : State) :
  heap s !! future_6m = Some T ->
  getcol "ds" T = Ok ds ->
  getcol "yhat_adj" T = Ok e ->
  getcol "yhat_lower_adj" T = Ok l ->
  getcol "yhat_upper_adj" T = Ok u ->
  session s !! "selected_category" = Some (SStr c) ->
  let table :=
    {| index := index T;
       columns := [("Month", ds); ("Forecast", e); ("Lower Bound", l); ("Upper Bound", u)] |} in
  let pressed := button_value (session s !! "forecast") in
  exists s',
    forecast_table future_6m s = Returned tt s' /\
    screen s' = screen s ++
      [ st_subheader "Forecast Table (Next 6 Months)";
        st_dataframe table;
        st_download_button [Lit "Download "; Lit "Forecast"] (Csv table)
          [Lit "forecast_"; Lit (replace_spaces c); Lit ".csv"] "forecast" ] ++
      (if truthy pressed then [st_toast "Download Started"] else []) /\
    (" "%char ∉ list_ascii_of_string (replace_spaces c)) /\
    heap s ⊆ heap s' /\
    heap s' !! future_6m = Some T /\
    getcol "Forecast" table ≫= col_sum = summarize T.
Proof.
  intros HT Hds He Hl Hu Hsel table pressed. unfold forecast_table.
  erewrite run_bind; [| apply run_emit].
  assert (Hselect : df_select ["ds"; "yhat_adj"; "yhat_lower_adj"; "yhat_upper_adj"] T =
                    Ok {| index := index T;
                          columns := [("ds", ds); ("yhat_adj", e);
                                      ("yhat_lower_adj", l); ("yhat_upper_adj", u)] |}).
  { unfold df_select. cbn [select_cols]. rewrite Hds, He, Hl, Hu. reflexivity. }
  erewrite run_bind; [| eapply run_new_from; [cbn [heap]; exact HT | exact Hselect]].
  cbn [heap session screen].
  set (l1 := fresh (dom (heap s))).
  assert (Hl1 : heap s !! l1 = None) by apply fresh_lookup.
  unfold obj_copy.
  erewrite run_bind;
    [| eapply run_new_from; [cbn [heap]; apply lookup_insert_eq | reflexivity]].
  cbn [heap session screen].
  match goal with |- context [fresh (dom ?h)] => set (h1 := h) end.
  set (l2 := fresh (dom h1)).
  assert (Hl2 : h1 !! l2 = None) by apply fresh_lookup.
  assert (Hne : l2 <> l1) by (intros E; unfold h1 in Hl2; rewrite E, lookup_insert_eq in Hl2; discriminate).
  erewrite run_bind; [| apply run_deref; cbn [heap]; apply lookup_insert_eq].
  cbn [set_column_names columns length Nat.eqb lift].
  erewrite run_bind; [| reflexivity].
  erewrite run_bind; [| reflexivity].
  erewrite run_bind; [| apply run_emit].
  erewrite run_bind; [| apply run_session_get; cbn [session]; exact Hsel].
  erewrite run_bind; [| reflexivity].
  unfold download_button_dataframe.
  erewrite run_bind; [| apply run_download_button].
  erewrite run_bind; [| apply run_session_get; cbn [session]; apply lookup_insert_eq].
  cbn [heap session screen]. fold pressed.
  rewrite <- !app_assoc. cbn [app].
  match goal with
  | |- exists s', ?run = _ /\ _ => exists (final_state run)
  end.
  assert (Hsub : heap s ⊆ <[l2 := table]> (<[l2 := {| index := index T;
                     columns := [("ds", ds); ("yhat_adj", e);
                                 ("yhat_lower_adj", l); ("yhat_upper_adj", u)] |}]> h1)).
  { rewrite insert_insert_eq. unfold h1 in *.
    rewrite lookup_insert_ne in Hl2 by congruence.
    apply insert_subseteq_r; [exact Hl2 |]. now apply insert_subseteq. }
  split; [destruct (truthy pressed); reflexivity |].
  split; [| split; [apply replace_spaces_no_space | split; [| split]]].
  - destruct (truthy pressed); [rewrite run_emit |]; cbn [final_state screen app];
      rewrite <- ?app_assoc; reflexivity.
  - destruct (truthy pressed); [rewrite run_emit |]; cbn [final_state heap]; exact Hsub.
  - destruct (truthy pressed); [rewrite run_emit |]; cbn [final_state heap];
      (eapply lookup_weaken; [exact HT | exact Hsub]).
  - unfold summarize. rewrite He. reflexivity.
Qed.

Lemma forecast_table_shows_adjusted_tail_witness :
  let T := {| index := [CTime 11];
              columns := [("ds", [CTime 35]); ("yhat", floats [100]%float);
                          ("yhat_adj", floats [120]%float);
                          ("yhat_lower_adj", floats [108]%float);
                          ("yhat_upper_adj", floats [132]%float)] |} in
  let s := {| heap := {[ 1%positive := T ]};
              session := {[ "selected_category" := SStr "Office Supplies" ]};
              screen := [] |} in
  let table :=
    {| index := [CTime 11];
       columns := [("Month", [CTime 35]); ("Forecast", floats [120]%float);
                   ("Lower Bound", floats [108]%float);
                   ("Upper Bound", floats [132]%float)] |} in
  exists s',
    forecast_table 1 s = Returned tt s' /\
    screen s' = [] ++
      [ st_subheader "Forecast Table (Next 6 Months)";
        st_dataframe table;
        st_download_button [Lit "Download "; Lit "Forecast"] (Csv table)
          [Lit "forecast_"; Lit "Office_Supplies"; Lit ".csv"] "forecast" ] ++ [] /\
    (" "%char ∉ list_ascii_of_string "Office_Supplies") /\
    heap s ⊆ heap s' /\
    heap s' !! 1%positive = Some T /\
    getcol "Forecast" table ≫= col_sum = summarize T.
Proof.
  intros T s table.
  apply (forecast_table_shows_adjusted_tail 1 T [CTime 35] (floats [120]%float)
           (floats [108]%float) (floats [132]%float) "Office Supplies" s); reflexivity.
Defined.

(** ** Errors after the load block *)

(** X13: an error table whose MAE column has no number in it (no rows, or
    NaN only) has no best model: the KPI block raises, outside the try block
    of the page, before it has shown any of its metrics. *)
Theorem kpi_summary_needs_a_model
    (forecast errors : loc) (g total : float) (S' errs : DataFrame)
    (maes : list float) (s : State) :
  heap s !! forecast = Some S' ->
  heap s !! errors = Some errs ->
  summarize (tailWindow 6 S') = Ok total ->
  getcol "MAE" errs = Ok (map CFloat maes) ->
  Forall (fun v => is_nan v = true) maes ->
  exists e s',
    kpi_summary forecast errors g s = Raised e s' /\
    bestModel errs = Err e /\
    screen s' = screen s /\ session s' = session s.
Proof.
  intros Hf He Hsum Hcol Hnan.
  assert (Hbest : bestModel errs = Err (no_minimum maes)).
  { unfold bestModel, idxmin. rewrite Hcol; cbn [mbind result_bind].
    rewrite col_floats_floats; cbn [mbind result_bind].
    now rewrite argmin_skipna_none. }
  exists (no_minimum maes),
         {| heap := <[fresh (dom (heap s)) := tailWindow 6 S']> (heap s);
            session := session s; screen := screen s |}.
  split; [| split; [exact Hbest | split; reflexivity]].
  unfold kpi_summary.
  erewrite run_bind; [| eapply run_new_from; [exact Hf | reflexivity]].
  set (l := fresh (dom (heap s))).
  assert (Hl : heap s !! l = None) by apply fresh_lookup.
  erewrite run_bind; [| apply run_deref; cbn [heap]; apply lookup_insert_eq].
  rewrite Hsum. erewrite run_bind; [| reflexivity].
  erewrite run_bind;
    [| apply run_deref; cbn [heap]; rewrite lookup_insert_ne; [exact He | congruence]].
  rewrite Hbest. reflexivity.
Qed.

Lemma kpi_summary_needs_a_model_witness :
  let empty := {| index := []; columns := [("MAE", []); ("MAPE", [])] |} in
  let s := {| heap := {[ 1%positive := {| index := []; columns := [("yhat_adj", [])] |};
                         2%positive := empty ]};
              session := ∅; screen := [st_title page_title] |} in
  exists e s',
    kpi_summary 1 2 0 s = Raised e s' /\
    bestModel empty = Err e /\
    screen s' = screen s /\ session s' = session s.
Proof.
  intros empty s.
  apply (kpi_summary_needs_a_model 1 2 0 0
           {| index := []; columns := [("yhat_adj", [])] |} empty []);
    try reflexivity.
  constructor.
Defined.

Lemma run_assign_scaled_err forecast new old r S e s :
  heap s !! forecast = Some S ->
  getcol old S ≫= col_mul (1 + r)%float = Err e ->
  assign_scaled forecast new old r s = Raised e s.
Proof.
  intros Hobj H. unfold assign_scaled.
  destruct (getcol old S) as [col | e0] eqn:G; cbn [mbind result_bind] in H.
  - rewrite (run_bind _ _ _ _ _ (run_obj_getcol _ _ _ _ _ Hobj G)), H. reflexivity.
  - injection H as ->. apply run_bind_raised. unfold obj_getcol.
    rewrite (run_bind _ _ _ _ _ (run_deref _ _ _ Hobj)), G. reflexivity.
Qed.

(** X14: when the growth adjustment fails on the table to forecast from (a
    forecast column is missing, or holds something that is not a number), the
    page ends with that exception, which nothing catches: the scenario
    selector is the last thing shown, no KPI follows, and no table other than
    the page's own copy has changed. *)
Theorem adjust_forecast_fails_as_applyGrowth
    (forecast : loc) (name : string) (r : float) (S : DataFrame) (e : exn) (s : State) :
  heap s !! forecast = Some S ->
  selectbox_value (map fst scenario_map) 1 (session s !! "selected_scenario") = SStr name ->
  assoc name scenario_map = Some r ->
  applyGrowth S r = Err e ->
  exists s',
    adjust_forecast forecast s = Raised e s' /\
    screen s' = screen s ++
      [ st_subheader "What-If Growth Scenario";
        st_selectbox "Select expected growth scenario" (map fst scenario_map)
                     "selected_scenario" ] /\
    (forall l, l <> forecast -> heap s' !! l = heap s !! l).
Proof.
  intros Hobj Hsel Hrate Happ. unfold adjust_forecast.
  erewrite run_bind; [| reflexivity].
  erewrite run_bind; [| reflexivity].
  cbn [heap session screen]. rewrite Hsel.
  erewrite run_bind; [| apply run_session_get; cbn [session]; apply lookup_insert_eq].
  unfold scenario_rate. rewrite Hrate.
  erewrite run_bind; [| reflexivity].
  rewrite <- app_assoc. cbn [app].
  match goal with |- context [(_ ≫= _) ?st] => set (s1 := st) end.
  assert (H1 : heap s1 !! forecast = Some S) by exact Hobj.
  unfold applyGrowth in Happ.
  destruct (getcol "yhat" S ≫= col_mul (1 + r)%float) as [c1 | e1] eqn:E1.
  2: { exists s1. split; [| split; [reflexivity | reflexivity]].
       apply run_bind_raised. apply (run_assign_scaled_err _ _ _ _ S); [exact H1 |].
       rewrite E1. f_equal.
       destruct (getcol "yhat" S) as [c |]; cbn [mbind result_bind] in *.
       - rewrite E1 in Happ. now injection Happ.
       - congruence. }
  apply bind_Ok in E1 as (y1 & G1 & M1).
  rewrite G1 in Happ; cbn [mbind result_bind] in Happ.
  rewrite M1 in Happ; cbn [mbind result_bind] in Happ.
  erewrite run_bind; [| eapply run_assign_scaled; eassumption].
  set (S1 := setcol "yhat_adj" c1 S) in *.
  match goal with |- context [(_ ≫= _) ?st] => set (s2 := st) end.
  assert (H2 : heap s2 !! forecast = Some S1) by apply lookup_insert_eq.
  assert (Hframe2 : forall l, l <> forecast -> heap s2 !! l = heap s !! l).
  { intros l Hl. unfold s2; cbn [heap]. now rewrite lookup_insert_ne by congruence. }
  destruct (getcol "yhat_lower" S1 ≫= col_mul (1 + r)%float) as [c2 | e2] eqn:E2.
  2: { exists s2. split; [| split; [reflexivity | exact Hframe2]].
       apply run_bind_raised. apply (run_assign_scaled_err _ _ _ _ S1); [exact H2 |].
       rewrite E2. f_equal.
       destruct (getcol "yhat_lower" S1) as [c |]; cbn [mbind result_bind] in *.
       - rewrite E2 in Happ. now injection Happ.
       - congruence. }
  apply bind_Ok in E2 as (y2 & G2 & M2).
  rewrite G2 in Happ; cbn [mbind result_bind] in Happ.
  rewrite M2 in Happ; cbn [mbind result_bind] in Happ.
  erewrite run_bind; [| eapply run_assign_scaled; eassumption].
  set (S2 := setcol "yhat_lower_adj" c2 S1) in *.
  match goal with |- context [(_ ≫= _) ?st] => set (s3 := st) end.
  assert (H3 : heap s3 !! forecast = Some S2) by apply lookup_insert_eq.
  assert (Hframe3 : forall l, l <> forecast -> heap s3 !! l = heap s !! l).
  { intros l Hl. unfold s3; cbn [heap]. rewrite lookup_insert_ne by congruence. auto. }
  destruct (getcol "yhat_upper" S2 ≫= col_mul (1 + r)%float) as [c3 | e3] eqn:E3.
  2: { exists s3. split; [| split; [reflexivity | exact Hframe3]].
       apply run_bind_raised. apply (run_assign_scaled_err _ _ _ _ S2); [exact H3 |].
       rewrite E3. f_equal.
       destruct (getcol "yhat_upper" S2) as [c |]; cbn [mbind result_bind] in *.
       - rewrite E3 in Happ. now injection Happ.
       - congruence. }
  apply bind_Ok in E3 as (y3 & G3 & M3).
  rewrite G3 in Happ; cbn [mbind result_bind] in Happ.
  rewrite M3 in Happ; cbn [mbind result_bind] in Happ.
  discriminate Happ.
Qed.

Lemma adjust_forecast_fails_as_applyGrowth_witness :
  let S := {| index := [CTime 0];
              columns := [("ds", [CTime 24]); ("yhat", floats [100]%float)] |} in
  let s := {| heap := {[ 1%positive := sample_forecast; 2%positive := S ]};
              session := ∅; screen := [] |} in
  exists s',
    adjust_forecast 2 s = Raised (KeyError "yhat_lower") s' /\
    screen s' = screen s ++
      [ st_subheader "What-If Growth Scenario";
        st_selectbox "Select expected growth scenario" (map fst scenario_map)
                     "selected_scenario" ] /\
    (forall l, l <> 2%positive -> heap s' !! l = heap s !! l).
Proof.
  intros S s.
  apply (adjust_forecast_fails_as_applyGrowth 2 "Baseline (0%)" 0 S); reflexivity.
Defined.

(** ** The model comparison page *)

Lemma col_mean_floats vs : col_mean (map CFloat vs) = Ok (fmean vs).
Proof. unfold col_mean. now rewrite col_floats_floats. Qed.

(** The halving of [pairwise_sum] never runs out of fuel: any two bounds on
    the length give the same sum. *)
Lemma pairwise_sum_fuel (f1 f2 : nat) (a : list float) :
  (length a <= f1)%nat -> (length a <= f2)%nat -> pairwise_sum f1 a = pairwise_sum f2 a.
Proof.
  revert f2 a. induction f1 as [| f1 IH]; intros f2 a H1 H2.
  - destruct a; [| cbn in H1; lia]. destruct f2; reflexivity.
  - destruct f2 as [| f2].
    + destruct a; [| cbn in H2; lia]. reflexivity.
    + cbn [pairwise_sum]. destruct (128 <? length a)%nat eqn:E; [| reflexivity].
      apply Nat.ltb_lt in E.
      set (n2 := (length a / 2 - (length a / 2) mod 8)%nat).
      assert (Hn2 : (0 < n2 < length a)%nat).
      { unfold n2.
        pose proof (Nat.mod_upper_bound (length a / 2) 8 ltac:(lia)).
        pose proof (Nat.div_lt (length a) 2 ltac:(lia) ltac:(lia)).
        assert (64 <= length a / 2)%nat by (apply Nat.div_le_lower_bound; lia).
        lia. }
      f_equal; apply IH; rewrite ?length_take, ?length_drop; lia.
Qed.

(** comparison.py 37-52 up to the two look-ups of the Prophet row: the values
    computed and the state they are computed in. *)
Lemma run_comparison_values (items : list (string * DataFrame))
    (baseline errs agg sales : DataFrame) (yhat vs : list float)
    {A} (k : loc -> loc -> float -> float -> DataFrame -> Script A) (s : State) :
  assoc "baseline_forecasts" items = Some baseline ->
  assoc "errors" items = Some errs ->
  assoc "forecast" items = Some agg ->
  assoc "monthly_sales" items = Some sales ->
  getcol "yhat" agg = Ok (map CFloat yhat) ->
  getcol "Sales" sales = Ok (map CFloat vs) ->
  exists baseline_test errors_table s',
    (state_holder ← load_state (Pickled items);
     baseline_test ← getitem state_holder "baseline_forecasts";
     errors_table ← getitem state_holder "errors";
     forecast ← getitem state_holder "forecast";
     future_forecast ← new_from forecast (fun df => Ok (df_tail 6 df));
     yhat ← obj_getcol future_forecast "yhat";
     forecast_6m ← lift (col_sum yhat);
     monthly_sales ← getitem state_holder "monthly_sales";
     sales ← obj_getcol monthly_sales "Sales";
     avg_sales ← lift (col_mean sales);
     errors ← deref errors_table;
     k baseline_test errors_table forecast_6m avg_sales errors) s =
    k baseline_test errors_table (fsum (last_n 6 yhat)) (fmean vs) errs s' /\
    heap s' !! errors_table = Some errs /\
    heap s' !! baseline_test = Some baseline /\
    heap s ⊆ heap s' /\
    session s' = session s /\ screen s' = screen s.
Proof.
  intros Hb He Hf Hm Hyhat Hsales.
  destruct (run_unpickle items s) as (d & s0 & Hrun & Hsess & Hscr & Hsub & Hkeys & _).
  pose proof (Hkeys "baseline_forecasts") as K1. rewrite Hb in K1.
  pose proof (Hkeys "errors") as K2. rewrite He in K2.
  pose proof (Hkeys "forecast") as K3. rewrite Hf in K3.
  pose proof (Hkeys "monthly_sales") as K4. rewrite Hm in K4.
  destruct K1 as (l1 & D1 & H1 & _), K2 as (l2 & D2 & H2 & _),
           K3 as (l3 & D3 & H3 & _), K4 as (l4 & D4 & H4 & _).
  set (l5 := fresh (dom (heap s0))).
  assert (Hl5 : heap s0 !! l5 = None) by apply fresh_lookup.
  set (s1 := {| heap := <[l5 := df_tail 6 agg]> (heap s0);
                session := session s0; screen := screen s0 |}).
  assert (Hkeep : forall l df, heap s0 !! l = Some df -> heap s1 !! l = Some df).
  { intros l df Hl. unfold s1; cbn [heap].
    rewrite lookup_insert_ne; [exact Hl | intros <-; congruence]. }
  exists l1, l2, s1. split; [| repeat split; auto].
  - cbn [load_state].
    erewrite run_bind; [| exact Hrun].
    erewrite run_bind; [| apply run_getitem; exact D1].
    erewrite run_bind; [| apply run_getitem; exact D2].
    erewrite run_bind; [| apply run_getitem; exact D3].
    erewrite run_bind; [| eapply run_new_from; [exact H3 | reflexivity]].
    fold l5 s1.
    erewrite run_bind;
      [| eapply run_obj_getcol;
         [unfold s1; cbn [heap]; apply lookup_insert_eq
         | apply getcol_df_tail; exact Hyhat]].
    rewrite last_n_map, col_sum_floats.
    erewrite run_bind; [| reflexivity].
    erewrite run_bind; [| apply run_getitem; exact D4].
    erewrite run_bind; [| eapply run_obj_getcol; [apply Hkeep; exact H4 | exact Hsales]].
    rewrite col_mean_floats.
    erewrite run_bind; [| reflexivity].
    erewrite run_bind; [| apply run_deref; apply Hkeep; exact H2].
    reflexivity.
  - etransitivity; [exact Hsub |]. unfold s1; cbn [heap]. now apply insert_subseteq.
Qed.

(** comparison.py 37-58 on an artifact that has what the block reads. *)
Lemma run_comparison_load (items : list (string * DataFrame))
    (baseline errs agg sales : DataFrame) (yhat vs : list float)
    (prophet_mae prophet_mape : LocResult) (s : State) :
  assoc "baseline_forecasts" items = Some baseline ->
  assoc "errors" items = Some errs ->
  assoc "forecast" items = Some agg ->
  assoc "monthly_sales" items = Some sales ->
  getcol "yhat" agg = Ok (map CFloat yhat) ->
  getcol "Sales" sales = Ok (map CFloat vs) ->
  df_loc errs (CStr "Prophet") "MAE" = Ok prophet_mae ->
  df_loc errs (CStr "Prophet") "MAPE" = Ok prophet_mape ->
  exists baseline_test errors_table s',
    comparison_load (Pickled items) s =
      Returned (baseline_test, errors_table, fsum (last_n 6 yhat), fmean vs) s' /\
    heap s' !! errors_table = Some errs /\
    heap s' !! baseline_test = Some baseline /\
    heap s ⊆ heap s' /\
    session s' = session s /\ screen s' = screen s.
Proof.
  intros Hb He Hf Hm Hyhat Hsales Hpm Hpp.
  destruct (run_comparison_values items baseline errs agg sales yhat vs
              (fun baseline_test errors_table forecast_6m avg_sales errors =>
                 prophet_mae ← lift (df_loc errors (CStr "Prophet") "MAE");
                 prophet_mape ← lift (df_loc errors (CStr "Prophet") "MAPE");
                 mret (baseline_test, errors_table, forecast_6m, avg_sales))
              s Hb He Hf Hm Hyhat Hsales)
    as (l1 & l2 & s' & Hrun & Hrest).
  exists l1, l2, s'. split; [| exact Hrest].
  unfold comparison_load. apply run_try_returned.
  etransitivity; [exact Hrun |]. cbv beta.
  rewrite Hpm, Hpp. reflexivity.
Qed.

(** comparison.py 60-97 on an error table with a best model. *)
Lemma run_comparison_header (errors_table : loc) (errs : DataFrame)
    (forecast_6m avg_sales mae mape : float) (best_model : Cell) (s : State) :
  heap s !! errors_table = Some errs ->
  bestModel errs = Ok (best_model, Scalar (CFloat mae)) ->
  df_loc errs best_model "MAPE" = Ok (Scalar (CFloat mape)) ->
  let pressed := button_value (session s !! "error_df") in
  comparison_header errors_table forecast_6m avg_sales s =
    Returned tt
      {| heap := heap s;
         session := <["error_df" := pressed]> (session s);
         screen := screen s ++
           [ st_set_page_config "Model Comparison";
             st_sidebar_header "Model Comparison";
             st_title "Model Comparison";
             st_columns 4;
             st_metric "Average Monthly Sales" [Num ".0f" avg_sales];
             st_metric "Forecast (Next 6 Months)" [Num ".0f" forecast_6m];
             st_metric "Best MAE" [Num ".2f" mae];
             st_metric "Best MAPE" [Num ".2%" mape];
             st_expander "Errors Summary";
             st_dataframe errs;
             st_download_button [Lit "Download "; Lit "Errors Table"] (Csv errs)
                                [Lit "errors"; Lit ".csv"] "error_df" ] ++
           (if truthy pressed then [st_toast "Download Started"] else []) ++
           [ st_success [Lit "Selected Model: "; Label best_model] ] |}.
Proof.
  intros He Hbest Hmape pressed. unfold comparison_header.
  erewrite run_bind; [| apply run_deref; exact He].
  rewrite Hbest. erewrite run_bind; [| reflexivity]. cbv beta iota.
  rewrite Hmape. erewrite run_bind; [| reflexivity].
  do 6 (erewrite run_bind; [| apply run_emit]).
  erewrite run_bind; [| reflexivity].
  erewrite run_bind; [| apply run_emit].
  erewrite run_bind; [| reflexivity].
  do 3 (erewrite run_bind; [| apply run_emit]).
  unfold download_button_dataframe.
  erewrite run_bind; [| apply run_download_button].
  erewrite run_bind; [| apply run_session_get; cbn [session]; apply lookup_insert_eq].
  cbn [heap session screen]. fold pressed.
  rewrite <- !app_assoc. cbn [app].
  destruct (truthy pressed).
  - erewrite run_bind; [| apply run_emit]. rewrite run_emit.
    cbn [heap session screen]. rewrite <- !app_assoc. reflexivity.
  - erewrite run_bind; [| reflexivity]. rewrite run_emit.
    cbn [heap session screen]. rewrite <- !app_assoc. reflexivity.
Qed.



(** The comparison page on an artifact that has what it reads. *)
Lemma run_comparison (items : list (string * DataFrame))
    (baseline errs agg sales : DataFrame) (yhat vs : list float)
    (prophet_mae prophet_mape : LocResult) (best_model : Cell) (mae mape : float)
    (s : State) :
  assoc "baseline_forecasts" items = Some baseline ->
  assoc "errors" items = Some errs ->
  assoc "forecast" items = Some agg ->
  assoc "monthly_sales" items = Some sales ->
  getcol "yhat" agg = Ok (map CFloat yhat) ->
  getcol "Sales" sales = Ok (map CFloat vs) ->
  df_loc errs (CStr "Prophet") "MAE" = Ok prophet_mae ->
  df_loc errs (CStr "Prophet") "MAPE" = Ok prophet_mape ->
  bestModel errs = Ok (best_model, Scalar (CFloat mae)) ->
  df_loc errs best_model "MAPE" = Ok (Scalar (CFloat mape)) ->
  exists s',
    comparison (Pickled items) s = Returned tt s' /\
    screen s' = screen s ++
      [ st_set_page_config "Model Comparison";
        st_sidebar_header "Model Comparison";
        st_title "Model Comparison";
        st_columns 4;
        st_metric "Average Monthly Sales" [Num ".0f" (fmean vs)];
        st_metric "Forecast (Next 6 Months)" [Num ".0f" (fsum (last_n 6 yhat))];
        st_metric "Best MAE" [Num ".2f" mae];
        st_metric "Best MAPE" [Num ".2%" mape];
        st_expander "Errors Summary";
        st_dataframe errs;
        st_download_button [Lit "Download "; Lit "Errors Table"] (Csv errs)
                           [Lit "errors"; Lit ".csv"] "error_df" ] ++
      (if truthy (button_value (session s !! "error_df"))
       then [st_toast "Download Started"] else []) ++
      [ st_success [Lit "Selected Model: "; Label best_model] ].
Proof.
  intros Hb He Hf Hm Hyhat Hsales Hpm Hpp Hbest Hmape.
  destruct (run_comparison_load items baseline errs agg sales yhat vs prophet_mae prophet_mape
              s Hb He Hf Hm Hyhat Hsales Hpm Hpp)
    as (l1 & l2 & s1 & Hload & Herrs & _ & _ & Hsess & Hscr).
  eexists. split.
  - unfold comparison. erewrite run_bind; [| exact Hload]. cbv beta iota.
    eapply run_comparison_header; eassumption.
  - cbn [screen]. rewrite Hscr, Hsess. reflexivity.
Qed.



Lemma select_rows_absent_label (label : Cell) (idx col : list Cell) :
  Forall (fun l => cell_eqb label l = false) idx ->
  select_rows (map (cell_eqb label) idx) col = [].
Proof.
  intros H. apply select_rows_none. now apply List.Forall_map.
Qed.

(** X16: the comparison page needs a model called Prophet. Its load block
    looks up the Prophet row of the error table (values the page never shows);
    when no row carries that label the look-up raises inside the try block,
    and the page stops with the one error message that quotes 'Prophet',
    whatever the other models are. *)
Theorem comparison_needs_a_prophet_row (items : list (string * DataFrame))
    (baseline errs agg sales : DataFrame) (yhat vs : list float) (mae : Column)
    (s : State) :
  assoc "baseline_forecasts" items = Some baseline ->
  assoc "errors" items = Some errs ->
  assoc "forecast" items = Some agg ->
  assoc "monthly_sales" items = Some sales ->
  getcol "yhat" agg = Ok (map CFloat yhat) ->
  getcol "Sales" sales = Ok (map CFloat vs) ->
  getcol "MAE" errs = Ok mae ->
  Forall (fun l => cell_eqb (CStr "Prophet") l = false) (index errs) ->
  exists s',
    comparison (Pickled items) s = Stopped s' /\
    screen s' = screen s ++
      [st_error [Lit "Errors encountered while starting project: "; Lit "'Prophet'"]] /\
    session s' = session s.
Proof.
  intros Hb He Hf Hm Hyhat Hsales Hmae Hno.
  destruct (run_comparison_values items baseline errs agg sales yhat vs
              (fun baseline_test errors_table forecast_6m avg_sales errors =>
                 prophet_mae ← lift (df_loc errors (CStr "Prophet") "MAE");
                 prophet_mape ← lift (df_loc errors (CStr "Prophet") "MAPE");
                 mret (baseline_test, errors_table, forecast_6m, avg_sales))
              s Hb He Hf Hm Hyhat Hsales)
    as (l1 & l2 & s1 & Hrun & _ & _ & _ & Hsess & Hscr).
  assert (Hloc : df_loc errs (CStr "Prophet") "MAE" = Err (KeyError "Prophet")).
  { unfold df_loc. rewrite Hmae; cbn [mbind result_bind].
    now rewrite select_rows_absent_label. }
  exists {| heap := heap s1; session := session s1;
            screen := screen s1 ++
              [st_error [Lit "Errors encountered while starting project: ";
                         Lit (exn_str (KeyError "Prophet"))]] |}.
  split; [| cbn [screen session]; rewrite Hscr, Hsess; split; reflexivity].
  unfold comparison. apply run_bind_stopped. unfold comparison_load.
  erewrite run_try_raised;
    [| etransitivity; [exact Hrun |]; cbv beta; rewrite Hloc; reflexivity].
  reflexivity.
Qed.

Lemma comparison_needs_a_prophet_row_witness :
  Forall (fun l => cell_eqb (CStr "Prophet") l = false) (index sample_errors) /\
  exists s',
    comparison (Pickled (("baseline_forecasts", sample_baseline_forecasts) ::
                         [ ("monthly_sales", sample_monthly_sales);
                           ("forecast", sample_forecast);
                           ("errors", sample_errors) ]))
               (fresh_run ∅) = Stopped s' /\
    screen s' = screen (fresh_run ∅) ++
      [st_error [Lit "Errors encountered while starting project: "; Lit "'Prophet'"]] /\
    session s' = session (fresh_run ∅).
Proof.
  assert (H : Forall (fun l => cell_eqb (CStr "Prophet") l = false) (index sample_errors))
    by (repeat constructor).
  exact (conj H
    (comparison_needs_a_prophet_row
       (("baseline_forecasts", sample_baseline_forecasts) ::
        [ ("monthly_sales", sample_monthly_sales);
          ("forecast", sample_forecast);
          ("errors", sample_errors) ])
       sample_baseline_forecasts sample_errors
       sample_forecast sample_monthly_sales (repeat 80%float 6 ++ repeat 100%float 6)
       [75; 82; 78]%float (floats [5; 3; 3]%float) (fresh_run ∅)
       eq_refl eq_refl eq_refl eq_refl eq_refl eq_refl eq_refl H)).
Defined.

(** ** The two pages side by side *)

Lemma baseline_scaling_is_identity (vs : list float) :
  map (fun v => (v * (1 + 0))%float) vs = vs.
Proof.
  induction vs as [| v vs IH]; cbn [map]; [reflexivity |].
  now rewrite IH, one_plus_zero, mul_one_r.
Qed.

(** X17: on a first visit, with nothing selected yet, the two pages agree on
    the six-month forecast: the main page comes up with all categories and
    the baseline scenario, and the total of its KPI row is the very number
    the comparison page shows as its forecast metric, the sum of the last six
    point estimates of the aggregate forecast. *)
Theorem first_visit_totals_agree (items : list (string * DataFrame))
    (sales agg cat errs baseline : DataFrame) (options : list string)
    (pts : list ForecastPoint) (vs : list float)
    (best_model : Cell) (mae mape : float) (prophet_mae prophet_mape : LocResult)
    (s1 s2 : State) :
  assoc "monthly_sales" items = Some sales ->
  assoc "forecast" items = Some agg ->
  assoc "category_forecast_df" items = Some cat ->
  assoc "errors" items = Some errs ->
  assoc "baseline_forecasts" items = Some baseline ->
  categories cat = Ok options ->
  forecast_series agg = Ok pts ->
  getcol "Sales" sales = Ok (map CFloat vs) ->
  bestModel errs = Ok (best_model, Scalar (CFloat mae)) ->
  df_loc errs best_model "MAPE" = Ok (Scalar (CFloat mape)) ->
  df_loc errs (CStr "Prophet") "MAE" = Ok prophet_mae ->
  df_loc errs (CStr "Prophet") "MAPE" = Ok prophet_mape ->
  session s1 !! "selected_category" = None ->
  session s1 !! "selected_scenario" = None ->
  let total := fsum (last_n 6 (map pointEstimate pts)) in
  st_metric "Category" [Val (SStr all_categories)]
    ∈ screen (final_state (mainpage (Pickled items) s1)) /\
  st_metric "Next 6 Months Forecast" [Num ",.0f" total]
    ∈ screen (final_state (mainpage (Pickled items) s1)) /\
  st_metric "Forecast (Next 6 Months)" [Num ".0f" total]
    ∈ screen (final_state (comparison (Pickled items) s2)).
Proof.
  intros Hms Hfa Hcf Her Hb Hcats Hpts Hsales Hbest Hmape Hpm Hpp Hnoc Hnos total.
  assert (Hopts : exists rest, options = all_categories :: rest).
  { unfold categories in Hcats.
    apply bind_Ok in Hcats as (col & _ & Hcats).
    apply bind_Ok in Hcats as (names & _ & [= <-]). eauto. }
  destruct Hopts as (rest & ->).
  destruct (applyGrowth_spec agg 0 pts Hpts) as (S' & Happ & _ & _ & _ & Hcol).
  assert (Hsum : summarize (tailWindow 6 S') = Ok total).
  { unfold summarize, tailWindow.
    rewrite (getcol_df_tail _ _ _ _ Hcol); cbn [mbind result_bind].
    rewrite baseline_scaling_is_identity, last_n_map, col_sum_floats. reflexivity. }
  pose proof (run_mainpage_kpis items sales agg cat errs agg S' (all_categories :: rest)
                all_categories "Baseline (0%)" 0 total mae best_model s1
                Hms Hfa Hcf Her Hcats) as Hmain.
  rewrite Hnoc, Hnos in Hmain.
  specialize (Hmain eq_refl eq_refl eq_refl eq_refl Happ Hsum Hbest).
  apply series_view_Ok in Hpts as (ds & e & l & u & _ & He & _ & _ & Hz).
  apply zip_points_estimates in Hz. subst e.
  destruct (run_comparison items baseline errs agg sales (map pointEstimate pts) vs
              prophet_mae prophet_mape best_model mae mape s2
              Hb Her Hfa Hms He Hsales Hpm Hpp Hbest Hmape) as (s' & Hrun & Hscreen).
  split; [| split].
  - eapply elem_of_prefix; [exact Hmain |].
    apply elem_of_app; right. apply list_elem_of_In; cbn; tauto.
  - eapply elem_of_prefix; [exact Hmain |].
    apply elem_of_app; right. apply list_elem_of_In; cbn; tauto.
  - rewrite Hrun. cbn [final_state]. rewrite Hscreen.
    apply elem_of_app; right. apply elem_of_app; left.
    apply list_elem_of_In; cbn; tauto.
Qed.

Lemma first_visit_totals_agree_witness :
  let total := fsum (last_n 6 (map pointEstimate sample_points)) in
  st_metric "Category" [Val (SStr all_categories)]
    ∈ screen (final_state (mainpage (Pickled sample_state) (fresh_run ∅))) /\
  st_metric "Next 6 Months Forecast" [Num ",.0f" total]
    ∈ screen (final_state (mainpage (Pickled sample_state) (fresh_run ∅))) /\
  st_metric "Forecast (Next 6 Months)" [Num ".0f" total]
    ∈ screen (final_state (comparison (Pickled sample_state) (fresh_run ∅))).
Proof.
  eapply (first_visit_totals_agree sample_state sample_monthly_sales sample_forecast
            sample_category_forecast sample_model_errors sample_baseline_forecasts
            _ sample_points [75; 82; 78]%float);
    try reflexivity; vm_compute; reflexivity.
Defined.

(** ** Tables across a whole run *)

Lemma neutral_bind {A B} (m : Script A) (f : A -> Script B) :
  heap_neutral m -> (forall a, heap_neutral (f a)) -> heap_neutral (m ≫= f).
Proof.
  intros Hm Hf s. specialize (Hm s). unfold mbind, script_bind.
  destruct (m s) as [a s1 | s1 | e s1]; cbn in Hm |- *; try exact Hm.
  now rewrite Hf.
Qed.

Lemma neutral_getitem d key : heap_neutral (getitem d key).
Proof. intros s. unfold getitem. destruct (d !! key); reflexivity. Qed.

Lemma neutral_load_failed {A} e : heap_neutral (@load_failed A e).
Proof. intros s. destruct e; reflexivity. Qed.

Ltac neutral_run :=
  repeat first
    [ solve [auto with neutral]
    | apply neutral_getitem
    | apply neutral_bind; [| intros ?]
    | match goal with
      | |- heap_neutral (if ?b then _ else _) => destruct b
      | |- heap_neutral (match ?x with _ => _ end) => destruct x
      end ].

Lemma neutral_comparison_header errors_table forecast_6m avg_sales :
  heap_neutral (comparison_header errors_table forecast_6m avg_sales).
Proof. unfold comparison_header, download_button_dataframe. neutral_run. Qed.

Section KeepsRun.
Variable h0 : gmap loc DataFrame.

Lemma keeps_any {A} (m : Script A) (post : A -> Prop) :
  keeps h0 m post -> keeps h0 m (fun _ => True).
Proof using Type. intros H. eapply keeps_weaken; [exact H | auto]. Qed.

Lemma keeps_unpickle items : keeps h0 (unpickle items) (fun _ => True).
Proof using Type.
  induction items as [| [k df] r IH]; cbn [unpickle].
  - now apply keeps_ret.
  - eapply keeps_bind; [apply keeps_alloc | intros l _].
    eapply keeps_bind; [exact IH | intros d _]. now apply keeps_ret.
Qed.

Lemma keeps_load_state art : keeps h0 (load_state art) (fun _ => True).
Proof using Type.
  destruct art; cbn [load_state]; [| | apply keeps_unpickle];
    apply keeps_neutral, neutral_raise.
Qed.

Lemma keeps_try_except {A} (body : Script A) handler (post : A -> Prop) :
  keeps h0 body post -> (forall e, keeps h0 (handler e) post) ->
  keeps h0 (try_except body handler) post.
Proof using Type.
  intros Hb Hh s Hs. destruct (Hb s Hs) as [Hheap Hret]. unfold try_except.
  destruct (body s) as [a s1 | s1 | e s1] eqn:E; cbn in Hheap.
  - split; [exact Hheap | exact Hret].
  - split; [exact Hheap | discriminate].
  - exact (Hh e s1 Hheap).
Qed.

Lemma keeps_load_failed {A} e : keeps h0 (@load_failed A e) (fun _ => True).
Proof using Type. apply keeps_neutral, neutral_load_failed. Qed.

Lemma keeps_getitem d key : keeps h0 (getitem d key) (fun _ => True).
Proof using Type. apply keeps_neutral, neutral_getitem. Qed.

Lemma keeps_mainpage art : keeps h0 (mainpage art) (fun _ => True).
Proof using Type.
  unfold mainpage.
  eapply keeps_bind with (mid := fun _ => True).
  - unfold mainpage_load. apply keeps_try_except; [| intros e; apply keeps_load_failed].
    eapply keeps_bind; [apply keeps_load_state | intros d _].
    do 4 (eapply keeps_bind; [apply keeps_getitem | intros ? _]).
    now apply keeps_ret.
  - intros [[[ms fa] cf] er] _. apply keeps_mainpage_body.
Qed.

Lemma keeps_comparison_load art : keeps h0 (comparison_load art) (fun _ => True).
Proof using Type.
  unfold comparison_load. apply keeps_try_except; [| intros e; apply keeps_load_failed].
  eapply keeps_bind; [apply keeps_load_state | intros d _].
  do 3 (eapply keeps_bind; [apply keeps_getitem | intros ? _]).
  eapply keeps_bind; [eapply keeps_any, keeps_new_from | intros ? _].
  eapply keeps_bind; [apply keeps_neutral, neutral_obj_getcol | intros ? _].
  eapply keeps_bind; [apply keeps_neutral, neutral_lift | intros ? _].
  eapply keeps_bind; [apply keeps_getitem | intros ? _].
  eapply keeps_bind; [apply keeps_neutral, neutral_obj_getcol | intros ? _].
  eapply keeps_bind; [apply keeps_neutral, neutral_lift | intros ? _].
  eapply keeps_bind; [apply keeps_neutral, neutral_deref | intros ? _].
  eapply keeps_bind; [apply keeps_neutral, neutral_lift | intros ? _].
  eapply keeps_bind; [apply keeps_neutral, neutral_lift | intros ? _].
  now apply keeps_ret.
Qed.
End KeepsRun.

(** X18: a whole run of the main page, from any artifact and any session,
    leaves every table object that existed before the run as it was, however
    the run ends (to its last line, by st.stop() in the load block, or by an
    exception): what the run loads and derives goes to new objects. Of the
    comparison page the same holds of the load block (lines 37 to 58),
    however that ends, and lines 60 to 97 make no table and change none; the
    tabs below them are not covered. *)
Theorem pages_keep_existing_tables (art : Artifact) (s : State) :
  heap s ⊆ heap (final_state (mainpage art s)) /\
  heap s ⊆ heap (final_state (comparison_load art s)) /\
  (forall errors_table forecast_6m avg_sales,
     heap (final_state (comparison_header errors_table forecast_6m avg_sales s)) = heap s).
Proof.
  split; [| split].
  - apply (keeps_mainpage (heap s)). reflexivity.
  - apply (keeps_comparison_load (heap s)). reflexivity.
  - intros. apply neutral_comparison_header.
Qed.
